(** * NetworkConfig: parse, correlate, reconcile

  A shallow embedding of the text-processing core of the repository:

  - [BASELINE/config_deploy_1.2.py]: the legacy-snapshot parser
    ([parse_config_collector_output]), the replacement switch's MAC table
    parser ([parse_new_switch_mac_table]), the port-mode parser
    ([get_interface_modes]) and the plan builder ([build_config_commands]);
    then [get_existing_vlans] and [main], as a function of what the session
    answers and of what the operator types;
  - [scripts/build_mac_profile_db.py]: [get_mac_to_interface] and
    [get_interface_blocks]; then [extract_config_profile] and the loop of
    [main] over the inventory;
  - [config_collector.py]: [collect_mac_table], [save_to_single_file] and the
    test that guards the writing of the file.

  Python [str] values are modelled as [string] whose characters are the code
  points U+0000..U+00FF; [dict] is [gmap], [set] is [gset], a raised
  exception is a constructor of [res].  Text written by [print] is returned
  next to the function's value. *)

From Stdlib Require Import ZArith Ascii String List.
From stdpp Require Import base gmap strings list sorting.

Open Scope string_scope.
(** Strings are appended with [+:+]; [++] is kept for lists. *)
Disable Notation "_ ++ _" : string_scope.
Set Warnings "-clear-no-such-hyp".

(** ** Python string primitives *)

Module PyStr.

Definition code (c : ascii) : N := N_of_ascii c.

Definition between (lo hi : N) (c : ascii) : bool :=
  (lo <=? code c)%N && (code c <=? hi)%N.

(** [str.isspace] on one character: TAB..CR, FS..US, space, NEL, NBSP. *)
Definition is_space (c : ascii) : bool :=
  between 9 13 c || between 28 32 c || (code c =? 133)%N || (code c =? 160)%N.

(** The line boundaries of [str.splitlines]: LF, VT, FF, CR, FS, GS, RS, NEL
    (CR LF counts as one boundary, see [splitlines]). *)
Definition is_linebreak (c : ascii) : bool :=
  between 10 13 c || between 28 30 c || (code c =? 133)%N.

(** [\d] of [re] and the digits of [int]: 0..9. *)
Definition is_digit (c : ascii) : bool := between 48 57 c.

(** The class [[0-9a-f]]. *)
Definition is_lower_hex (c : ascii) : bool := is_digit c || between 97 102 c.

Definition is_upper (c : ascii) : bool :=
  between 65 90 c || between 192 214 c || between 216 222 c.

Definition lower_char (c : ascii) : ascii :=
  if is_upper c then ascii_of_N (code c + 32) else c.

(** [s.lower()] *)
Fixpoint lower (s : string) : string :=
  match s with
  | EmptyString => EmptyString
  | String c s' => String (lower_char c) (lower s')
  end.

Definition is_empty (s : string) : bool :=
  match s with EmptyString => true | _ => false end.

Fixpoint lstrip (s : string) : string :=
  match s with
  | EmptyString => EmptyString
  | String c s' => if is_space c then lstrip s' else s
  end.

Fixpoint rstrip (s : string) : string :=
  match s with
  | EmptyString => EmptyString
  | String c s' =>
      let r := rstrip s' in
      if is_space c && is_empty r then EmptyString else String c r
  end.

(** [s.strip()] *)
Definition strip (s : string) : string := rstrip (lstrip s).

(** Puts [c] in front of the first piece of a split. *)
Definition cons_first (c : ascii) (pieces : list string) : list string :=
  match pieces with
  | [] => [String c EmptyString]
  | t :: ts => String c t :: ts
  end.

Definition starts_token (s : string) : bool :=
  match s with
  | EmptyString => false
  | String c _ => negb (is_space c)
  end.

(** [s.split()]: the maximal runs of non-whitespace characters. *)
Fixpoint split_ws (s : string) : list string :=
  match s with
  | EmptyString => []
  | String c s' =>
      if is_space c then split_ws s'
      else if starts_token s' then cons_first c (split_ws s')
      else String c EmptyString :: split_ws s'
  end.

(** [s.split(sep)] for a one-character separator: empty pieces are kept. *)
Fixpoint split_char (sep : ascii) (s : string) : list string :=
  match s with
  | EmptyString => [EmptyString]
  | String c s' =>
      if Ascii.eqb c sep then EmptyString :: split_char sep s'
      else cons_first c (split_char sep s')
  end.

Definition CR : ascii := ascii_of_N 13.
Definition LF : ascii := ascii_of_N 10.

(** [s.splitlines()]: no piece for the end of the text after a final
    boundary, CR LF is one boundary. *)
Fixpoint splitlines (s : string) : list string :=
  match s with
  | EmptyString => []
  | String c s' =>
      if is_linebreak c then
        match s' with
        | String c' s'' =>
            if Ascii.eqb c CR && Ascii.eqb c' LF
            then EmptyString :: splitlines s''
            else EmptyString :: splitlines s'
        | EmptyString => [EmptyString]
        end
      else cons_first c (splitlines s')
  end.

(** The lines a text-mode file yields to [for line in f] (universal
    newlines: LF, CR and CR LF end a line), without their line ends, which
    every caller strips at once. *)
Fixpoint file_lines (s : string) : list string :=
  match s with
  | EmptyString => []
  | String c s' =>
      if Ascii.eqb c LF || Ascii.eqb c CR then
        match s' with
        | String c' s'' =>
            if Ascii.eqb c CR && Ascii.eqb c' LF
            then EmptyString :: file_lines s''
            else EmptyString :: file_lines s'
        | EmptyString => [EmptyString]
        end
      else cons_first c (file_lines s')
  end.

(** [s.startswith(p)] *)
Definition startswith (p s : string) : bool := String.prefix p s.

(** [needle in s] *)
Fixpoint contains (needle s : string) : bool :=
  String.prefix needle s ||
  match s with
  | EmptyString => false
  | String _ s' => contains needle s'
  end.

(** [s.replace(c, "")] for a one-character [c]. *)
Fixpoint remove_char (x : ascii) (s : string) : string :=
  match s with
  | EmptyString => EmptyString
  | String c s' =>
      if Ascii.eqb c x then remove_char x s' else String c (remove_char x s')
  end.

(** [sep.join(pieces)] *)
Fixpoint join (sep : string) (pieces : list string) : string :=
  match pieces with
  | [] => EmptyString
  | [p] => p
  | p :: ps => p +:+ sep +:+ join sep ps
  end.

(** [[s[i:i+2] for i in range(0, len(s), 2)]] *)
Fixpoint pairs_of (s : string) : list string :=
  match s with
  | EmptyString => []
  | String a EmptyString => [String a EmptyString]
  | String a (String b s') => String a (String b EmptyString) :: pairs_of s'
  end.

(** [s.split(sep)] for a non-empty string [sep]; [skip] counts the characters
    of a separator just found that are still to be passed over. *)
Fixpoint split_str_from (sep : string) (skip : nat) (s : string) : list string :=
  match s with
  | EmptyString => [EmptyString]
  | String c s' =>
      match skip with
      | S k => split_str_from sep k s'
      | O =>
          if String.prefix sep s
          then EmptyString :: split_str_from sep (String.length sep - 1) s'
          else cons_first c (split_str_from sep 0 s')
      end
  end.

Definition split_str (sep s : string) : list string := split_str_from sep 0 s.

Definition digit_value (c : ascii) : Z := Z.of_N (code c) - 48.

(** The digits of an integer literal as [int] reads them: decimal digits,
    single underscores allowed between two digits. *)
Fixpoint int_digits (acc : Z) (after_digit : bool) (s : string) : option Z :=
  match s with
  | EmptyString => if after_digit then Some acc else None
  | String c s' =>
      if is_digit c then int_digits (10 * acc + digit_value c) true s'
      else if Ascii.eqb c "_" && after_digit then int_digits acc false s'
      else None
  end.

(** [sys.get_int_max_str_digits()]: the interpreter's limit on the number of
    digits of a decimal literal that [int] converts; it is 4300 unless it is
    changed, which the scripts never do. *)
Definition int_max_str_digits : nat := 4300.

(** The number of digit characters of [s]: the sign, the underscores and the
    blanks do not count towards the limit, leading zeros do. *)
Fixpoint digit_count (s : string) : nat :=
  match s with
  | EmptyString => 0
  | String c s' => (if is_digit c then 1 else 0) + digit_count s'
  end.

(** [int(s)] in base ten: surrounding whitespace is dropped, one sign is
    allowed, and a literal of more than [int_max_str_digits] digits is
    refused; [None] is [ValueError].  Below the limit integers are
    unbounded. *)
Definition int_of_str (s : string) : option Z :=
  if (int_max_str_digits <? digit_count (strip s))%nat then None
  else
    match strip s with
    | String "+" r => int_digits 0 false r
    | String "-" r => Z.opp <$> int_digits 0 false r
    | t => int_digits 0 false t
    end.

Definition all_digits (s : string) : bool :=
  forallb is_digit (list_ascii_of_string s).

End PyStr.

(** ** Exceptions *)

Inductive exn : Set := ValueError | IndexError | KeyError.

Inductive res (A : Type) : Type :=
| Ok (a : A)
| Raise (e : exn).
Arguments Ok {A} a.
Arguments Raise {A} e.

(** ** BASELINE/config_deploy_1.2.py *)

Module Deploy.
Import PyStr.

(** One row of the legacy MAC table section: a dict with the keys
    [vlan], [mac], [interface], [role].  The builder reads [vlan] and [mac]
    with [entry.get] and tests them with [not]: a missing key behaves like the
    empty string. *)
Record entry : Set := Entry {
  vlan : string;
  mac : string;
  interface : string;
  role : string
}.

#[global] Instance entry_eq_dec : EqDecision entry.
Proof. solve_decision. Defined.

(** *** parse_config_collector_output *)

Inductive section : Set := MacSection | VlanSection | RunningSection.

(** The [if]/[elif] chain on a line that starts with [===]. *)
Definition section_of_header (line : string) : option section :=
  if contains "MAC_ADDRESS_TABLE" line then Some MacSection
  else if contains "VLAN_NAMES" line then Some VlanSection
  else if contains "RUNNING_CONFIG" line then Some RunningSection
  else None.

(** The body of [if current_section == "mac"]: [None] is the [continue]
    taken on fewer than three comma-separated parts. *)
Definition mac_section_entry (line : string) : option entry :=
  match split_char "," line with
  | p0 :: p1 :: p2 :: rest =>
      Some {| vlan := strip p0;
              mac := lower (strip p1);
              interface := strip p2;
              role := match rest with p3 :: _ => strip p3 | [] => "" end |}
  | _ => None
  end.

(** The body of [elif current_section == "vlan"]. *)
Definition vlan_section_name (line : string) : option (string * string) :=
  match split_char "," line with
  | p0 :: p1 :: _ => Some (strip p0, strip p1)
  | _ => None
  end.

Record collector_state : Type := Collector {
  mac_table_entries : list entry;
  vlan_names : gmap string string;
  current_section : option section
}.

(** One turn of [for line in f]. *)
Definition collector_step (st : collector_state) (raw : string) : collector_state :=
  let line := strip raw in
  if is_empty line then st
  else if startswith "===" line then
    Collector (mac_table_entries st) (vlan_names st) (section_of_header line)
  else
    match current_section st with
    | Some MacSection =>
        match mac_section_entry line with
        | Some e =>
            Collector (mac_table_entries st ++ [e]) (vlan_names st) (current_section st)
        | None => st
        end
    | Some VlanSection =>
        match vlan_section_name line with
        | Some (v, n) =>
            Collector (mac_table_entries st) (<[v := n]> (vlan_names st)) (current_section st)
        | None => st
        end
    | _ => st
    end.

(** [parse_config_collector_output], on the text of the file. *)
Definition parse_config_collector_output (text : string)
  : list entry * gmap string string :=
  let st := foldl collector_step (Collector [] ∅ None) (file_lines text) in
  (mac_table_entries st, vlan_names st).

(** *** parse_new_switch_mac_table *)

(** [re.match(r"^\d", line)] *)
Definition starts_with_digit (line : string) : bool :=
  match line with
  | String c _ => is_digit c
  | EmptyString => false
  end.

(** What one line of the switch output adds to [mac_map]: the pair
    (lower-cased second column, fourth column), or nothing. *)
Definition mac_table_row (raw : string) : option (string * string) :=
  let line := strip raw in
  if is_empty line then None
  else if starts_with_digit line then
    match split_ws line with
    | _ :: p1 :: _ :: p3 :: _ => Some (lower p1, p3)
    | _ => None
    end
  else None.

Definition mac_map_step (mac_map : gmap string string) (raw : string)
  : gmap string string :=
  match mac_table_row raw with
  | Some (m, i) => <[m := i]> mac_map
  | None => mac_map
  end.

Definition parse_new_switch_mac_table (output : string) : gmap string string :=
  foldl mac_map_step ∅ (splitlines output).

(** *** get_interface_modes *)

Record modes_state : Type := ModesState {
  interface_modes : gmap string (option string);
  current_intf : option string
}.

(** [elif current_intf and ...]: [None] and the empty string are false. *)
Definition truthy (o : option string) : bool :=
  match o with
  | Some s => negb (is_empty s)
  | None => false
  end.

(** One turn of the loop over the lines of [show interfaces switchport]. *)
Definition modes_step (st : modes_state) (raw : string) : modes_state :=
  let line := strip raw in
  if startswith "Name:" line then
    match split_ws line with
    | _ :: p1 :: _ => ModesState (<[p1 := None]> (interface_modes st)) (Some p1)
    | _ => st
    end
  else if truthy (current_intf st) && contains "Operational Mode:" line then
    match current_intf st, split_str "Operational Mode:" line with
    | Some intf, _ :: p1 :: _ =>
        ModesState (<[intf := Some (lower (strip p1))]> (interface_modes st)) None
    | _, _ => st
    end
  else st.

(** [get_interface_modes], on the text the session returned. *)
Definition get_interface_modes (output : string) : gmap string (option string) :=
  interface_modes (foldl modes_step (ModesState ∅ None) (splitlines output)).

(** *** build_config_commands *)

(** First loop: one turn of [for entry in mac_table_entries]. *)
Definition creation_step (existing_vlans exclude_vlans : gset string)
    (vlans_to_create : gset string) (e : entry) : gset string :=
  if decide (vlan e = "" ∨ vlan e ∈ exclude_vlans) then vlans_to_create
  else if decide (vlan e ∈ existing_vlans) then vlans_to_create
  else {[vlan e]} ∪ vlans_to_create.

Definition vlans_to_create (mac_table_entries : list entry)
    (existing_vlans exclude_vlans : gset string) : gset string :=
  foldl (creation_step existing_vlans exclude_vlans) ∅ mac_table_entries.

(** [sorted(..., key=...)] is a stable sort on the keys: [x] goes in front of
    the first element whose key is not smaller. *)
Fixpoint insert_by_key (x : Z * string) (l : list (Z * string)) : list (Z * string) :=
  match l with
  | [] => [x]
  | y :: l' => if (x.1 <=? y.1)%Z then x :: l else y :: insert_by_key x l'
  end.

Definition sort_by_key (l : list (Z * string)) : list (Z * string) :=
  foldr insert_by_key [] l.

Definition with_int_key (v : string) : option (Z * string) :=
  (λ k, (k, v)) <$> int_of_str v.

(** [sorted(l, key=lambda x: int(x))]: every key is computed before the
    sort, and a key that is no integer raises [ValueError]. *)
Definition sorted_by_int (l : list string) : res (list string) :=
  match mapM with_int_key l with
  | Some keyed => Ok ((sort_by_key keyed).*2)
  | None => Raise ValueError
  end.

(** [vlan_names.get(vlan, f"VLAN_{vlan}")] *)
Definition vlan_name_of (vlan_names : gmap string string) (v : string) : string :=
  default ("VLAN_" +:+ v) (vlan_names !! v).

(** The two commands appended per VLAN by the second loop. *)
Definition creation_commands (vlan_names : gmap string string) (vs : list string)
  : list string :=
  vs ≫= (λ v, ["vlan " +:+ v; " name " +:+ vlan_name_of vlan_names v]).

(** [new_interface = new_switch_mac_map.get(mac)] followed by
    [if not new_interface]: a missing key and an empty name are both
    "not found". *)
Definition lookup_interface (new_switch_mac_map : gmap string string) (m : string)
  : option string :=
  match new_switch_mac_map !! m with
  | Some i => if is_empty i then None else Some i
  | None => None
  end.

(** [interface_modes.get(new_interface)]: [None] for a missing key and for a
    stored [None]. *)
Definition mode_of (interface_modes : gmap string (option string)) (i : string)
  : option string :=
  match interface_modes !! i with
  | Some mode => mode
  | None => None
  end.

(** [f"{mode}"] *)
Definition show_mode (mode : option string) : string := default "None" mode.

Definition not_found_message (m : string) : string :=
  "Warning: MAC " +:+ m +:+ " not found on new switch. Skipping this entry.".

Definition skip_message (i : string) (mode : option string) : string :=
  "Skipping interface " +:+ i +:+ " (mode: " +:+ show_mode mode
    +:+ ") - not a static access port.".

(** The state of the third loop: the command list, the set of interfaces
    already assigned, and the lines printed so far. *)
Record pass_state : Type := PassState {
  commands : list string;
  processed_interfaces : gset string;
  printed : list string
}.

(** Third loop: one turn of [for entry in mac_table_entries]. *)
Definition assign_step (new_switch_mac_map : gmap string string)
    (interface_modes : gmap string (option string)) (exclude_vlans : gset string)
    (st : pass_state) (e : entry) : pass_state :=
  if decide (vlan e = "" ∨ mac e = "" ∨ vlan e ∈ exclude_vlans) then st
  else
    match lookup_interface new_switch_mac_map (mac e) with
    | None =>
        PassState (commands st) (processed_interfaces st)
                  (printed st ++ [not_found_message (mac e)])
    | Some new_interface =>
        let mode := mode_of interface_modes new_interface in
        if decide (mode = Some "static access") then
          if decide (new_interface ∈ processed_interfaces st) then st
          else
            PassState
              (commands st ++ ["interface " +:+ new_interface;
                               " switchport access vlan " +:+ vlan e])
              ({[new_interface]} ∪ processed_interfaces st)
              (printed st)
        else
          PassState (commands st) (processed_interfaces st)
                    (printed st ++ [skip_message new_interface mode])
    end.

Definition assignment_pass (new_switch_mac_map : gmap string string)
    (interface_modes : gmap string (option string)) (exclude_vlans : gset string)
    (st : pass_state) (mac_table_entries : list entry) : pass_state :=
  foldl (assign_step new_switch_mac_map interface_modes exclude_vlans)
        st mac_table_entries.

(** [build_config_commands].  [set_iter] is the order in which the
    interpreter iterates over a set of strings, which the language leaves
    open; the value is the command list with the lines printed. *)
Definition build_config_commands (set_iter : gset string → list string)
    (mac_table_entries : list entry) (vlan_names : gmap string string)
    (existing_vlans : gset string) (new_switch_mac_map : gmap string string)
    (interface_modes : gmap string (option string)) (exclude_vlans : gset string)
  : res (list string * list string) :=
  match sorted_by_int
          (set_iter (vlans_to_create mac_table_entries existing_vlans exclude_vlans))
  with
  | Raise e => Raise e
  | Ok vs =>
      let st :=
        assignment_pass new_switch_mac_map interface_modes exclude_vlans
          (PassState (creation_commands vlan_names vs) ∅ []) mac_table_entries in
      Ok (commands st, printed st)
  end.

(** *** get_existing_vlans *)

(** The longest run of decimal digits at the start of [s], and the rest. *)
Fixpoint digit_run (s : string) : string * string :=
  match s with
  | EmptyString => (EmptyString, EmptyString)
  | String c s' =>
      if is_digit c
      then let (ds, rest) := digit_run s' in (String c ds, rest)
      else (EmptyString, s)
  end.

(** Group 1 of [re.match(r"^\s*(\d+)\s+", line)]: blanks, then digits, then at
    least one blank.  The two classes are disjoint, so the greedy match is the
    only one. *)
Definition vlan_brief_id (line : string) : option string :=
  let (ds, rest) := digit_run (lstrip line) in
  if is_empty ds then None
  else
    match rest with
    | String c _ => if is_space c then Some ds else None
    | EmptyString => None
    end.

Definition existing_vlans_step (existing_vlans : gset string) (line : string)
  : gset string :=
  match vlan_brief_id line with
  | Some v => {[v]} ∪ existing_vlans
  | None => existing_vlans
  end.

(** [get_existing_vlans], on the text the session returned to
    [show vlan brief]. *)
Definition get_existing_vlans (vlan_output : string) : gset string :=
  foldl existing_vlans_step ∅ (splitlines vlan_output).

(** *** main *)

(** The loop of [main] over [args.exclude_vlans.split(',')]. *)
Definition exclude_step (exclude_vlans : gset string) (piece : string)
  : gset string :=
  let v := strip piece in
  if is_empty v then exclude_vlans else {[v]} ∪ exclude_vlans.

Definition parse_exclude_vlans (arg : string) : gset string :=
  if is_empty arg then ∅
  else foldl exclude_step ∅ (split_char "," arg).

(** What [main] does to the session with the switch. *)
Inductive event : Type :=
| Sent (command : string)
| Configured (config_commands : list string)
| Disconnected.

(** How [main] ends: it returns, leaves through [sys.exit(0)] or through
    [sys.exit] with a message, or an exception escapes. *)
Inductive ending : Set :=
| Returned
| Exit0
| ExitError
| Uncaught (e : exn).

Definition read_commands : list event :=
  [Sent "show vlan brief"; Sent "show mac address";
   Sent "show interfaces switchport"].

(** [main] as a function of what it reads: the text of the CSV file, the
    [--exclude-vlans] argument, the session ([None] when [ConnectHandler]
    raises, else the answer of the switch to each command) and the line typed
    at the prompt.  The value is the trace of the session and the ending; the
    lines printed are left out.  The two [sorted(..., key=int)] that [main]
    prints are kept for the exception they can raise. *)
Definition main (set_iter : gset string → list string)
    (csv_text exclude_arg : string) (connect : option (string → string))
    (answer : string) : list event * ending :=
  let exclude_vlans := parse_exclude_vlans exclude_arg in
  match (if decide (exclude_vlans = ∅) then Ok []
         else sorted_by_int (set_iter exclude_vlans)) with
  | Raise e => ([], Uncaught e)
  | Ok _ =>
      match connect with
      | None => ([], ExitError)
      | Some send_command =>
          let existing_vlans := get_existing_vlans (send_command "show vlan brief") in
          match sorted_by_int (set_iter existing_vlans) with
          | Raise e => ([Sent "show vlan brief"], Uncaught e)
          | Ok _ =>
              let parsed := parse_config_collector_output csv_text in
              let new_switch_mac_map :=
                parse_new_switch_mac_table (send_command "show mac address") in
              let interface_modes :=
                get_interface_modes (send_command "show interfaces switchport") in
              match build_config_commands set_iter parsed.1 parsed.2
                      existing_vlans new_switch_mac_map interface_modes
                      exclude_vlans with
              | Raise e => (read_commands, Uncaught e)
              | Ok (config_commands, _) =>
                  match config_commands with
                  | [] => (read_commands ++ [Disconnected], Exit0)
                  | _ :: _ =>
                      if decide (lower (strip answer) ∈ ["yes"; "y"])
                      then (read_commands
                              ++ [Configured (config_commands ++ ["end"; "write memory"]);
                                  Disconnected],
                            Returned)
                      else (read_commands ++ [Disconnected], Exit0)
                  end
              end
          end
      end
  end.

End Deploy.

(** ** scripts/build_mac_profile_db.py *)

Module ProfileDb.
Import PyStr.

(** *** get_mac_to_interface *)

(** [n] characters of [[0-9a-f]], then the rest. *)
Fixpoint hex_run (n : nat) (s : string) : option string :=
  match n with
  | O => Some s
  | S k =>
      match s with
      | String c s' => if is_lower_hex c then hex_run k s' else None
      | EmptyString => None
      end
  end.

Definition after_dot (s : option string) : option string :=
  match s with
  | Some (String "." r) => Some r
  | _ => None
  end.

(** [re.match(r"[0-9a-f]{4}\.[0-9a-f]{4}\.[0-9a-f]{4}", s)]: a match at the
    start of [s], whatever follows. *)
Definition matches_dotted_mac (s : string) : bool :=
  match after_dot (hex_run 4 s) with
  | Some r1 =>
      match after_dot (hex_run 4 r1) with
      | Some r2 => bool_decide (is_Some (hex_run 4 r2))
      | None => false
      end
  | None => false
  end.

(** The two assignments to [mac]. *)
Definition colon_form (field : string) : string :=
  join ":" (pairs_of (lower (remove_char "." field))).

(** What one line adds to [mac_to_if]: the pair (normalised second column,
    last column), or nothing. *)
Definition mac_to_if_row (line : string) : option (string * string) :=
  match split_ws line with
  | p0 :: p1 :: p2 :: rest =>
      if matches_dotted_mac (lower p1)
      then Some (colon_form p1, List.last rest p2)
      else None
  | _ => None
  end.

Definition mac_to_if_step (mac_to_if : gmap string string) (line : string)
  : gmap string string :=
  match mac_to_if_row line with
  | Some (m, i) => <[m := i]> mac_to_if
  | None => mac_to_if
  end.

Definition get_mac_to_interface (output : string) : gmap string string :=
  foldl mac_to_if_step ∅ (splitlines output).

(** *** get_interface_blocks *)

(** [line.strip().split()[1]], [None] when there is no second token. *)
Definition declared_name (line : string) : option string :=
  match split_ws (strip line) with
  | _ :: name :: _ => Some name
  | _ => None
  end.

(** The loop of [get_interface_blocks] from the state ([blocks],
    [current_int]) over the remaining lines. *)
Fixpoint scan_blocks (blocks : gmap string (list string))
    (current_int : option string) (lines : list string)
  : res (gmap string (list string)) :=
  match lines with
  | [] => Ok blocks
  | line :: rest =>
      if startswith "interface" line then
        match declared_name line with
        | Some name => scan_blocks (<[name := [line]]> blocks) (Some name) rest
        | None => Raise IndexError
        end
      else
        match current_int with
        | Some name =>
            if is_empty name then scan_blocks blocks current_int rest
            else if startswith "!" line then scan_blocks blocks None rest
            else
              match blocks !! name with
              | Some block =>
                  scan_blocks (<[name := block ++ [line]]> blocks) current_int rest
              | None => Raise KeyError
              end
        | None => scan_blocks blocks None rest
        end
  end.

Definition get_interface_blocks (show_run : string) : res (gmap string (list string)) :=
  scan_blocks ∅ None (splitlines show_run).

(** *** extract_config_profile *)

(** The dict [config]. *)
Record profile : Set := Profile {
  description : string;
  mode : string;
  access_vlan : option Z;
  voice_vlan : option Z;
  portfast : bool;
  poe : string;
  shutdown : bool
}.

Definition default_profile : profile :=
  Profile EmptyString "access" None None false "auto" false.

(** [line.partition(" ")[2]]: what follows the first space, nothing when there
    is no space. *)
Fixpoint after_first_space (s : string) : string :=
  match s with
  | EmptyString => EmptyString
  | String c s' => if Ascii.eqb c " " then s' else after_first_space s'
  end.

(** [int(line.split()[-1])] inside [try ... except Exception: pass]: [None]
    when either the index or the conversion raises. *)
Definition trailing_int (line : string) : option Z :=
  match split_ws line with
  | [] => None
  | t :: ts => int_of_str (List.last ts t)
  end.

(** One turn of [for line in int_lines]. *)
Definition profile_step (config : profile) (raw : string) : profile :=
  let line := strip raw in
  if startswith "description" line then
    Profile (after_first_space line) (mode config) (access_vlan config)
            (voice_vlan config) (portfast config) (poe config) (shutdown config)
  else if contains "switchport mode access" line then
    Profile (description config) "access" (access_vlan config)
            (voice_vlan config) (portfast config) (poe config) (shutdown config)
  else if contains "switchport mode trunk" line then
    Profile (description config) "trunk" (access_vlan config)
            (voice_vlan config) (portfast config) (poe config) (shutdown config)
  else if contains "switchport access vlan" line then
    match trailing_int line with
    | Some n =>
        Profile (description config) (mode config) (Some n)
                (voice_vlan config) (portfast config) (poe config) (shutdown config)
    | None => config
    end
  else if contains "switchport voice vlan" line then
    match trailing_int line with
    | Some n =>
        Profile (description config) (mode config) (access_vlan config)
                (Some n) (portfast config) (poe config) (shutdown config)
    | None => config
    end
  else if contains "spanning-tree portfast" line then
    Profile (description config) (mode config) (access_vlan config)
            (voice_vlan config) true (poe config) (shutdown config)
  else if contains "power inline never" line then
    Profile (description config) (mode config) (access_vlan config)
            (voice_vlan config) (portfast config) "never" (shutdown config)
  else if contains "power inline auto" line then
    Profile (description config) (mode config) (access_vlan config)
            (voice_vlan config) (portfast config) "auto" (shutdown config)
  else if String.eqb (strip line) "shutdown" then
    Profile (description config) (mode config) (access_vlan config)
            (voice_vlan config) (portfast config) (poe config) true
  else config.

Definition extract_config_profile (int_lines : list string) : profile :=
  foldl profile_step default_profile int_lines.

(** *** main *)

(** One row of the inventory with what the switch answers to
    [show mac address-table] and to [show run]. *)
Record switch_outputs : Set := SwitchOutputs {
  hostname : string;
  mac_table : string;
  running : string
}.

(** A value of [master_db]: the profile with the keys [switch] and
    [interface] added by [profile.update]. *)
Record db_profile : Set := DbProfile {
  config_of : profile;
  switch : string;
  port : string
}.

(** [interface_blocks.get(intf)] followed by [if config_lines]: a missing key
    and an empty list are both false. *)
Definition config_lines_of (interface_blocks : gmap string (list string))
    (intf : string) : option (list string) :=
  match interface_blocks !! intf with
  | Some (line :: lines) => Some (line :: lines)
  | _ => None
  end.

(** One turn of [for mac, intf in mac_to_if.items()]. *)
Definition db_step (host : string) (interface_blocks : gmap string (list string))
    (master_db : gmap string db_profile) (item : string * string)
  : gmap string db_profile :=
  match config_lines_of interface_blocks item.2 with
  | Some config_lines =>
      <[item.1 := DbProfile (extract_config_profile config_lines) host item.2]>
        master_db
  | None => master_db
  end.

(** The body of [for device in inventory]; [items] is the order in which the
    dict [mac_to_if] is iterated. *)
Definition add_switch (items : gmap string string → list (string * string))
    (master_db : gmap string db_profile) (device : switch_outputs)
  : res (gmap string db_profile) :=
  let mac_to_if := get_mac_to_interface (mac_table device) in
  match get_interface_blocks (running device) with
  | Raise e => Raise e
  | Ok interface_blocks =>
      Ok (foldl (db_step (hostname device) interface_blocks) master_db
                (items mac_to_if))
  end.

(** [main] up to [json.dump]: the [master_db] that is written, or the
    exception that escapes before anything is written. *)
Fixpoint build_master_db (items : gmap string string → list (string * string))
    (master_db : gmap string db_profile) (inventory : list switch_outputs)
  : res (gmap string db_profile) :=
  match inventory with
  | [] => Ok master_db
  | device :: inventory' =>
      match add_switch items master_db device with
      | Raise e => Raise e
      | Ok master_db' => build_master_db items master_db' inventory'
      end
  end.

Definition main (items : gmap string string → list (string * string))
    (inventory : list switch_outputs) : res (gmap string db_profile) :=
  build_master_db items ∅ inventory.

End ProfileDb.

(** ** config_collector.py *)

Module Collector.
Import PyStr.

(** One row of [mac_entries]: a dict with the keys [vlan], [mac],
    [interface], [vlan_name]. *)
Record row : Set := Row {
  vlan : string;
  mac : string;
  interface : string;
  vlan_name : string
}.

(** [str.isdigit] on one character of U+0000..U+00FF: 0..9 and the
    superscripts two, three and one. *)
Definition is_digit_char (c : ascii) : bool :=
  is_digit c || (code c =? 178)%N || (code c =? 179)%N || (code c =? 185)%N.

(** [s.isdigit()] *)
Definition isdigit (s : string) : bool :=
  negb (is_empty s) && forallb is_digit_char (list_ascii_of_string s).

(** [d[k] = v] on a dict, which keeps the order of insertion: a key that is
    present keeps its place. *)
Fixpoint dict_set (k v : string) (d : list (string * string))
  : list (string * string) :=
  match d with
  | [] => [(k, v)]
  | (k', v') :: d' =>
      if String.eqb k k' then (k, v) :: d' else (k', v') :: dict_set k v d'
  end.

(** [d.get(k, "")] *)
Fixpoint dict_get (k : string) (d : list (string * string)) : string :=
  match d with
  | [] => EmptyString
  | (k', v') :: d' => if String.eqb k k' then v' else dict_get k d'
  end.

(** One turn of the loop over the lines of [show vlan brief]. *)
Definition vlan_names_step (vlan_names : list (string * string)) (line : string)
  : list (string * string) :=
  match split_ws line with
  | p0 :: p1 :: _ => if isdigit p0 then dict_set p0 p1 vlan_names else vlan_names
  | _ => vlan_names
  end.

(** The state of the loop over the MAC table: [mac_entries] and
    [parsing_entries]. *)
Record table_state : Set := TableState {
  mac_entries : list row;
  parsing_entries : bool
}.

Definition table_step (vlan_names : list (string * string)) (st : table_state)
    (raw : string) : table_state :=
  let line := strip raw in
  if startswith "Vlan" line && contains "Mac Address" line then
    TableState (mac_entries st) true
  else if parsing_entries st && negb (is_empty line)
          && negb (startswith "----" line) then
    match split_ws line with
    | [p0; p1; _; p3] =>
        if isdigit p0
        then TableState
               (mac_entries st ++ [Row p0 (lower p1) p3 (dict_get p0 vlan_names)])
               true
        else st
    | _ => st
    end
  else st.

(** What [collect_mac_table] returns. *)
Record collected : Set := Collected {
  entries_of : list row;
  names_of : list (string * string);
  running_config_of : string;
  hostname_of : string
}.

(** The value of both [return [], {}, "", "UnknownSwitch"]. *)
Definition nothing_collected : collected :=
  Collected [] [] EmptyString "UnknownSwitch".

(** [collect_mac_table] as a function of the session: [None] when
    [ConnectHandler] raises, else the answer of the switch to each command.
    Every exception is caught by [except Exception] and gives
    [nothing_collected]; the one the parsing itself can raise is the
    [IndexError] of [.split()[-1]] on an empty hostname answer. *)
Definition collect_mac_table (connect : option (string → string)) : collected :=
  match connect with
  | None => nothing_collected
  | Some send_command =>
      let mac_output := send_command "show mac address-table" in
      if is_empty (strip mac_output) then nothing_collected
      else
        let vlan_output := send_command "show vlan brief" in
        let running_config_output := send_command "show running-config" in
        match split_ws (send_command "show running-config | include hostname") with
        | [] => nothing_collected
        | t :: ts =>
            let vlan_names := foldl vlan_names_step [] (splitlines vlan_output) in
            let st :=
              foldl (table_step vlan_names) (TableState [] false)
                    (splitlines mac_output) in
            Collected (mac_entries st) vlan_names running_config_output
                      (List.last ts t)
        end
  end.

Definition newline : string := String LF EmptyString.

(** [f"{entry['vlan']},{entry['mac']},{entry['interface']},{entry['vlan_name']}\n"] *)
Definition row_line (e : row) : string :=
  vlan e +:+ "," +:+ mac e +:+ "," +:+ interface e +:+ "," +:+ vlan_name e
    +:+ newline.

(** [f"{vlan_id},{vlan_name}\n"] *)
Definition name_line (item : string * string) : string :=
  item.1 +:+ "," +:+ item.2 +:+ newline.

Fixpoint concat_strings (pieces : list string) : string :=
  match pieces with
  | [] => EmptyString
  | p :: ps => p +:+ concat_strings ps
  end.

(** [save_to_single_file]: the text written to the output file. *)
Definition save_to_single_file (mac_entries : list row)
    (vlan_names : list (string * string)) (running_config : string) : string :=
  "=== MAC_ADDRESS_TABLE ===" +:+ newline
  +:+ match mac_entries with
      | [] => "No MAC addresses found on the switch." +:+ newline
      | _ :: _ => concat_strings (row_line <$> mac_entries)
      end
  +:+ newline +:+ "=== VLAN_NAMES ===" +:+ newline
  +:+ concat_strings (name_line <$> vlan_names)
  +:+ newline +:+ "=== RUNNING_CONFIG ===" +:+ newline
  +:+ running_config.

(** The end of the script: the file is written when [running_config] is not
    empty; [None] stands for "Failed to collect data." *)
Definition collected_file (connect : option (string → string)) : option string :=
  let c := collect_mac_table connect in
  if is_empty (running_config_of c) then None
  else Some (save_to_single_file (entries_of c) (names_of c) (running_config_of c)).

End Collector.
(** ** Notions used to state the properties *)

Module Props.
Import PyStr Deploy.

(** The order of the sort keys. *)
Definition key_le (x y : Z * string) : Prop := (x.1 ≤ y.1)%Z.

(** [v] read as an integer is [k]. *)
Definition has_int (v : string) (k : Z) : Prop := int_of_str v = Some k.

(** The record [e] passes every gate of the assignment loop in front of the
    test on [processed_interfaces], and its address leads to [i]. *)
Definition eligible (new_switch_mac_map : gmap string string)
    (interface_modes : gmap string (option string)) (exclude_vlans : gset string)
    (e : entry) (i : string) : Prop :=
  vlan e ≠ "" ∧ mac e ≠ "" ∧ (vlan e ∉ exclude_vlans) ∧
  lookup_interface new_switch_mac_map (mac e) = Some i ∧
  mode_of interface_modes i = Some "static access".

(** No comma in [s]. *)
Definition comma_free (s : string) : bool :=
  forallb (λ c, negb (Ascii.eqb c ",")) (list_ascii_of_string s).

(** No whitespace in [s]. *)
Definition blank_free (s : string) : bool :=
  forallb (λ c, negb (is_space c)) (list_ascii_of_string s).

(** The record the deployment parser reads for a row written by the
    collector. *)
Definition to_entry (r : Collector.row) : entry :=
  Entry (Collector.vlan r) (Collector.mac r) (Collector.interface r)
        (Collector.vlan_name r).

(** While a block is open, its name is non-empty and has an entry. *)
Definition open_block_ok (blocks : gmap string (list string))
    (current_int : option string) : Prop :=
  ∀ name, current_int = Some name → name ≠ "" ∧ is_Some (blocks !! name).

(** Each block is a declaration line of its name followed by the lines that
    came next in the text, none of which ends or opens a block; the open
    block reaches the last line read. *)
Definition blocks_ok (seen : list string) (blocks : gmap string (list string))
    (current_int : option string) : Prop :=
  ∀ name block, blocks !! name = Some block →
    ∃ pre decl body post,
      seen = pre ++ decl :: body ++ post ∧ block = decl :: body ∧
      startswith "interface" decl = true ∧
      ProfileDb.declared_name decl = Some name ∧
      Forall (λ l, startswith "interface" l = false ∧ startswith "!" l = false)
             body ∧
      (current_int = Some name → post = []).

(** What every collected row satisfies: its columns are tokens of the MAC
    table, the first one a number, the address in lower case, and the name is
    the catalog's. *)
Definition row_ok (names : list (string * string)) (r : Collector.row) : Prop :=
  Collector.isdigit (Collector.vlan r) = true ∧
  lower (Collector.mac r) = Collector.mac r ∧
  blank_free (Collector.vlan r) = true ∧
  blank_free (Collector.mac r) = true ∧
  blank_free (Collector.interface r) = true ∧
  Collector.interface r ≠ "" ∧ Collector.mac r ≠ "" ∧
  Collector.vlan_name r = Collector.dict_get (Collector.vlan r) names.

(** A string that can be a CSV field: no blank and no comma. *)
Definition field (s : string) : bool := blank_free s && comma_free s.

(** A row that the file format can carry. *)
Definition row_writable (r : Collector.row) : Prop :=
  Collector.isdigit (Collector.vlan r) = true ∧
  lower (Collector.mac r) = Collector.mac r ∧
  field (Collector.vlan r) = true ∧ field (Collector.mac r) = true ∧
  field (Collector.interface r) = true ∧ field (Collector.vlan_name r) = true.

(** A catalog item that the file format can carry. *)
Definition name_writable (item : string * string) : Prop :=
  Collector.isdigit item.1 = true ∧ field item.1 = true ∧ field item.2 = true.

(** The text of a row and of a catalog item without the end of line. *)
Definition row_text (r : Collector.row) : string :=
  Collector.vlan r +:+ "," +:+ Collector.mac r +:+ "," +:+ Collector.interface r
    +:+ "," +:+ Collector.vlan_name r.

Definition name_text (item : string * string) : string :=
  item.1 +:+ "," +:+ item.2.

(** No line end in [s]. *)
Definition one_line (s : string) : bool :=
  forallb (λ c, negb (Ascii.eqb c LF || Ascii.eqb c CR)) (list_ascii_of_string s).

End Props.

(** ** Sample inputs *)

Module Sample.
Import PyStr Deploy.

Definition text (lines : list string) : string :=
  join (String LF EmptyString) lines.

(** A collector file in the layout of the docstring of
    [parse_config_collector_output]; VLAN 1200 has no name in the catalog and
    two records sit behind the port Gi0/2 of the new switch. *)
Definition legacy_csv : string := text [
  "=== MAC_ADDRESS_TABLE ===";
  "1100,0050.7966.6802,Gi0/1,DATA";
  "1200,0050.7966.6803,Gi0/2,VOICE";
  "1300,0050.7966.6804,Gi0/3,WIRELESS";
  "1400,0050.7966.6805,Gi1/0,DMZ";
  "1200,0050.7966.6806,Gi1/1,VOICE";
  "";
  "=== VLAN_NAMES ===";
  "1,default";
  "1100,DATA";
  "1300,WIRELESS";
  "1400,DMZ";
  "";
  "=== RUNNING_CONFIG ===";
  "hostname old-switch"].

Definition switch_mac_table : string := text [
  "          Mac Address Table";
  "-------------------------------------------";
  "";
  "Vlan    Mac Address       Type        Ports";
  "----    -----------       --------    -----";
  "   1    0050.7966.6802    DYNAMIC     Gi0/2";
  "   1    0050.7966.6803    DYNAMIC     Gi0/3";
  "   1    0050.7966.6804    DYNAMIC     Gi1/0";
  "   1    0050.7966.6805    DYNAMIC     Gi0/1";
  "   1    0050.7966.6806    DYNAMIC     Gi0/2"].

(** Gi0/3 is a trunk and the mode of Gi1/1 is never reported. *)
Definition switchport_report : string := text [
  "Name: Gi0/1";
  "Switchport: Enabled";
  "Operational Mode: static access";
  "Name: Gi0/2";
  "Switchport: Enabled";
  "Operational Mode: static access";
  "Name: Gi0/3";
  "Administrative Mode: trunk";
  "Operational Mode: trunk";
  "Name: Gi1/0";
  "Operational Mode: static access";
  "Name: Gi1/1"].

Definition entries : list entry := (parse_config_collector_output legacy_csv).1.
Definition names : gmap string string := (parse_config_collector_output legacy_csv).2.
Definition index : gmap string string := parse_new_switch_mac_table switch_mac_table.
Definition modes : gmap string (option string) := get_interface_modes switchport_report.
Definition existing : gset string := {["1"; "1300"]}.
Definition exclude : gset string := {["1400"]}.

Definition plan : list string := [
  "vlan 1100"; " name DATA"; "vlan 1200"; " name VLAN_1200";
  "interface Gi0/2"; " switchport access vlan 1100";
  "interface Gi1/0"; " switchport access vlan 1300"].

Definition diagnostics : list string :=
  ["Skipping interface Gi0/3 (mode: trunk) - not a static access port."].

(** The same address on two ports. *)
Definition moved_station_table : string := text [
  "   1    0050.7966.6802    DYNAMIC     Gi0/2";
  "   1    0050.7966.6802    DYNAMIC     Gi0/3"].


(** A collector file whose first column is no number. *)
Definition unvalidated_csv : string := text [
  "=== MAC_ADDRESS_TABLE ===";
  "voice,0050.7966.6802,Gi0/1,DATA"].

(** ['1' * n]: an id of [n] digits. *)
Definition ones (n : nat) : string := string_of_list_ascii (replicate n "1"%char).


(** A configuration with a comment line inside a block, a block closed by
    the next declaration and a block open at the end of the text. *)
Definition show_run : string := text [
  "hostname old-switch";
  "!";
  "interface Gi0/1";
  " description uplink";
  "! moved from Gi0/7";
  " switchport access vlan 1100";
  "!";
  "interface Gi0/2";
  " shutdown";
  "interface Gi0/3";
  " switchport mode trunk"].

End Sample.

(** ** Sample sessions *)

Module Session.
Import PyStr Deploy.

(** The answer of the new switch to [show vlan brief]. *)
Definition vlan_brief : string := Sample.text [
  "VLAN Name                             Status    Ports";
  "---- -------------------------------- --------- -------------------------";
  "1    default                          active    Gi0/1, Gi0/2";
  "1300 WIRELESS                         active"].

(** The new switch: what it answers to each command. *)
Definition new_switch (command : string) : string :=
  if decide (command = "show vlan brief") then vlan_brief
  else if decide (command = "show mac address") then Sample.switch_mac_table
  else if decide (command = "show interfaces switchport")
       then Sample.switchport_report
  else "".

(** A switch that lists a VLAN id of 4301 digits. *)
Definition overlong_switch (command : string) : string :=
  if decide (command = "show vlan brief")
  then Sample.ones 4301 +:+ " BIG active"
  else new_switch command.

(** The run of the deployment script on the sample file, VLAN 1400 excluded,
    the operator answering " Yes ". *)
Definition sent : list string := Sample.plan ++ ["end"; "write memory"].

Definition trace : list event :=
  read_commands ++ [Configured sent; Disconnected].

(** The old switch, as the collector and the profile extractor see it. *)
Definition old_vlan_brief : string := Sample.text [
  "VLAN Name                             Status    Ports";
  "---- -------------------------------- --------- -------------------------";
  "1    default                          active    Gi0/3";
  "1100 DATA                             active    Gi0/1";
  "1200 VOICE                            active    Gi0/2"].

Definition old_mac_table : string := Sample.text [
  "          Mac Address Table";
  "-------------------------------------------";
  "";
  "Vlan    Mac Address       Type        Ports";
  "----    -----------       --------    -----";
  "1100    0050.7966.68AB    DYNAMIC     Gi0/1";
  "1200    0050.7966.6803    DYNAMIC     Gi0/2";
  "  20    0050.7966.6804    DYNAMIC     Gi0/3";
  "Total Mac Addresses for this criterion: 3"].

Definition old_switch (command : string) : string :=
  if decide (command = "show mac address-table") then old_mac_table
  else if decide (command = "show vlan brief") then old_vlan_brief
  else if decide (command = "show running-config") then Sample.show_run
  else if decide (command = "show running-config | include hostname")
       then "hostname old-switch"
  else "".

(** A switch whose MAC table comes without its header line. *)
Definition headerless_switch (command : string) : string :=
  if decide (command = "show mac address-table") then Sample.moved_station_table
  else old_switch command.

(** What the collector gathers from the old switch, and the file it writes. *)
Definition rows : list Collector.row := [
  Collector.Row "1100" "0050.7966.68ab" "Gi0/1" "DATA";
  Collector.Row "1200" "0050.7966.6803" "Gi0/2" "VOICE";
  Collector.Row "20" "0050.7966.6804" "Gi0/3" ""].

Definition catalog : list (string * string) :=
  [("1", "default"); ("1100", "DATA"); ("1200", "VOICE")].

Definition saved : string :=
  Collector.save_to_single_file rows catalog Sample.show_run.

(** The old switch as an item of the inventory of the profile extractor. *)
Definition legacy_device : ProfileDb.switch_outputs :=
  ProfileDb.SwitchOutputs "old-switch" old_mac_table Sample.show_run.

Definition legacy_blocks : gmap string (list string) :=
  list_to_map [
    ("Gi0/1", ["interface Gi0/1"; " description uplink"]);
    ("Gi0/2", ["interface Gi0/2"; " shutdown"]);
    ("Gi0/3", ["interface Gi0/3"; " switchport mode trunk"])].

Definition legacy_db : gmap string ProfileDb.db_profile :=
  foldl (ProfileDb.db_step "old-switch" legacy_blocks) ∅
        (map_to_list (ProfileDb.get_mac_to_interface old_mac_table)).

End Session.

Import PyStr Deploy ProfileDb Props.

(** ** The primitives and the parsers on examples *)

Example split_ws_table_row :
  split_ws "   1    0050.7966.6802    DYNAMIC     Gi0/2  "
  = ["1"; "0050.7966.6802"; "DYNAMIC"; "Gi0/2"].
Proof. by vm_compute. Qed.

Example split_char_keeps_empty_pieces :
  split_char "," "1100,,Gi0/1," = ["1100"; EmptyString; "Gi0/1"; EmptyString].
Proof. by vm_compute. Qed.

Example split_str_mode_line :
  split_str "Operational Mode:" "Operational Mode: static access"
  = [EmptyString; " static access"].
Proof. by vm_compute. Qed.

Example splitlines_boundaries :
  splitlines (Sample.text ["a"; EmptyString; "b" +:+ String CR EmptyString; "c"; EmptyString])
  = ["a"; EmptyString; "b"; "c"].
Proof. by vm_compute. Qed.

Example strip_keeps_inner_blanks : strip "  static  access  " = "static  access".
Proof. by vm_compute. Qed.

Example int_of_str_accepts :
  int_of_str "1100" = Some 1100%Z ∧ int_of_str "007" = Some 7%Z ∧
  int_of_str " 12 " = Some 12%Z ∧ int_of_str "+5" = Some 5%Z ∧
  int_of_str "-5" = Some (-5)%Z ∧ int_of_str "1_0" = Some 10%Z.
Proof. split_and!; by vm_compute. Qed.

Example int_of_str_rejects :
  int_of_str EmptyString = None ∧ int_of_str "voice" = None ∧
  int_of_str "1 0" = None ∧ int_of_str "1__0" = None ∧ int_of_str "10_" = None ∧
  int_of_str "0x10" = None ∧ int_of_str "1.5" = None.
Proof. split_and!; by vm_compute. Qed.

Example int_of_str_limit :
  is_Some (int_of_str (Sample.ones 4300)) ∧
  is_Some (int_of_str (" -" +:+ Sample.ones 4300 +:+ " ")) ∧
  int_of_str (Sample.ones 4301) = None ∧
  int_of_str ("0" +:+ Sample.ones 4300) = None.
Proof.
  split_and!; [| |by vm_compute..].
  - apply (bool_decide_unpack (is_Some (int_of_str (Sample.ones 4300)))).
    vm_compute. exact I.
  - apply (bool_decide_unpack
             (is_Some (int_of_str (" -" +:+ Sample.ones 4300 +:+ " ")))).
    vm_compute. exact I.
Qed.

Example colon_form_of_dotted : colon_form "0050.7966.68AB" = "00:50:79:66:68:ab".
Proof. by vm_compute. Qed.

Example parsed_entries :
  Sample.entries
  = [Entry "1100" "0050.7966.6802" "Gi0/1" "DATA";
     Entry "1200" "0050.7966.6803" "Gi0/2" "VOICE";
     Entry "1300" "0050.7966.6804" "Gi0/3" "WIRELESS";
     Entry "1400" "0050.7966.6805" "Gi1/0" "DMZ";
     Entry "1200" "0050.7966.6806" "Gi1/1" "VOICE"].
Proof. by vm_compute. Qed.

Example parsed_names :
  Sample.names
  = list_to_map [("1", "default"); ("1100", "DATA"); ("1300", "WIRELESS");
                 ("1400", "DMZ")].
Proof. by vm_compute. Qed.

Example parsed_index :
  Sample.index
  = list_to_map [("0050.7966.6802", "Gi0/2"); ("0050.7966.6803", "Gi0/3");
                 ("0050.7966.6804", "Gi1/0"); ("0050.7966.6805", "Gi0/1");
                 ("0050.7966.6806", "Gi0/2")].
Proof. by vm_compute. Qed.

(** An interface whose mode line never comes is listed with [None]. *)
Example parsed_modes :
  Sample.modes
  = list_to_map [("Gi0/1", Some "static access"); ("Gi0/2", Some "static access");
                 ("Gi0/3", Some "trunk"); ("Gi1/0", Some "static access");
                 ("Gi1/1", None)].
Proof. by vm_compute. Qed.

(** The worked example of the specification: one record of VLAN 1100 whose
    address is behind Gi0/2, a static access port; the VLAN is missing on the
    switch and is called DATA in the catalog. *)
Example one_record_plan :
  build_config_commands elements
    [Entry "1100" "0050.7966.6802" "Gi0/1" "DATA"]
    {["1100" := "DATA"]} ∅ {["0050.7966.6802" := "Gi0/2"]}
    {["Gi0/2" := Some "static access"]} ∅
  = Ok (["vlan 1100"; " name DATA"; "interface Gi0/2";
         " switchport access vlan 1100"], []).
Proof. by vm_compute. Qed.

(** The same with a trunk port: no interface command and one message. *)
Example one_record_trunk :
  build_config_commands elements
    [Entry "1100" "0050.7966.6802" "Gi0/1" "DATA"]
    {["1100" := "DATA"]} ∅ {["0050.7966.6802" := "Gi0/2"]}
    {["Gi0/2" := Some "trunk"]} ∅
  = Ok (["vlan 1100"; " name DATA"],
        ["Skipping interface Gi0/2 (mode: trunk) - not a static access port."]).
Proof. by vm_compute. Qed.

(** A port whose mode was never captured is skipped with the mode printed as
    [None]. *)
Example one_record_mode_missing :
  build_config_commands elements
    [Entry "1200" "0050.7966.6806" "Gi1/1" "VOICE"]
    Sample.names Sample.existing {["0050.7966.6806" := "Gi1/1"]} Sample.modes ∅
  = Ok (["vlan 1200"; " name VLAN_1200"],
        ["Skipping interface Gi1/1 (mode: None) - not a static access port."]).
Proof. by vm_compute. Qed.

(** ** Facts on strings *)

Lemma append_inj_r (p a b : string) : p +:+ a = p +:+ b → a = b.
Proof.
  induction p as [|c p IH]; simpl; intros H; [done|].
  apply IH. by inversion H.
Qed.

Lemma digit_not_space c : is_digit c = true → is_space c = false.
Proof.
  destruct c as [[] [] [] [] [] [] [] []]; vm_compute; congruence.
Qed.

Lemma all_digits_cons c s :
  all_digits (String c s) = true ↔ is_digit c = true ∧ all_digits s = true.
Proof. unfold all_digits. simpl. by rewrite andb_true_iff. Qed.

Lemma rstrip_all_digits s : all_digits s = true → rstrip s = s.
Proof.
  induction s as [|c s IH]; [done|].
  rewrite all_digits_cons. intros [Hc Hs]. simpl.
  rewrite (digit_not_space c Hc), (IH Hs). done.
Qed.

Lemma strip_all_digits s : all_digits s = true → strip s = s.
Proof.
  intros H. unfold strip.
  destruct s as [|c s]; [done|].
  pose proof H as H'. apply all_digits_cons in H' as [Hc _].
  simpl lstrip. rewrite (digit_not_space c Hc).
  by apply rstrip_all_digits.
Qed.

Lemma int_digits_all_digits s acc b :
  all_digits s = true → s ≠ "" ∨ b = true → is_Some (int_digits acc b s).
Proof.
  revert acc b. induction s as [|c s IH]; intros acc b Hs Hne.
  - destruct Hne as [?| ->]; [done|]. simpl. eauto.
  - apply all_digits_cons in Hs as [Hc Hs]. simpl. rewrite Hc.
    apply IH; auto.
Qed.

Lemma digit_count_all_digits s :
  all_digits s = true → digit_count s = String.length s.
Proof.
  induction s as [|c s IH]; [done|]. rewrite all_digits_cons. intros [Hc Hs].
  simpl. by rewrite Hc, IH.
Qed.

(** [int] accepts a non-empty string of decimal digits exactly when it has no
    more digits than the limit. *)
Lemma int_of_str_all_digits s :
  all_digits s = true → s ≠ "" →
  is_Some (int_of_str s) ↔ (String.length s ≤ int_max_str_digits)%nat.
Proof.
  intros Hs Hne. unfold int_of_str.
  rewrite (strip_all_digits s Hs), (digit_count_all_digits s Hs).
  destruct (Nat.ltb_spec int_max_str_digits (String.length s)) as [Hlong|Hshort].
  { split; [by intros [? ?]|lia]. }
  split; [done|]. intros _.
  pose proof (int_digits_all_digits s 0 false Hs (or_introl Hne)) as Hd.
  destruct s as [|c r]; [done|].
  apply all_digits_cons in Hs as [Hc _].
  destruct c as [[] [] [] [] [] [] [] []]; try (vm_compute in Hc; congruence);
    exact Hd.
Qed.

(** ** The stable sort on integer keys *)

Lemma insert_by_key_perm x l : insert_by_key x l ≡ₚ x :: l.
Proof.
  induction l as [|y l IH]; simpl; [done|].
  case_match; [done|]. rewrite IH. apply Permutation_swap.
Qed.

Lemma sort_by_key_perm l : sort_by_key l ≡ₚ l.
Proof.
  induction l as [|x l IH]; simpl; [done|].
  by rewrite insert_by_key_perm, IH.
Qed.

Lemma insert_by_key_sorted x l :
  StronglySorted key_le l → StronglySorted key_le (insert_by_key x l).
Proof.
  induction 1 as [|y l Hl IH Hy]; simpl.
  - repeat constructor.
  - destruct (Z.leb_spec x.1 y.1) as [Hle|Hgt].
    + constructor; [by constructor|].
      constructor; [done|].
      eapply Forall_impl; [exact Hy|]. unfold key_le. intros; lia.
    + constructor; [done|].
      rewrite insert_by_key_perm. constructor; [|done]. unfold key_le. lia.
Qed.

Lemma sort_by_key_sorted l : StronglySorted key_le (sort_by_key l).
Proof.
  induction l as [|x l IH]; simpl; [constructor|].
  by apply insert_by_key_sorted.
Qed.

(** The sort is stable: the elements of one key keep their order. *)
Lemma insert_by_key_filter k x l :
  filter (λ y, y.1 = k) (insert_by_key x l) = filter (λ y, y.1 = k) (x :: l).
Proof.
  induction l as [|y l IH]; simpl; [done|].
  destruct (Z.leb_spec x.1 y.1) as [Hle|Hgt]; [done|].
  rewrite !filter_cons in *. rewrite IH.
  repeat case_decide; try done. lia.
Qed.

Lemma sort_by_key_stable k l :
  filter (λ y, y.1 = k) (sort_by_key l) = filter (λ y, y.1 = k) l.
Proof.
  induction l as [|x l IH]; simpl; [done|].
  rewrite insert_by_key_filter, !filter_cons, IH. done.
Qed.

Lemma with_int_key_Some v kv :
  with_int_key v = Some kv ↔ has_int v kv.1 ∧ kv.2 = v.
Proof.
  unfold with_int_key, has_int. destruct kv as [k' v']. simpl.
  destruct (int_of_str v) as [k|]; simpl; split.
  - by intros [= <- <-].
  - by intros [[= ->] ->].
  - done.
  - by intros [? _].
Qed.

Lemma keyed_fst_snd (keyed : list (Z * string)) :
  Forall (λ kv, has_int kv.2 kv.1) keyed → Forall2 has_int (keyed.*2) (keyed.*1).
Proof. induction 1; csimpl; constructor; auto. Qed.

(** What [sorted] returns: the same strings, in the order of their keys. *)
Lemma sorted_by_int_Ok l vs :
  sorted_by_int l = Ok vs →
  vs ≡ₚ l ∧ ∃ keys, Forall2 has_int vs keys ∧ StronglySorted Z.le keys.
Proof.
  unfold sorted_by_int. destruct (mapM with_int_key l) as [keyed|] eqn:Hm; [|done].
  intros [= <-]. apply mapM_Some in Hm.
  assert (keyed.*2 = l ∧ Forall (λ kv, has_int kv.2 kv.1) keyed) as [H2 Hk].
  { induction Hm as [|v kv l keyed Hv _ [IH1 IH2]]; [done|].
    apply with_int_key_Some in Hv as [Hv1 Hv2]. csimpl. split; [congruence|].
    constructor; [by rewrite Hv2|done]. }
  split.
  - rewrite <-H2. apply fmap_Permutation, sort_by_key_perm.
  - exists ((sort_by_key keyed).*1). split.
    + apply keyed_fst_snd. by rewrite sort_by_key_perm.
    + apply (StronglySorted_fmap fst key_le Z.le); [done|].
      apply sort_by_key_sorted.
Qed.

(** [sorted] raises only on a string that [int] rejects. *)
Lemma sorted_by_int_total l :
  Forall (λ v, is_Some (int_of_str v)) l → ∃ vs, sorted_by_int l = Ok vs.
Proof.
  intros Hl. unfold sorted_by_int.
  destruct (mapM with_int_key l) as [keyed|] eqn:Hm; [eauto|].
  exfalso. apply eq_None_not_Some in Hm. apply Hm, mapM_is_Some.
  eapply Forall_impl; [exact Hl|]. intros v [k Hk]. simpl.
  unfold with_int_key. rewrite Hk. eauto.
Qed.

Lemma sorted_by_int_nil : sorted_by_int [] = Ok [].
Proof. done. Qed.

(** A member that [int] refuses makes the sort raise. *)
Lemma sorted_by_int_raises l v :
  v ∈ l → int_of_str v = None → sorted_by_int l = Raise ValueError.
Proof.
  intros Hv Hnone. unfold sorted_by_int.
  destruct (mapM with_int_key l) as [keyed|] eqn:Hm; [|done].
  exfalso. apply mapM_Some in Hm.
  assert (∃ kv, with_int_key v = Some kv) as [kv Hkv].
  { clear -Hv Hm. induction Hm as [|x kv l keyed Hx _ IH]; [by inv Hv|].
    apply elem_of_cons in Hv as [->|Hv]; eauto. }
  unfold with_int_key in Hkv. by rewrite Hnone in Hkv.
Qed.

(** Keys of distinct strings that denote distinct integers are strictly
    ascending once sorted. *)
Lemma keys_strictly_sorted (vs : list string) keys :
  Forall2 has_int vs keys → NoDup vs →
  (∀ v w k, v ∈ vs → w ∈ vs → has_int v k → has_int w k → v = w) →
  StronglySorted Z.le keys → StronglySorted Z.lt keys.
Proof.
  intros HF. induction HF as [|v k vs keys Hvk HF IH]; intros Hnd Hinj Hs.
  { constructor. }
  apply NoDup_cons in Hnd as [Hv Hnd].
  apply StronglySorted_cons in Hs as [Hk Hs].
  constructor.
  - apply IH; [done| |done]. intros; eapply Hinj; eauto; by right.
  - apply Forall_forall. intros k' Hk'.
    assert (k ≤ k')%Z as Hle by (by eapply Forall_forall in Hk).
    destruct (decide (k = k')) as [<-|]; [|lia].
    exfalso. apply Hv.
    assert (∃ w, w ∈ vs ∧ has_int w k) as (w & Hw & Hwk).
    { clear -HF Hk'. induction HF as [|w k0 ws ks Hw _ IH']; [by inv Hk'|].
      apply elem_of_cons in Hk' as [->|Hk'].
      - exists w. split; [by left|done].
      - destruct (IH' Hk') as (w' & ? & ?). exists w'. split; [by right|done]. }
    rewrite (Hinj v w k); [done|by left|by right|done|done].
Qed.

(** ** The loops of [build_config_commands] *)

Section Builder.
Context (vlan_names : gmap string string) (existing_vlans : gset string).
Context (new_switch_mac_map : gmap string string).
Context (interface_modes : gmap string (option string)).
Context (exclude_vlans : gset string).

Local Abbreviation step := (assign_step new_switch_mac_map interface_modes exclude_vlans).
Local Abbreviation pass := (assignment_pass new_switch_mac_map interface_modes exclude_vlans).
Local Abbreviation fit := (eligible new_switch_mac_map interface_modes exclude_vlans).

(** *** First loop *)

Lemma elem_of_creation_fold entries acc v :
  v ∈ foldl (creation_step existing_vlans exclude_vlans) acc entries ↔
  v ∈ acc ∨ (v ≠ "" ∧ (v ∉ exclude_vlans) ∧ (v ∉ existing_vlans) ∧
             ∃ e, e ∈ entries ∧ vlan e = v).
Proof.
  revert acc. induction entries as [|e entries IH]; intros acc; simpl.
  { split; [auto|]. intros [?|(_ & _ & _ & e & He & _)]; [done|by inv He]. }
  rewrite IH. unfold creation_step. setoid_rewrite elem_of_cons.
  repeat case_decide; set_solver.
Qed.

Lemma elem_of_vlans_to_create entries v :
  v ∈ vlans_to_create entries existing_vlans exclude_vlans ↔
  v ≠ "" ∧ (v ∉ exclude_vlans) ∧ (v ∉ existing_vlans) ∧
  ∃ e, e ∈ entries ∧ vlan e = v.
Proof.
  unfold vlans_to_create. rewrite elem_of_creation_fold. set_solver.
Qed.

(** *** Third loop *)

(** The three things one turn can do. *)
Lemma step_cases st e :
  step st e = st ∨
  (∃ msg, step st e =
     PassState (commands st) (processed_interfaces st) (printed st ++ [msg])) ∨
  (∃ i, fit e i ∧ (i ∉ processed_interfaces st) ∧
     step st e =
       PassState (commands st ++ ["interface " +:+ i;
                                  " switchport access vlan " +:+ vlan e])
                 ({[i]} ∪ processed_interfaces st) (printed st)).
Proof.
  unfold assign_step. case_decide as Hg; [by left|].
  destruct (lookup_interface _ _) as [i|] eqn:Hi; [|right; left; eauto].
  simpl. case_decide as Hm; [|right; left; eauto].
  case_decide as Hp; [by left|].
  right; right. exists i. split; [|done].
  unfold eligible. split_and!; auto.
Qed.

Lemma pass_cons st e l : pass st (e :: l) = pass (step st e) l.
Proof. done. Qed.

Lemma pass_app st l1 l2 : pass st (l1 ++ l2) = pass (pass st l1) l2.
Proof. apply foldl_app. Qed.

Lemma step_processed st e i :
  i ∈ processed_interfaces (step st e) ↔
  i ∈ processed_interfaces st ∨ fit e i.
Proof.
  unfold assign_step, eligible. case_decide as Hg.
  { split; [auto|]. intros [?|(? & ? & ? & _)]; [done|]. exfalso. tauto. }
  destruct (lookup_interface _ _) as [j|] eqn:Hj; simpl.
  - case_decide as Hm; [case_decide as Hp|]; simpl.
    + split; [auto|]. intros [?|(_ & _ & _ & [= <-] & _)]; done.
    + rewrite elem_of_union, elem_of_singleton. split.
      * intros [->|?]; [right|by left]. split_and!; auto.
      * intros [?|(_ & _ & _ & [= <-] & _)]; auto.
    + split; [auto|]. intros [?|(_ & _ & _ & [= <-] & ?)]; done.
  - split; [auto|]. intros [?|(_ & _ & _ & ? & _)]; done.
Qed.

Lemma pass_processed l st i :
  i ∈ processed_interfaces (pass st l) ↔
  i ∈ processed_interfaces st ∨ ∃ e, e ∈ l ∧ fit e i.
Proof.
  revert st. induction l as [|e l IH]; intros st.
  { simpl. split; [auto|]. intros [?|(e & He & _)]; [done|by inv He]. }
  rewrite pass_cons, IH, step_processed. setoid_rewrite elem_of_cons.
  naive_solver.
Qed.

(** Every interface in [processed_interfaces] is a static access port. *)
Lemma pass_processed_static l st :
  (∀ i, i ∈ processed_interfaces st →
        mode_of interface_modes i = Some "static access") →
  ∀ i, i ∈ processed_interfaces (pass st l) →
       mode_of interface_modes i = Some "static access".
Proof.
  intros Hst i. rewrite pass_processed.
  intros [?|(e & _ & He)]; [auto|]. apply He.
Qed.

(** A record whose address leads to an interface that is already in
    [processed_interfaces] changes nothing. *)
Lemma step_already_assigned st e i :
  (∀ j, j ∈ processed_interfaces st →
        mode_of interface_modes j = Some "static access") →
  lookup_interface new_switch_mac_map (mac e) = Some i →
  i ∈ processed_interfaces st →
  step st e = st.
Proof.
  intros Hst Hi Hp. unfold assign_step. case_decide; [done|].
  rewrite Hi. simpl. rewrite (Hst i Hp). by repeat case_decide.
Qed.

(** A record that passes the gates and meets a free interface appends its
    pair of commands. *)
Lemma step_assign st e i :
  fit e i → i ∉ processed_interfaces st →
  step st e =
    PassState (commands st ++ ["interface " +:+ i;
                               " switchport access vlan " +:+ vlan e])
              ({[i]} ∪ processed_interfaces st) (printed st).
Proof.
  intros (Hv & Hm & Hx & Hi & Hmode) Hp. unfold assign_step.
  case_decide as Hg; [exfalso; tauto|].
  rewrite Hi. simpl. rewrite Hmode. by repeat case_decide.
Qed.

(** The commands one run of the loop appends. *)
Lemma pass_commands l st :
  ∃ added,
    commands (pass st l) = commands st ++ added ∧
    ∀ c, c ∈ added →
      (∃ e i, e ∈ l ∧ fit e i ∧ (i ∉ processed_interfaces st) ∧
              c = "interface " +:+ i) ∨
      (∃ e i, e ∈ l ∧ fit e i ∧ c = " switchport access vlan " +:+ vlan e).
Proof.
  revert st. induction l as [|e l IH]; intros st.
  { exists []. split; [by rewrite app_nil_r|]. intros c Hc. by inv Hc. }
  rewrite pass_cons. destruct (IH (step st e)) as (added & Heq & Hadded).
  assert (∀ c, c ∈ added →
      (∃ e0 i, e0 ∈ e :: l ∧ fit e0 i ∧ (i ∉ processed_interfaces st) ∧
               c = "interface " +:+ i) ∨
      (∃ e0 i, e0 ∈ e :: l ∧ fit e0 i ∧
               c = " switchport access vlan " +:+ vlan e0)) as Hlift.
  { intros c Hc.
    destruct (Hadded c Hc) as [(e0 & i & ? & ? & Hn & ->)|(e0 & i & ? & ? & ->)].
    - left. exists e0, i. split_and!; [by right|done| |done].
      intros Hp. apply Hn, step_processed. by left.
    - right. exists e0, i. split_and!; [by right|done|done]. }
  destruct (step_cases st e) as [Hs|[[msg Hs]|(i & Hfit & Hn & Hs)]];
    rewrite Hs in Heq |- *; simpl in Heq.
  - by exists added.
  - by exists added.
  - exists (["interface " +:+ i; " switchport access vlan " +:+ vlan e] ++ added).
    split; [by rewrite Heq, <-(assoc_L (++))|].
    intros c. rewrite elem_of_app, !elem_of_cons.
    intros [[->|[->|Hc]]|Hc]; [| |by inv Hc|by apply Hlift].
    + left. exists e, i. split_and!; [by left|done..].
    + right. exists e, i. split_and!; [by left|done..].
Qed.

Lemma step_printed_mono st e x : x ∈ printed st → x ∈ printed (step st e).
Proof.
  intros Hx. destruct (step_cases st e) as [->|[[msg ->]|(i & _ & _ & ->)]];
    simpl; [done| |done].
  apply elem_of_app. by left.
Qed.

Lemma pass_printed_mono l st x : x ∈ printed st → x ∈ printed (pass st l).
Proof.
  revert st. induction l as [|e l IH]; intros st Hx; [done|].
  rewrite pass_cons. by apply IH, step_printed_mono.
Qed.

(** A record that reaches the test on the mode and fails it leaves its
    message. *)
Lemma pass_printed_skip l st e i :
  e ∈ l → vlan e ≠ "" → mac e ≠ "" → vlan e ∉ exclude_vlans →
  lookup_interface new_switch_mac_map (mac e) = Some i →
  mode_of interface_modes i ≠ Some "static access" →
  skip_message i (mode_of interface_modes i) ∈ printed (pass st l).
Proof.
  intros He Hv Hm Hx Hi Hmode. revert st.
  induction l as [|e0 l IH]; intros st; [by inv He|].
  rewrite pass_cons. apply elem_of_cons in He as [<-|He]; [|by apply IH].
  apply pass_printed_mono. unfold assign_step.
  case_decide as Hg; [exfalso; tauto|]. rewrite Hi. simpl.
  case_decide; [done|]. simpl. apply elem_of_app. right. by left.
Qed.

End Builder.

(** ** The shape of the commands *)

Lemma elem_of_creation_commands names vs c :
  c ∈ creation_commands names vs ↔
  ∃ v, v ∈ vs ∧ (c = "vlan " +:+ v ∨ c = " name " +:+ vlan_name_of names v).
Proof.
  unfold creation_commands. rewrite list_elem_of_bind. split.
  - intros (v & Hc & Hv). exists v. split; [done|].
    apply elem_of_cons in Hc as [->|Hc]; [by left|].
    apply elem_of_cons in Hc as [->|Hc]; [by right|by inv Hc].
  - intros (v & Hv & [-> | ->]); exists v; (split; [|done]).
    + by left.
    + right. by left.
Qed.

(** A command of the third loop is no VLAN creation command. *)
Lemma create_not_interface v i : "vlan " +:+ v ≠ "interface " +:+ i.
Proof. done. Qed.

Lemma create_not_switchport v w : "vlan " +:+ v ≠ " switchport access vlan " +:+ w.
Proof. done. Qed.

Lemma create_not_name v n : "vlan " +:+ v ≠ " name " +:+ n.
Proof. done. Qed.

Lemma name_not_interface n i : " name " +:+ n ≠ "interface " +:+ i.
Proof. done. Qed.

Lemma name_not_switchport n w : " name " +:+ n ≠ " switchport access vlan " +:+ w.
Proof. done. Qed.

Lemma interface_not_switchport i w :
  "interface " +:+ i ≠ " switchport access vlan " +:+ w.
Proof. done. Qed.

Lemma create_inj v w : "vlan " +:+ v = "vlan " +:+ w → v = w.
Proof. apply append_inj_r. Qed.

Lemma interface_inj i j : "interface " +:+ i = "interface " +:+ j → i = j.
Proof. apply append_inj_r. Qed.

Lemma switchport_inj v w :
  " switchport access vlan " +:+ v = " switchport access vlan " +:+ w → v = w.
Proof. apply append_inj_r. Qed.

(** ** Plans *)

Section Plans.
(** Any iteration order of a set lists its elements once each. *)
Context (set_iter : gset string → list string).
Context (set_iter_perm : ∀ s, set_iter s ≡ₚ elements s).

Lemma set_iter_empty : set_iter ∅ = [].
Proof.
  apply Permutation_nil_r. rewrite set_iter_perm. by rewrite elements_empty.
Qed.


Lemma NoDup_set_iter s : NoDup (set_iter s).
Proof. rewrite set_iter_perm. apply NoDup_elements. Qed.

(** What a returned plan is made of. *)
Lemma build_Ok_inv entries names existing map modes exclude cmds out :
  build_config_commands set_iter entries names existing map modes exclude
    = Ok (cmds, out) →
  ∃ vs keys added,
    vs ≡ₚ elements (vlans_to_create entries existing exclude) ∧
    Forall2 has_int vs keys ∧ StronglySorted Z.le keys ∧
    cmds = creation_commands names vs ++ added ∧
    (∀ c, c ∈ added →
       (∃ e i, e ∈ entries ∧ eligible map modes exclude e i ∧
               c = "interface " +:+ i) ∨
       (∃ e i, e ∈ entries ∧ eligible map modes exclude e i ∧
               c = " switchport access vlan " +:+ vlan e)) ∧
    out = printed (assignment_pass map modes exclude
                     (PassState (creation_commands names vs) ∅ []) entries).
Proof.
  unfold build_config_commands.
  destruct (sorted_by_int _) as [vs|] eqn:Hs; [|done].
  intros [= <- <-].
  apply sorted_by_int_Ok in Hs as (Hp & keys & Hk & Hsorted).
  destruct (pass_commands map modes exclude entries
              (PassState (creation_commands names vs) ∅ []))
    as (added & Heq & Hadded).
  exists vs, keys, added. split_and!; try done.
  - by rewrite Hp, set_iter_perm.
  - intros c Hc. destruct (Hadded c Hc) as [(e & i & ? & ? & _ & ->)|?];
      [left; eauto|by right].
Qed.

(** The creation commands of a plan are those of the pending set. *)
Lemma build_create_iff entries names existing map modes exclude cmds out v :
  build_config_commands set_iter entries names existing map modes exclude
    = Ok (cmds, out) →
  "vlan " +:+ v ∈ cmds ↔ v ∈ vlans_to_create entries existing exclude.
Proof.
  intros Hb. apply build_Ok_inv in Hb
    as (vs & keys & added & Hp & _ & _ & -> & Hadded & _).
  rewrite elem_of_app, elem_of_creation_commands. split.
  - intros [(w & Hw & [Hc|Hc])|Hc].
    + apply create_inj in Hc as ->. by rewrite Hp, elem_of_elements in Hw.
    + by apply create_not_name in Hc.
    + destruct (Hadded _ Hc) as [(e & i & _ & _ & Hc')|(e & i & _ & _ & Hc')].
      * by apply create_not_interface in Hc'.
      * by apply create_not_switchport in Hc'.
  - intros Hv. left. exists v. split; [|by left].
    by rewrite Hp, elem_of_elements.
Qed.


(** C4.  No command of a returned plan creates an excluded VLAN id or assigns
    a port to it: for every id [v] of the exclusion set (so for the id of
    every legacy record that is excluded), neither [vlan v] nor
    [switchport access vlan v] is in the command list. *)
Theorem C4_excluded_vlan_untouched
    entries names existing map modes exclude cmds out v :
  v ∈ exclude →
  build_config_commands set_iter entries names existing map modes exclude
    = Ok (cmds, out) →
  ("vlan " +:+ v ∉ cmds) ∧ (" switchport access vlan " +:+ v ∉ cmds).
Proof.
  intros Hv Hb. split.
  - rewrite (build_create_iff _ _ _ _ _ _ _ _ _ Hb), elem_of_vlans_to_create.
    tauto.
  - apply build_Ok_inv in Hb as (vs & keys & added & _ & _ & _ & -> & Hadded & _).
    rewrite elem_of_app, elem_of_creation_commands.
    intros [(w & _ & [Hc|Hc])|Hc].
    + symmetry in Hc. by apply create_not_switchport in Hc.
    + symmetry in Hc. by apply name_not_switchport in Hc.
    + destruct (Hadded _ Hc) as [(e & i & _ & _ & Hc')|(e & i & _ & He & Hc')].
      * symmetry in Hc'. by apply interface_not_switchport in Hc'.
      * apply switchport_inj in Hc' as ->. by destruct He as (_ & _ & ? & _).
Qed.

(** C5.  The pending-creation set holds exactly the (non-empty) VLAN ids of
    the legacy records that are neither excluded nor already on the switch;
    a returned plan never creates an id of the existing set, and its creation
    commands are those of a duplicate-free list of exactly the pending ids,
    however many records carry each id. *)
Theorem C5_pending_creation_set
    entries names existing map modes exclude cmds out :
  build_config_commands set_iter entries names existing map modes exclude
    = Ok (cmds, out) →
  (∀ v, v ∈ vlans_to_create entries existing exclude ↔
        v ≠ "" ∧ (v ∉ exclude) ∧ (v ∉ existing) ∧
        ∃ e, e ∈ entries ∧ vlan e = v) ∧
  (∀ v, v ∈ existing → "vlan " +:+ v ∉ cmds) ∧
  (∀ v, "vlan " +:+ v ∈ cmds ↔ v ∈ vlans_to_create entries existing exclude) ∧
  ∃ vs added,
    cmds = creation_commands names vs ++ added ∧ NoDup vs ∧
    (∀ v, v ∈ vs ↔ v ∈ vlans_to_create entries existing exclude) ∧
    (∀ v, "vlan " +:+ v ∉ added).
Proof.
  intros Hb. split_and!.
  - intros v. apply elem_of_vlans_to_create.
  - intros v Hv.
    rewrite (build_create_iff _ _ _ _ _ _ _ _ _ Hb), elem_of_vlans_to_create.
    tauto.
  - intros v. by apply build_create_iff with (v := v) in Hb.
  - apply build_Ok_inv in Hb as (vs & keys & added & Hp & _ & _ & -> & Hadded & _).
    exists vs, added. split_and!; [done| | |].
    + rewrite Hp. apply NoDup_elements.
    + intros v. by rewrite Hp, elem_of_elements.
    + intros v Hc.
      destruct (Hadded _ Hc) as [(e & i & _ & _ & Hc')|(e & i & _ & _ & Hc')].
      * by apply create_not_interface in Hc'.
      * by apply create_not_switchport in Hc'.
Qed.

(** C8.  When the existing-VLAN set of a second run is the first run's
    existing set together with the ids the first plan created, the second
    run's pending-creation set is empty, the second run returns a plan
    (whatever the catalog, index and port modes observed then), and that plan
    holds no creation command. *)
Theorem C8_second_run_creates_nothing
    entries names existing map modes exclude cmds out existing' names' map' modes' :
  build_config_commands set_iter entries names existing map modes exclude
    = Ok (cmds, out) →
  (∀ v, v ∈ existing' ↔ v ∈ existing ∨ "vlan " +:+ v ∈ cmds) →
  vlans_to_create entries existing' exclude = ∅ ∧
  ∃ cmds' out',
    build_config_commands set_iter entries names' existing' map' modes' exclude
      = Ok (cmds', out') ∧
    ∀ v n, ("vlan " +:+ v ∉ cmds') ∧ (" name " +:+ n ∉ cmds').
Proof.
  intros Hb Hex.
  assert (vlans_to_create entries existing' exclude = ∅) as Hempty.
  { apply elem_of_equiv_empty_L. intros v.
    rewrite elem_of_vlans_to_create. intros (Hne & Hx & Hn & He).
    apply Hn, Hex. right.
    rewrite (build_create_iff _ _ _ _ _ _ _ _ _ Hb), elem_of_vlans_to_create.
    split_and!; [done..| |done]. intros Hv. apply Hn, Hex. by left. }
  split; [done|].
  destruct (build_config_commands set_iter entries names' existing' map' modes'
              exclude) as [[cmds' out']|] eqn:Hb'.
  - exists cmds', out'. split; [done|]. intros v n.
    apply build_Ok_inv in Hb'
      as (vs & keys & added & Hp & _ & _ & -> & Hadded & _).
    rewrite Hempty, elements_empty in Hp. apply Permutation_nil_r in Hp as ->.
    simpl. split; intros Hc.
    + destruct (Hadded _ Hc) as [(e & i & _ & _ & Hc')|(e & i & _ & _ & Hc')].
      * by apply create_not_interface in Hc'.
      * by apply create_not_switchport in Hc'.
    + destruct (Hadded _ Hc) as [(e & i & _ & _ & Hc')|(e & i & _ & _ & Hc')].
      * by apply name_not_interface in Hc'.
      * by apply name_not_switchport in Hc'.
  - exfalso. revert Hb'. unfold build_config_commands.
    by rewrite Hempty, set_iter_empty, sorted_by_int_nil.
Qed.



(** C3, as amended.  An interface whose operational mode is not exactly
    "static access" (trunk, routed, unknown to the mode table, or listed
    without a mode) gets no [interface] command in a returned plan; and a
    record with a non-empty, non-excluded VLAN id and a non-empty address that
    leads to such an interface leaves the message "Skipping interface ..."
    among the printed lines. *)
Theorem C3_non_access_port_skipped
    entries names existing map modes exclude cmds out e i :
  build_config_commands set_iter entries names existing map modes exclude
    = Ok (cmds, out) →
  e ∈ entries →
  lookup_interface map (mac e) = Some i →
  mode_of modes i ≠ Some "static access" →
  ("interface " +:+ i ∉ cmds) ∧
  (vlan e ≠ "" → mac e ≠ "" → vlan e ∉ exclude →
   skip_message i (mode_of modes i) ∈ out).
Proof.
  intros Hb He Hi Hmode.
  apply build_Ok_inv in Hb as (vs & keys & added & _ & _ & _ & -> & Hadded & ->).
  split.
  - rewrite elem_of_app, elem_of_creation_commands.
    intros [(w & _ & [Hc|Hc])|Hc].
    + symmetry in Hc. by apply create_not_interface in Hc.
    + symmetry in Hc. by apply name_not_interface in Hc.
    + destruct (Hadded _ Hc) as [(e' & j & _ & Hf & Hc')|(e' & j & _ & _ & Hc')].
      * apply interface_inj in Hc' as ->. by destruct Hf as (_ & _ & _ & _ & ?).
      * by apply interface_not_switchport in Hc'.
  - intros Hv Hm Hx. by apply pass_printed_skip with (e := e).
Qed.

(** C6, as amended.  Let [e1] be the first record of the list that passes the
    gates of the assignment loop (non-empty VLAN id and address, VLAN not
    excluded, static access port) for the interface [i], and [e2] a later
    record whose address leads to [i] too.  Then the plan holds exactly one
    [interface i] command, followed by the assignment to the VLAN of [e1];
    and the turn of the loop on [e2] leaves the commands, the processed set
    and the printed lines as they were. *)
Theorem C6_first_assignment_wins
    entries names existing map modes exclude cmds out pre e1 mid e2 post i :
  build_config_commands set_iter entries names existing map modes exclude
    = Ok (cmds, out) →
  entries = pre ++ e1 :: mid ++ e2 :: post →
  eligible map modes exclude e1 i →
  (∀ e0, e0 ∈ pre → ¬ eligible map modes exclude e0 i) →
  lookup_interface map (mac e2) = Some i →
  (∃ before after,
     cmds = before ++ ["interface " +:+ i;
                       " switchport access vlan " +:+ vlan e1] ++ after ∧
     ("interface " +:+ i ∉ before) ∧ ("interface " +:+ i ∉ after)) ∧
  (∀ cmds0,
     assign_step map modes exclude
       (assignment_pass map modes exclude (PassState cmds0 ∅ [])
          (pre ++ e1 :: mid)) e2
     = assignment_pass map modes exclude (PassState cmds0 ∅ [])
         (pre ++ e1 :: mid)).
Proof.
  intros Hb -> Hfit Hfirst Hi2. split.
  - revert Hb. unfold build_config_commands.
    destruct (sorted_by_int _) as [vs|]; [|done]. intros [= <- _].
    rewrite pass_app, pass_cons.
    set (st0 := PassState (creation_commands names vs) ∅ []).
    destruct (pass_commands map modes exclude pre st0) as (added1 & Heq1 & Ha1).
    assert (i ∉ processed_interfaces (assignment_pass map modes exclude st0 pre))
      as Hfree.
    { rewrite pass_processed. intros [Hp|(e0 & He0 & Hf0)]; [by inv Hp|].
      by apply (Hfirst e0). }
    rewrite (step_assign _ _ _ _ _ _ Hfit Hfree).
    match goal with
    | |- context [assignment_pass _ _ _ ?s (mid ++ e2 :: post)] =>
        destruct (pass_commands map modes exclude (mid ++ e2 :: post) s)
          as (added3 & Heq3 & Ha3)
    end.
    exists (creation_commands names vs ++ added1), added3. split_and!.
    + rewrite Heq3. simpl. rewrite Heq1. simpl. by rewrite <-!(assoc_L (++)).
    + rewrite elem_of_app, elem_of_creation_commands.
      intros [(w & _ & [Hc|Hc])|Hc].
      * symmetry in Hc. by apply create_not_interface in Hc.
      * symmetry in Hc. by apply name_not_interface in Hc.
      * destruct (Ha1 _ Hc) as [(e0 & j & He0 & Hf0 & _ & Hc')|(e0 & j & _ & _ & Hc')].
        -- apply interface_inj in Hc' as ->. by apply (Hfirst e0).
        -- by apply interface_not_switchport in Hc'.
    + intros Hc.
      destruct (Ha3 _ Hc) as [(e0 & j & _ & _ & Hn & Hc')|(e0 & j & _ & _ & Hc')].
      * apply interface_inj in Hc' as ->. apply Hn. simpl. set_solver.
      * by apply interface_not_switchport in Hc'.
  - intros cmds0. apply step_already_assigned with (i := i); [|done|].
    + apply pass_processed_static. intros j Hj. by inv Hj.
    + apply pass_processed. right. exists e1. split; [|done].
      apply elem_of_app. right. by left.
Qed.

(** C7, as amended.  A returned plan is the creation commands of a list [vs]
    followed by commands of the assignment loop only.  [vs] lists the pending
    ids once each; every id of [vs] is followed by its name command, the name
    being the catalog's or else [VLAN_] and the id; the integers of the ids
    ascend along [vs], and they ascend strictly when no two pending ids denote
    the same integer. *)
Theorem C7_creation_in_numeric_order
    entries names existing map modes exclude cmds out :
  build_config_commands set_iter entries names existing map modes exclude
    = Ok (cmds, out) →
  ∃ vs keys assigns,
    cmds = (vs ≫= λ v, ["vlan " +:+ v;
                        " name " +:+ default ("VLAN_" +:+ v) (names !! v)])
           ++ assigns ∧
    NoDup vs ∧
    (∀ v, v ∈ vs ↔ v ∈ vlans_to_create entries existing exclude) ∧
    Forall2 (λ v k, int_of_str v = Some k) vs keys ∧
    StronglySorted Z.le keys ∧
    ((∀ v w k, v ∈ vlans_to_create entries existing exclude →
               w ∈ vlans_to_create entries existing exclude →
               int_of_str v = Some k → int_of_str w = Some k → v = w) →
     StronglySorted Z.lt keys) ∧
    (∀ c v n, c ∈ assigns → c ≠ "vlan " +:+ v ∧ c ≠ " name " +:+ n).
Proof.
  intros Hb.
  apply build_Ok_inv in Hb
    as (vs & keys & added & Hp & Hk & Hs & -> & Hadded & _).
  assert (∀ v, v ∈ vs ↔ v ∈ vlans_to_create entries existing exclude) as Hin.
  { intros v. by rewrite Hp, elem_of_elements. }
  assert (NoDup vs) as Hnd by (rewrite Hp; apply NoDup_elements).
  exists vs, keys, added. split_and!; try done.
  - intros Hinj. apply (keys_strictly_sorted vs); try done.
    intros v w k Hv Hw. apply Hinj; by apply Hin.
  - intros c v n Hc.
    destruct (Hadded _ Hc) as [(e & i & _ & _ & ->)|(e & i & _ & _ & ->)];
      split; intros Heq; symmetry in Heq.
    + by apply create_not_interface in Heq.
    + by apply name_not_interface in Heq.
    + by apply create_not_switchport in Heq.
    + by apply name_not_switchport in Heq.
Qed.

End Plans.

(** ** Facts on the string primitives used by the parsers *)

Lemma lower_char_idemp c : lower_char (lower_char c) = lower_char c.
Proof. by destruct c as [[] [] [] [] [] [] [] []]. Qed.

Lemma lower_idemp s : lower (lower s) = lower s.
Proof.
  induction s as [|c s IH]; simpl; [done|].
  by rewrite lower_char_idemp, IH.
Qed.



(** Every piece of [s.split()] is non-empty. *)
Lemma split_ws_nonempty s t : t ∈ split_ws s → t ≠ "".
Proof.
  revert t. induction s as [|c s IH]; intros t; simpl; [by inversion 1|].
  destruct (is_space c); [by apply IH|].
  destruct (starts_token s).
  - destruct (split_ws s) as [|t0 ts] eqn:Hs; simpl.
    + intros Ht. apply list_elem_of_singleton in Ht as ->. done.
    + intros Ht. apply elem_of_cons in Ht as [->|Ht]; [done|].
      apply IH. by right.
  - intros Ht. apply elem_of_cons in Ht as [->|Ht]; [done|by apply IH].
Qed.

Lemma declared_name_nonempty line name : declared_name line = Some name → name ≠ "".
Proof.
  unfold declared_name. intros H.
  pose proof (split_ws_nonempty (strip line) name) as Hn.
  destruct (split_ws (strip line)) as [|t0 [|t1 ts]]; try done.
  injection H as ->. apply Hn. right. by left.
Qed.

(** ** Last mapping wins *)

Section Rows.
(** A loop that reads a row from each line and stores it in a dict. *)
Context (row : string → option (string * string)).
Context (step : gmap string string → string → gmap string string).
Context (step_row : ∀ m l,
  step m l = match row l with Some (k, v) => <[k := v]> m | None => m end).

Lemma fold_rows_other ls m k :
  (∀ l v, l ∈ ls → row l ≠ Some (k, v)) → foldl step m ls !! k = m !! k.
Proof.
  revert m. induction ls as [|l ls IH]; intros m Hls; [done|].
  simpl. rewrite IH; [|intros l' v Hl'; apply Hls; by right].
  rewrite step_row. destruct (row l) as [[k' v]|] eqn:Hl; [|done].
  apply lookup_insert_ne. intros ->. by apply (Hls l v); [left|].
Qed.

Lemma fold_rows_last pre l post m k v :
  row l = Some (k, v) → (∀ l' v', l' ∈ post → row l' ≠ Some (k, v')) →
  foldl step m (pre ++ l :: post) !! k = Some v.
Proof.
  intros Hl Hpost. rewrite foldl_app. simpl.
  rewrite fold_rows_other by done.
  rewrite step_row, Hl. apply lookup_insert_eq.
Qed.

End Rows.

(** C1, as amended.  In both indexes a later row replaces an earlier row of
    the same hardware address: the lookup of an address returns the interface
    of the last line of the output that carries it.  Nothing is raised, and
    an address has at most one interface. *)
Theorem C1_last_mapping_wins output pre line post m i :
  splitlines output = pre ++ line :: post →
  (mac_table_row line = Some (m, i) →
   (∀ l i', l ∈ post → mac_table_row l ≠ Some (m, i')) →
   parse_new_switch_mac_table output !! m = Some i) ∧
  (mac_to_if_row line = Some (m, i) →
   (∀ l i', l ∈ post → mac_to_if_row l ≠ Some (m, i')) →
   get_mac_to_interface output !! m = Some i) ∧
  (∀ i1 i2, parse_new_switch_mac_table output !! m = Some i1 →
            parse_new_switch_mac_table output !! m = Some i2 → i1 = i2).
Proof.
  intros Hlines. split_and!.
  - intros Hrow Hpost. unfold parse_new_switch_mac_table. rewrite Hlines.
    by apply (fold_rows_last mac_table_row).
  - intros Hrow Hpost. unfold get_mac_to_interface. rewrite Hlines.
    by apply (fold_rows_last mac_to_if_row).
  - congruence.
Qed.


(** ** The block segmenter *)

(** While a block is open its name is non-empty and has an entry. *)
Lemma scan_blocks_total lines blocks current_int :
  (∀ name, current_int = Some name → name ≠ "" ∧ is_Some (blocks !! name)) →
  (∀ l, l ∈ lines → startswith "interface" l = true → is_Some (declared_name l)) →
  ∃ final, scan_blocks blocks current_int lines = Ok final.
Proof.
  revert blocks current_int.
  induction lines as [|line rest IH]; intros blocks cur Hwf Hnamed; simpl; [eauto|].
  assert (∀ l, l ∈ rest → startswith "interface" l = true →
               is_Some (declared_name l)) as Hrest.
  { intros l Hl. apply Hnamed. by right. }
  destruct (startswith "interface" line) eqn:Hd.
  - destruct (Hnamed line) as [name Hname]; [by left|done|].
    rewrite Hname. apply IH; [|done].
    intros n [= <-]. split; [by eapply declared_name_nonempty|].
    rewrite lookup_insert_eq. eauto.
  - destruct cur as [name|]; [|by apply IH].
    destruct (Hwf name eq_refl) as [Hne [block Hblock]].
    destruct name as [|c name]; [done|]. simpl.
    destruct (startswith "!" line); [by apply IH|].
    rewrite Hblock. apply IH; [|done].
    intros n [= <-]. split; [done|]. rewrite lookup_insert_eq. eauto.
Qed.

(** A name that is neither open nor declared again keeps its block. *)
Lemma scan_blocks_other lines blocks current_int final name :
  scan_blocks blocks current_int lines = Ok final →
  current_int ≠ Some name →
  (∀ l, l ∈ lines → startswith "interface" l = true →
        declared_name l ≠ Some name) →
  final !! name = blocks !! name.
Proof.
  revert blocks current_int.
  induction lines as [|line rest IH]; intros blocks cur; simpl.
  { by intros [= ->]. }
  intros Hscan Hcur Hdecl.
  assert (∀ l, l ∈ rest → startswith "interface" l = true →
               declared_name l ≠ Some name) as Hrest.
  { intros l Hl. apply Hdecl. by right. }
  destruct (startswith "interface" line) eqn:Hd.
  - destruct (declared_name line) as [n|] eqn:Hn; [|done].
    assert (n ≠ name) as Hne.
    { intros ->. by apply (Hdecl line); [left| |]. }
    rewrite (IH _ _ Hscan); [|congruence|done].
    by apply lookup_insert_ne.
  - destruct cur as [n|]; [|by apply (IH _ _ Hscan)].
    destruct (is_empty n); [by apply (IH _ _ Hscan)|].
    destruct (startswith "!" line); [by apply (IH _ _ Hscan)|].
    destruct (blocks !! n) as [block|] eqn:Hb; [|done].
    rewrite (IH _ _ Hscan); [|done..].
    apply lookup_insert_ne. congruence.
Qed.

(** The lines of an open block that neither end it nor open another one are
    appended to it. *)
Lemma scan_blocks_body body blocks name block rest :
  name ≠ "" → blocks !! name = Some block →
  Forall (λ l, startswith "interface" l = false ∧ startswith "!" l = false) body →
  scan_blocks blocks (Some name) (body ++ rest)
  = scan_blocks (<[name := block ++ body]> blocks) (Some name) rest.
Proof.
  intros Hne. revert blocks block.
  induction body as [|line body IH]; intros blocks block Hblock Hbody.
  { simpl. by rewrite app_nil_r, insert_id. }
  apply Forall_cons in Hbody as [[Hd He] Hbody]. simpl.
  rewrite Hd, He, Hblock.
  destruct name as [|c name]; [done|]. simpl.
  rewrite (IH _ (block ++ [line])); [|by rewrite lookup_insert_eq|done].
  by rewrite insert_insert_eq, <-(assoc_L (++)).
Qed.

(** The state in which the scan reaches a suffix of the lines. *)
Lemma scan_blocks_prefix pre lines blocks current_int final :
  scan_blocks blocks current_int (pre ++ lines) = Ok final →
  ∃ blocks' current_int', scan_blocks blocks' current_int' lines = Ok final.
Proof.
  revert blocks current_int.
  induction pre as [|line pre IH]; intros blocks cur; simpl; [eauto|].
  destruct (startswith "interface" line).
  - destruct (declared_name line); [apply IH|done].
  - destruct cur as [n|]; [|apply IH].
    destruct (is_empty n); [apply IH|].
    destruct (startswith "!" line); [apply IH|].
    destruct (blocks !! n); [apply IH|done].
Qed.

(** C9, as amended.  When every line that begins with [interface] carries a
    second token, the segmenter returns a mapping, in which
    - the block of a name is its declaration line followed by the lines up
      to, and without, the next line that begins with [!] or with
      [interface] (or up to the end of the text), the declaration being the
      last one of that name;
    - a name that no declaration carries has no block, so lines outside the
      blocks are dropped. *)
Theorem C9_block_of_last_declaration show_run :
  (∀ l, l ∈ splitlines show_run → startswith "interface" l = true →
        is_Some (declared_name l)) →
  ∃ blocks,
    get_interface_blocks show_run = Ok blocks ∧
    (∀ pre decl body rest name,
       splitlines show_run = pre ++ decl :: body ++ rest →
       startswith "interface" decl = true →
       declared_name decl = Some name →
       Forall (λ l, startswith "interface" l = false ∧
                    startswith "!" l = false) body →
       (rest = [] ∨
        ∃ l rest', rest = l :: rest' ∧
          (startswith "interface" l = true ∨ startswith "!" l = true)) →
       (∀ l, l ∈ rest → startswith "interface" l = true →
             declared_name l ≠ Some name) →
       blocks !! name = Some (decl :: body)) ∧
    (∀ name,
       (∀ l, l ∈ splitlines show_run → startswith "interface" l = true →
             declared_name l ≠ Some name) →
       blocks !! name = None).
Proof.
  intros Hnamed. unfold get_interface_blocks.
  destruct (scan_blocks_total (splitlines show_run) ∅ None) as [final Hfinal];
    [done|done|].
  exists final. split_and!; [done| |].
  - intros pre decl body rest name Hlines Hd Hname Hbody Hrest Hlast.
    rewrite Hlines in Hfinal.
    apply scan_blocks_prefix in Hfinal as (blocks' & cur' & Hscan).
    simpl in Hscan. rewrite Hd, Hname in Hscan.
    pose proof (declared_name_nonempty _ _ Hname) as Hne.
    rewrite (scan_blocks_body body _ name [decl]) in Hscan;
      [|done|by rewrite lookup_insert_eq|done].
    rewrite insert_insert_eq in Hscan. simpl in Hscan.
    destruct Hrest as [->|(l & rest' & -> & Hl)].
    { simpl in Hscan. injection Hscan as <-. by rewrite lookup_insert_eq. }
    assert (∀ l', l' ∈ rest' → startswith "interface" l' = true →
                  declared_name l' ≠ Some name) as Hrest'.
    { intros l' Hl'. apply Hlast. by right. }
    simpl in Hscan. destruct (startswith "interface" l) eqn:Hdl.
    + destruct (declared_name l) as [n|] eqn:Hn; [|done].
      assert (n ≠ name) as Hnn.
      { intros ->. by apply (Hlast l); [left| |]. }
      rewrite (scan_blocks_other _ _ _ _ name Hscan); [|congruence|done].
      rewrite lookup_insert_ne by done. by rewrite lookup_insert_eq.
    + destruct Hl as [?|Hl]; [done|]. rewrite Hl in Hscan.
      destruct name as [|c name]; [done|]. simpl in Hscan.
      rewrite (scan_blocks_other _ _ _ _ _ Hscan); [|done..].
      by rewrite lookup_insert_eq.
  - intros name Hnone.
    by rewrite (scan_blocks_other _ _ _ _ name Hfinal).
Qed.

(** ** The numeric precondition of the sort *)






(** ** The properties on the sample inputs *)

(** Settles a decidable closed proposition by evaluation. *)
Ltac by_compute :=
  match goal with |- ?P => apply (bool_decide_unpack P); vm_compute; exact I end.

Lemma elements_perm (s : gset string) : elements s ≡ₚ elements s.
Proof. done. Qed.

Lemma reverse_elements_perm (s : gset string) : reverse (elements s) ≡ₚ elements s.
Proof. apply reverse_Permutation. Qed.

(** The sample run gives the sample plan. *)
Lemma sample_build :
  build_config_commands elements Sample.entries Sample.names Sample.existing
    Sample.index Sample.modes Sample.exclude
  = Ok (Sample.plan, Sample.diagnostics).
Proof. by vm_compute. Qed.

(** Against C1 as stated: the station 0050.7966.6802 is listed on Gi0/2 and
    then on Gi0/3; both indexes answer Gi0/3, the later port, not the first. *)
Lemma C1_first_mapping_does_not_win :
  splitlines Sample.moved_station_table
    = ["   1    0050.7966.6802    DYNAMIC     Gi0/2";
       "   1    0050.7966.6802    DYNAMIC     Gi0/3"] ∧
  mac_table_row "   1    0050.7966.6802    DYNAMIC     Gi0/2"
    = Some ("0050.7966.6802", "Gi0/2") ∧
  mac_table_row "   1    0050.7966.6802    DYNAMIC     Gi0/3"
    = Some ("0050.7966.6802", "Gi0/3") ∧
  parse_new_switch_mac_table Sample.moved_station_table !! "0050.7966.6802"
    = Some "Gi0/3" ∧
  get_mac_to_interface Sample.moved_station_table !! "00:50:79:66:68:02"
    = Some "Gi0/3".
Proof. split_and!; by vm_compute. Qed.

Lemma C1_last_mapping_wins_witness :
  parse_new_switch_mac_table Sample.moved_station_table !! "0050.7966.6802"
    = Some "Gi0/3" ∧
  get_mac_to_interface Sample.moved_station_table !! "00:50:79:66:68:02"
    = Some "Gi0/3".
Proof.
  split.
  - refine (proj1 (C1_last_mapping_wins Sample.moved_station_table
      ["   1    0050.7966.6802    DYNAMIC     Gi0/2"]
      "   1    0050.7966.6802    DYNAMIC     Gi0/3" []
      "0050.7966.6802" "Gi0/3" _) _ _).
    + by vm_compute.
    + by vm_compute.
    + intros l i' Hl. by apply elem_of_nil in Hl.
  - refine (proj1 (proj2 (C1_last_mapping_wins Sample.moved_station_table
      ["   1    0050.7966.6802    DYNAMIC     Gi0/2"]
      "   1    0050.7966.6802    DYNAMIC     Gi0/3" []
      "00:50:79:66:68:02" "Gi0/3" _)) _ _).
    + by vm_compute.
    + by vm_compute.
    + intros l i' Hl. by apply elem_of_nil in Hl.
Defined.



(** Against C3 as stated: the address of the record leads to the trunk
    Gi0/3, but its VLAN is excluded; the record is dropped before the lookup
    and nothing is printed for it. *)
Lemma C3_excluded_record_leaves_no_message :
  lookup_interface Sample.index "0050.7966.6803" = Some "Gi0/3" ∧
  mode_of Sample.modes "Gi0/3" = Some "trunk" ∧
  build_config_commands elements
    [Entry "1200" "0050.7966.6803" "Gi0/2" "VOICE"] Sample.names
    Sample.existing Sample.index Sample.modes {["1200"]}
  = Ok ([], []).
Proof. split_and!; by vm_compute. Qed.

Lemma C3_non_access_port_skipped_witness :
  ("interface Gi0/3" ∉ Sample.plan) ∧
  "Skipping interface Gi0/3 (mode: trunk) - not a static access port."
    ∈ Sample.diagnostics.
Proof.
  destruct (C3_non_access_port_skipped elements elements_perm
    Sample.entries Sample.names Sample.existing Sample.index Sample.modes
    Sample.exclude Sample.plan Sample.diagnostics
    (Entry "1200" "0050.7966.6803" "Gi0/2" "VOICE") "Gi0/3")
    as [Hplan Hout].
  - by vm_compute.
  - by_compute.
  - by vm_compute.
  - by vm_compute.
  - split; [exact Hplan|]. apply Hout; [done|done|by_compute].
Defined.

Lemma C4_excluded_vlan_untouched_witness :
  ("vlan 1400" ∉ Sample.plan) ∧ (" switchport access vlan 1400" ∉ Sample.plan).
Proof.
  apply (C4_excluded_vlan_untouched elements elements_perm
    Sample.entries Sample.names Sample.existing Sample.index Sample.modes
    Sample.exclude Sample.plan Sample.diagnostics "1400").
  - by_compute.
  - by vm_compute.
Defined.

Lemma C5_pending_creation_set_witness :
  ("vlan 1300" ∉ Sample.plan) ∧
  "1200" ∈ vlans_to_create Sample.entries Sample.existing Sample.exclude.
Proof.
  destruct (C5_pending_creation_set elements elements_perm
    Sample.entries Sample.names Sample.existing Sample.index Sample.modes
    Sample.exclude Sample.plan Sample.diagnostics)
    as (_ & Hexisting & Hcreated & _).
  - by vm_compute.
  - split.
    + apply Hexisting. by_compute.
    + apply Hcreated. by_compute.
Defined.

(** Against C6 as stated: both addresses lead to Gi0/2; the first record is
    excluded, and the record processed after it gets the assignment. *)
Lemma C6_later_record_assigned_after_excluded_one :
  lookup_interface Sample.index "0050.7966.6802" = Some "Gi0/2" ∧
  lookup_interface Sample.index "0050.7966.6806" = Some "Gi0/2" ∧
  build_config_commands elements
    [Entry "1100" "0050.7966.6802" "Gi0/1" "DATA";
     Entry "1200" "0050.7966.6806" "Gi1/1" "VOICE"] Sample.names
    Sample.existing Sample.index Sample.modes {["1100"]}
  = Ok (["vlan 1200"; " name VLAN_1200";
         "interface Gi0/2"; " switchport access vlan 1200"], []).
Proof. split_and!; by vm_compute. Qed.

Lemma C6_first_assignment_wins_witness :
  ∃ before after,
    Sample.plan = before ++ ["interface Gi0/2"; " switchport access vlan 1100"]
                    ++ after ∧
    ("interface Gi0/2" ∉ before) ∧ ("interface Gi0/2" ∉ after).
Proof.
  refine (proj1 (C6_first_assignment_wins elements elements_perm
    Sample.entries Sample.names Sample.existing Sample.index Sample.modes
    Sample.exclude Sample.plan Sample.diagnostics
    [] (Entry "1100" "0050.7966.6802" "Gi0/1" "DATA")
    [Entry "1200" "0050.7966.6803" "Gi0/2" "VOICE";
     Entry "1300" "0050.7966.6804" "Gi0/3" "WIRELESS";
     Entry "1400" "0050.7966.6805" "Gi1/0" "DMZ"]
    (Entry "1200" "0050.7966.6806" "Gi1/1" "VOICE") [] "Gi0/2" _ _ _ _ _)).
  - by vm_compute.
  - by vm_compute.
  - unfold eligible. split_and!; [done|done|by_compute|by vm_compute..].
  - intros e0 He0. by apply elem_of_nil in He0.
  - by vm_compute.
Defined.

(** Against C7 as stated: the ids "7" and "07" are both pending and both are
    the integer 7; in either iteration order of the set the two creation
    commands follow each other with equal numbers. *)
Lemma C7_equal_numbers_not_strictly_ascending :
  build_config_commands elements
    [Entry "7" "0050.7966.6802" "Gi0/1" ""; Entry "07" "0050.7966.6803" "Gi0/2" ""]
    ∅ ∅ ∅ ∅ ∅
  = Ok (["vlan 7"; " name VLAN_7"; "vlan 07"; " name VLAN_07"],
        ["Warning: MAC 0050.7966.6802 not found on new switch. Skipping this entry.";
         "Warning: MAC 0050.7966.6803 not found on new switch. Skipping this entry."]) ∧
  build_config_commands (reverse ∘ elements)
    [Entry "7" "0050.7966.6802" "Gi0/1" ""; Entry "07" "0050.7966.6803" "Gi0/2" ""]
    ∅ ∅ ∅ ∅ ∅
  = Ok (["vlan 07"; " name VLAN_07"; "vlan 7"; " name VLAN_7"],
        ["Warning: MAC 0050.7966.6802 not found on new switch. Skipping this entry.";
         "Warning: MAC 0050.7966.6803 not found on new switch. Skipping this entry."]) ∧
  int_of_str "7" = Some 7%Z ∧ int_of_str "07" = Some 7%Z.
Proof. split_and!; by vm_compute. Qed.

Lemma C7_creation_in_numeric_order_witness :
  ∃ vs keys assigns,
    Sample.plan = creation_commands Sample.names vs ++ assigns ∧
    Forall2 (λ v k, int_of_str v = Some k) vs keys ∧
    StronglySorted Z.le keys.
Proof.
  destruct (C7_creation_in_numeric_order elements elements_perm
    Sample.entries Sample.names Sample.existing Sample.index Sample.modes
    Sample.exclude Sample.plan Sample.diagnostics)
    as (vs & keys & assigns & Hplan & _ & _ & Hkeys & Hsorted & _).
  - by vm_compute.
  - by exists vs, keys, assigns.
Defined.

Lemma C8_second_run_creates_nothing_witness :
  vlans_to_create Sample.entries ({["1100"; "1200"]} ∪ Sample.existing)
    Sample.exclude = ∅.
Proof.
  refine (proj1 (C8_second_run_creates_nothing elements elements_perm
    Sample.entries Sample.names Sample.existing Sample.index Sample.modes
    Sample.exclude Sample.plan Sample.diagnostics
    ({["1100"; "1200"]} ∪ Sample.existing) Sample.names Sample.index
    Sample.modes _ _)).
  - by vm_compute.
  - intros v. rewrite elem_of_union. split.
    + intros [Hv|Hv]; [right|by left].
      apply elem_of_union in Hv as [Hv|Hv]; apply elem_of_singleton in Hv as ->;
        by_compute.
    + intros [Hv|Hv]; [by right|left].
      unfold Sample.plan in Hv.
      repeat (apply elem_of_cons in Hv as [Hv|Hv];
              [simpl in Hv; try discriminate Hv|]);
        [..|by apply elem_of_nil in Hv];
        apply (append_inj_r "vlan ") in Hv; subst v; by_compute.
Defined.

(** Against C9 as stated: the comment line "! moved from Gi0/7" is not made
    of the terminator alone, yet the block of Gi0/1 stops in front of it. *)
Lemma C9_comment_line_ends_block :
  splitlines Sample.show_run
    = ["hostname old-switch"; "!"; "interface Gi0/1"; " description uplink";
       "! moved from Gi0/7"; " switchport access vlan 1100"; "!";
       "interface Gi0/2"; " shutdown"; "interface Gi0/3";
       " switchport mode trunk"] ∧
  get_interface_blocks Sample.show_run
    = Ok (list_to_map
            [("Gi0/1", ["interface Gi0/1"; " description uplink"]);
             ("Gi0/2", ["interface Gi0/2"; " shutdown"]);
             ("Gi0/3", ["interface Gi0/3"; " switchport mode trunk"])]).
Proof. split; by vm_compute. Qed.

(** A declaration line without a name makes the segmenter raise. *)
Lemma nameless_declaration_raises :
  get_interface_blocks "interface" = Raise IndexError.
Proof. by vm_compute. Qed.

Lemma C9_block_of_last_declaration_witness :
  ∃ blocks,
    get_interface_blocks Sample.show_run = Ok blocks ∧
    blocks !! "Gi0/2" = Some ["interface Gi0/2"; " shutdown"] ∧
    blocks !! "Gi0/3" = Some ["interface Gi0/3"; " switchport mode trunk"] ∧
    blocks !! "Gi0/7" = None.
Proof.
  destruct (C9_block_of_last_declaration Sample.show_run)
    as (blocks & Hblocks & Hblock & Hnone).
  - apply (proj1 (Forall_forall
      (λ l, startswith "interface" l = true → is_Some (declared_name l))
      (splitlines Sample.show_run))).
    by_compute.
  - exists blocks. split_and!; [done| | |].
    + apply (Hblock
        ["hostname old-switch"; "!"; "interface Gi0/1"; " description uplink";
         "! moved from Gi0/7"; " switchport access vlan 1100"; "!"]
        "interface Gi0/2" [" shutdown"]
        ["interface Gi0/3"; " switchport mode trunk"]);
        [by vm_compute|by vm_compute|by vm_compute|by_compute| |].
      * right. eexists _, _. split; [done|]. left. by vm_compute.
      * apply (proj1 (Forall_forall
          (λ l, startswith "interface" l = true →
                declared_name l ≠ Some "Gi0/2")
          ["interface Gi0/3"; " switchport mode trunk"])).
        by_compute.
    + apply (Hblock
        ["hostname old-switch"; "!"; "interface Gi0/1"; " description uplink";
         "! moved from Gi0/7"; " switchport access vlan 1100"; "!";
         "interface Gi0/2"; " shutdown"]
        "interface Gi0/3" [" switchport mode trunk"] []);
        [by vm_compute|by vm_compute|by vm_compute|by_compute|by left|].
      intros l Hl. by apply elem_of_nil in Hl.
    + apply Hnone.
      apply (proj1 (Forall_forall
        (λ l, startswith "interface" l = true →
              declared_name l ≠ Some "Gi0/7")
        (splitlines Sample.show_run))).
      by_compute.
Defined.



(** ** More on the deployment script *)

(** *** The existing VLANs *)

Lemma digit_run_spec s ds rest :
  digit_run s = (ds, rest) → all_digits ds = true ∧ s = ds +:+ rest.
Proof.
  revert ds rest. induction s as [|c s IH]; intros ds rest; simpl.
  { by intros [= <- <-]. }
  destruct (is_digit c) eqn:Hc.
  - destruct (digit_run s) as [ds' rest']. intros [= <- <-].
    destruct (IH ds' rest' eq_refl) as [Hd ->].
    split; [|done]. apply all_digits_cons. by split.
  - by intros [= <- <-].
Qed.

Lemma vlan_brief_id_digits line v :
  vlan_brief_id line = Some v → v ≠ "" ∧ all_digits v = true.
Proof.
  unfold vlan_brief_id.
  destruct (digit_run (lstrip line)) as [ds rest] eqn:Hrun.
  apply digit_run_spec in Hrun as [Hd _].
  destruct ds as [|c ds]; [done|]. simpl.
  destruct rest as [|c' rest]; [done|].
  destruct (is_space c'); [|done]. by intros [= <-].
Qed.

Lemma elem_of_get_existing_vlans vlan_output v :
  v ∈ get_existing_vlans vlan_output ↔
  ∃ line, line ∈ splitlines vlan_output ∧ vlan_brief_id line = Some v.
Proof.
  unfold get_existing_vlans.
  assert (∀ ls acc, v ∈ foldl existing_vlans_step acc ls ↔
            v ∈ acc ∨ ∃ line, line ∈ ls ∧ vlan_brief_id line = Some v) as Hfold.
  { induction ls as [|l ls IH]; intros acc; simpl.
    - split; [auto|]. intros [?|(l & Hl & _)]; [done|by inv Hl].
    - rewrite IH. unfold existing_vlans_step. setoid_rewrite elem_of_cons.
      destruct (vlan_brief_id l) as [w|] eqn:Hl.
      + rewrite elem_of_union, elem_of_singleton. split.
        * intros [[->|?]|(l' & ? & ?)]; eauto 6.
        * intros [?|(l' & [->|?] & Hv)]; eauto 6.
          rewrite Hl in Hv. injection Hv as ->. auto.
      + split.
        * intros [?|(l' & ? & ?)]; eauto 6.
        * intros [?|(l' & [->|?] & Hv)]; eauto 6. congruence. }
  rewrite Hfold. split; [|auto]. intros [Hv|?]; [|done]. by inv Hv.
Qed.

Lemma get_existing_vlans_digits vlan_output v :
  v ∈ get_existing_vlans vlan_output → v ≠ "" ∧ all_digits v = true.
Proof.
  rewrite elem_of_get_existing_vlans. intros (line & _ & Hline).
  by apply vlan_brief_id_digits in Hline.
Qed.

(** X1.  Every id that [get_existing_vlans] returns is a non-empty string of
    decimal digits, and [int] accepts it exactly when it has no more than
    4300 digits: the [sorted(existing_vlans, key=int)] of [main] can raise
    only on an id longer than that. *)
Theorem existing_vlans_are_numbers vlan_output v :
  v ∈ get_existing_vlans vlan_output →
  v ≠ "" ∧ all_digits v = true ∧
  (is_Some (int_of_str v) ↔ (String.length v ≤ int_max_str_digits)%nat).
Proof.
  intros Hv. apply get_existing_vlans_digits in Hv as [Hne Hd].
  split_and!; [done..|]. by apply int_of_str_all_digits.
Qed.

(** *** Trimming *)

Lemma lstrip_idemp s : lstrip (lstrip s) = lstrip s.
Proof.
  induction s as [|c s IH]; simpl; [done|].
  destruct (is_space c) eqn:Hc; [done|]. simpl. by rewrite Hc.
Qed.

Lemma rstrip_idemp s : rstrip (rstrip s) = rstrip s.
Proof.
  induction s as [|c s IH]; simpl; [done|].
  destruct (is_space c && is_empty (rstrip s)) eqn:Hc; [done|].
  simpl. by rewrite IH, Hc.
Qed.

Lemma lstrip_rstrip s : lstrip s = s → lstrip (rstrip s) = rstrip s.
Proof.
  destruct s as [|c s]; simpl; [done|].
  destruct (is_space c) eqn:Hc.
  - intros Hs. exfalso.
    assert (String.length (lstrip s) ≤ String.length s)%nat as Hlen.
    { clear. induction s as [|c s IH]; simpl; [done|].
      destruct (is_space c); simpl; lia. }
    rewrite Hs in Hlen. simpl in Hlen. lia.
  - intros _. simpl. by rewrite Hc.
Qed.

Lemma strip_idemp s : strip (strip s) = strip s.
Proof.
  unfold strip. rewrite (lstrip_rstrip (lstrip s)) by apply lstrip_idemp.
  apply rstrip_idemp.
Qed.

Lemma blank_free_cons c s :
  blank_free (String c s) = true ↔ is_space c = false ∧ blank_free s = true.
Proof.
  unfold blank_free. simpl. rewrite andb_true_iff, negb_true_iff. done.
Qed.

Lemma rstrip_blank_free s : blank_free s = true → rstrip s = s.
Proof.
  induction s as [|c s IH]; [done|].
  rewrite blank_free_cons. intros [Hc Hs]. simpl. by rewrite Hc, IH.
Qed.

Lemma strip_blank_free s : blank_free s = true → strip s = s.
Proof.
  intros Hs. unfold strip. destruct s as [|c s]; [done|].
  pose proof Hs as Hs'. apply blank_free_cons in Hs' as [Hc _].
  simpl lstrip. rewrite Hc. by apply rstrip_blank_free.
Qed.

(** *** Splitting at commas *)

Lemma comma_free_cons c s :
  comma_free (String c s) = true ↔ Ascii.eqb c "," = false ∧ comma_free s = true.
Proof.
  unfold comma_free. simpl. rewrite andb_true_iff, negb_true_iff. done.
Qed.

Lemma split_char_comma_free s : comma_free s = true → split_char "," s = [s].
Proof.
  induction s as [|c s IH]; [done|].
  rewrite comma_free_cons. intros [Hc Hs]. simpl. by rewrite Hc, IH.
Qed.

Lemma split_char_app p rest :
  comma_free p = true →
  split_char "," (p +:+ String "," rest) = p :: split_char "," rest.
Proof.
  induction p as [|c p IH]; [done|].
  rewrite comma_free_cons. intros [Hc Hp]. simpl. by rewrite Hc, IH.
Qed.

Lemma split_char_join pieces :
  pieces ≠ [] → Forall (λ p, comma_free p = true) pieces →
  split_char "," (join "," pieces) = pieces.
Proof.
  induction pieces as [|p pieces IH]; [done|]. intros _ Hall.
  apply Forall_cons in Hall as [Hp Hall].
  destruct pieces as [|q pieces]; [by apply split_char_comma_free|].
  change (join "," (p :: q :: pieces))
    with (p +:+ String "," (join "," (q :: pieces))).
  rewrite split_char_app by done. by rewrite IH.
Qed.

(** *** The exclusion argument *)

Lemma elem_of_exclude_fold pieces acc v :
  v ∈ foldl exclude_step acc pieces ↔
  v ∈ acc ∨ (v ≠ "" ∧ ∃ piece, piece ∈ pieces ∧ strip piece = v).
Proof.
  revert acc. induction pieces as [|p pieces IH]; intros acc; simpl.
  { split; [auto|]. intros [?|(_ & p & Hp & _)]; [done|by inv Hp]. }
  rewrite IH. unfold exclude_step. setoid_rewrite elem_of_cons.
  destruct (strip p) as [|c t] eqn:Hp; simpl;
    rewrite ?elem_of_union, ?elem_of_singleton; naive_solver.
Qed.

Lemma elem_of_parse_exclude_vlans arg v :
  v ∈ parse_exclude_vlans arg ↔
  v ≠ "" ∧ ∃ piece, piece ∈ split_char "," arg ∧ strip piece = v.
Proof.
  unfold parse_exclude_vlans. destruct arg as [|c arg]; simpl is_empty; cbv iota.
  - simpl. split; [by intros Hv; inv Hv|].
    intros (Hne & p & Hp & Hv). apply list_elem_of_singleton in Hp as ->.
    by vm_compute in Hv.
  - rewrite elem_of_exclude_fold. split; [|auto]. intros [Hv|?]; [by inv Hv|done].
Qed.

(** X2.  The exclusion set never holds an empty id, and its ids carry no
    blank at either end: the pieces of the argument are trimmed and the empty
    ones dropped. *)
Theorem exclude_ids_are_trimmed arg v :
  v ∈ parse_exclude_vlans arg → v ≠ "" ∧ strip v = v.
Proof.
  rewrite elem_of_parse_exclude_vlans. intros (Hne & p & _ & <-).
  split; [done|]. apply strip_idemp.
Qed.

(** X3.  Reading back a comma-separated list: when no piece holds a comma,
    the set read from the pieces joined by commas is the set of the trimmed
    pieces that are not empty.  Blanks around an id and empty pieces (as in
    "10, 20,,30") make no difference. *)
Theorem exclude_argument_round_trip pieces :
  Forall (λ p, comma_free p = true) pieces →
  parse_exclude_vlans (join "," pieces)
  = list_to_set (filter (λ v, v ≠ "") (strip <$> pieces)).
Proof.
  intros Hall. apply set_eq. intros v.
  rewrite elem_of_parse_exclude_vlans, elem_of_list_to_set, list_elem_of_filter,
    list_elem_of_fmap.
  destruct pieces as [|p pieces].
  { simpl. split.
    - intros (Hne & q & Hq & Hv). apply list_elem_of_singleton in Hq as ->.
      by vm_compute in Hv.
    - intros (_ & q & _ & Hq). by inv Hq. }
  rewrite split_char_join by done. naive_solver.
Qed.

(** *** The run of the deployment script *)

Lemma sorted_by_int_only_value_error l e : sorted_by_int l = Raise e → e = ValueError.
Proof.
  unfold sorted_by_int. destruct (mapM with_int_key l); [done|]. by intros [= <-].
Qed.

Lemma sorted_by_int_Raise_inv l e :
  sorted_by_int l = Raise e →
  e = ValueError ∧ ∃ v, v ∈ l ∧ int_of_str v = None.
Proof.
  intros Hsort. split; [by eapply sorted_by_int_only_value_error|].
  destruct (decide (Forall (λ v, is_Some (int_of_str v)) l)) as [Hall|Hnot].
  - apply sorted_by_int_total in Hall as [vs Hvs]. congruence.
  - apply not_Forall_Exists in Hnot; [|apply _].
    apply Exists_exists in Hnot as (v & Hv & Hnone).
    exists v. split; [done|]. by apply eq_None_not_Some.
Qed.

(** An id of the switch's VLAN listing that [int] refuses stops [main] after
    the first command. *)
Lemma main_stops_on_unconvertible_existing_id
    (set_iter : gset string → list string)
    csv_text exclude_arg send_command answer v :
  (∀ s, set_iter s ≡ₚ elements s) →
  (∀ w, w ∈ parse_exclude_vlans exclude_arg → is_Some (int_of_str w)) →
  v ∈ get_existing_vlans (send_command "show vlan brief") →
  int_of_str v = None →
  Deploy.main set_iter csv_text exclude_arg (Some send_command) answer
  = ([Sent "show vlan brief"], Uncaught ValueError).
Proof.
  intros Hperm Hnum Hv Hnone. unfold Deploy.main. cbv zeta.
  rewrite (sorted_by_int_raises
             (set_iter (get_existing_vlans (send_command "show vlan brief"))) v);
    [| by rewrite Hperm, elem_of_elements | done ].
  case_decide; [done|].
  destruct (sorted_by_int_total (set_iter (parse_exclude_vlans exclude_arg)))
    as [vs ->]; [|done].
  apply Forall_forall. intros w. rewrite Hperm, elem_of_elements. apply Hnum.
Qed.

(** Every way [main] can go. *)
Lemma main_cases (set_iter : gset string → list string)
    csv_text exclude_arg connect answer :
  (∀ s, set_iter s ≡ₚ elements s) →
  let exclude_vlans := parse_exclude_vlans exclude_arg in
  let run := Deploy.main set_iter csv_text exclude_arg connect answer in
  (run = ([], Uncaught ValueError) ∧
   ∃ v, v ∈ exclude_vlans ∧ int_of_str v = None) ∨
  (run = ([], ExitError) ∧ connect = None) ∨
  ∃ send_command,
    connect = Some send_command ∧
    let parsed := parse_config_collector_output csv_text in
    let built :=
      build_config_commands set_iter parsed.1 parsed.2
        (get_existing_vlans (send_command "show vlan brief"))
        (parse_new_switch_mac_table (send_command "show mac address"))
        (get_interface_modes (send_command "show interfaces switchport"))
        exclude_vlans in
    (run = ([Sent "show vlan brief"], Uncaught ValueError) ∧
     ∃ v, v ∈ get_existing_vlans (send_command "show vlan brief") ∧
          int_of_str v = None) ∨
    (run = (read_commands, Uncaught ValueError) ∧ built = Raise ValueError) ∨
    (∃ out, run = (read_commands ++ [Disconnected], Exit0) ∧ built = Ok ([], out)) ∨
    (∃ plan out,
       built = Ok (plan, out) ∧ plan ≠ [] ∧
       ((lower (strip answer) ∈ ["yes"; "y"] ∧
         run = (read_commands
                  ++ [Configured (plan ++ ["end"; "write memory"]); Disconnected],
                Returned)) ∨
        ((lower (strip answer) ∉ ["yes"; "y"]) ∧
         run = (read_commands ++ [Disconnected], Exit0)))).
Proof.
  intros Hperm exclude_vlans run. subst run. unfold Deploy.main.
  fold exclude_vlans.
  destruct (decide (exclude_vlans = ∅)) as [Hempty|Hne].
  2: destruct (sorted_by_int (set_iter exclude_vlans)) as [vs|e] eqn:Hsort.
  3: { left. apply sorted_by_int_Raise_inv in Hsort as [-> (v & Hv & Hnone)].
       split; [done|]. exists v. split; [|done].
       by rewrite Hperm, elem_of_elements in Hv. }
  all: destruct connect as [send_command|]; [|right; left; done].
  all: right; right; exists send_command; split; [done|].
  all: cbv zeta.
  all: destruct (sorted_by_int
                   (set_iter (get_existing_vlans (send_command "show vlan brief"))))
         as [ws|e0] eqn:Hexisting;
         [right
         |left; apply sorted_by_int_Raise_inv in Hexisting
                  as [-> (v & Hv & Hnone)];
          split; [done|]; exists v; split; [|done];
          by rewrite Hperm, elem_of_elements in Hv].
  all: simpl.
  all: destruct (build_config_commands _ _ _ _ _ _ _) as [[plan out]|e] eqn:Hb.
  all: try (left; unfold build_config_commands in Hb;
            destruct (sorted_by_int _) as [?|e'] eqn:Hs in Hb; [done|];
            injection Hb as <-;
            by rewrite (sorted_by_int_only_value_error _ _ Hs)).
  all: right.
  all: destruct plan as [|c plan]; [left; by exists out|right].
  all: exists (c :: plan), out; split; [done|split; [done|]].
  all: case_decide; [left|right]; done.
Qed.

Lemma not_configured_in_reads cmds : Configured cmds ∉ read_commands.
Proof.
  unfold read_commands. intros H.
  repeat (apply elem_of_cons in H as [H|H]; [done|]). by inv H.
Qed.

Lemma main_configured_inv (set_iter : gset string → list string)
    csv_text exclude_arg connect answer trace final cmds :
  (∀ s, set_iter s ≡ₚ elements s) →
  Deploy.main set_iter csv_text exclude_arg connect answer = (trace, final) →
  Configured cmds ∈ trace →
  lower (strip answer) ∈ ["yes"; "y"] ∧ final = Returned ∧
  ∃ send_command plan out,
    connect = Some send_command ∧
    build_config_commands set_iter
      (parse_config_collector_output csv_text).1
      (parse_config_collector_output csv_text).2
      (get_existing_vlans (send_command "show vlan brief"))
      (parse_new_switch_mac_table (send_command "show mac address"))
      (get_interface_modes (send_command "show interfaces switchport"))
      (parse_exclude_vlans exclude_arg) = Ok (plan, out) ∧
    plan ≠ [] ∧ cmds = plan ++ ["end"; "write memory"].
Proof.
  intros Hperm Hrun Hc.
  assert (∀ tr, tr = trace → Configured cmds ∈ tr) as Hin by (by intros ? ->).
  destruct (main_cases set_iter csv_text exclude_arg connect answer Hperm)
    as [[Hr _]|[[Hr _]|(send & -> & Hcases)]].
  1,2: rewrite Hr in Hrun; injection Hrun as Ht _;
       specialize (Hin _ Ht); by inv Hin.
  simpl in Hcases.
  destruct Hcases
    as [[Hr _]|[[Hr _]|[(out & Hr & _)|(plan & out & Hb & Hne & Hans)]]].
  1,2,3: rewrite Hr in Hrun; injection Hrun as Ht _; specialize (Hin _ Ht);
       unfold read_commands in Hin; simpl in Hin;
       repeat (apply elem_of_cons in Hin as [Hin|Hin]; [done|]); by inv Hin.
  destruct Hans as [[Hyes Hr]|[_ Hr]]; rewrite Hr in Hrun;
    injection Hrun as Ht Hf; specialize (Hin _ Ht);
    unfold read_commands in Hin; simpl in Hin;
    repeat (apply elem_of_cons in Hin as [Hin|Hin]; [try done|]);
    try (by inv Hin).
  injection Hin as ->. split_and!; [done..|]. by exists send, plan, out.
Qed.

(** X4.  Commands are sent to the switch in configuration mode only when the
    answer at the prompt, trimmed and lower-cased, is "yes" or "y".  What is
    sent then is the non-empty plan of [build_config_commands] followed by
    [end] and [write memory], and [main] returns. *)
Theorem main_configures_only_on_yes (set_iter : gset string → list string)
    csv_text exclude_arg connect answer trace final cmds :
  (∀ s, set_iter s ≡ₚ elements s) →
  Deploy.main set_iter csv_text exclude_arg connect answer = (trace, final) →
  Configured cmds ∈ trace →
  lower (strip answer) ∈ ["yes"; "y"] ∧ final = Returned ∧
  ∃ send_command plan out,
    connect = Some send_command ∧
    build_config_commands set_iter
      (parse_config_collector_output csv_text).1
      (parse_config_collector_output csv_text).2
      (get_existing_vlans (send_command "show vlan brief"))
      (parse_new_switch_mac_table (send_command "show mac address"))
      (get_interface_modes (send_command "show interfaces switchport"))
      (parse_exclude_vlans exclude_arg) = Ok (plan, out) ∧
    plan ≠ [] ∧ cmds = plan ++ ["end"; "write memory"].
Proof. apply main_configured_inv. Qed.

(** X5.  An id of the exclusion argument that [int] rejects ends the run with
    [ValueError] before the switch is contacted: nothing is sent. *)
Theorem main_rejects_non_numeric_exclusion (set_iter : gset string → list string)
    csv_text exclude_arg connect answer v :
  (∀ s, set_iter s ≡ₚ elements s) →
  v ∈ parse_exclude_vlans exclude_arg → int_of_str v = None →
  Deploy.main set_iter csv_text exclude_arg connect answer
  = ([], Uncaught ValueError).
Proof.
  intros Hperm Hv Hnone. unfold Deploy.main.
  case_decide as Hempty; [by rewrite Hempty in Hv|].
  rewrite (sorted_by_int_raises _ v); [done| |done].
  by rewrite Hperm, elem_of_elements.
Qed.

(** X6.  Whatever [main] sends in configuration mode neither creates a VLAN
    of the exclusion argument nor assigns a port to it. *)
Theorem main_never_configures_excluded_vlan (set_iter : gset string → list string)
    csv_text exclude_arg connect answer trace final cmds v :
  (∀ s, set_iter s ≡ₚ elements s) →
  Deploy.main set_iter csv_text exclude_arg connect answer = (trace, final) →
  Configured cmds ∈ trace →
  v ∈ parse_exclude_vlans exclude_arg →
  ("vlan " +:+ v ∉ cmds) ∧ (" switchport access vlan " +:+ v ∉ cmds).
Proof.
  intros Hperm Hrun Hc Hv.
  destruct (main_configured_inv set_iter csv_text exclude_arg connect
              answer trace final cmds Hperm Hrun Hc)
    as (_ & _ & send & plan & out & _ & Hb & _ & ->).
  pose proof (build_create_iff set_iter Hperm _ _ _ _ _ _ _ _ v Hb) as Hcreate.
  apply (build_Ok_inv set_iter Hperm) in Hb
    as (vs & keys & added & _ & _ & _ & -> & Hadded & _).
  split.
  - rewrite elem_of_app. intros [Hin|Hin].
    + apply Hcreate, elem_of_vlans_to_create in Hin. tauto.
    + repeat (apply elem_of_cons in Hin as [Hin|Hin]; [done|]). by inv Hin.
  - rewrite !elem_of_app, elem_of_creation_commands.
    intros [[(w & _ & [Hin|Hin])|Hin]|Hin].
    + symmetry in Hin. by apply create_not_switchport in Hin.
    + symmetry in Hin. by apply name_not_switchport in Hin.
    + destruct (Hadded _ Hin) as [(e & i & _ & _ & Hin')|(e & i & _ & He & Hin')].
      * symmetry in Hin'. by apply interface_not_switchport in Hin'.
      * apply switchport_inj in Hin' as ->. by destruct He as (_ & _ & ? & _).
    + repeat (apply elem_of_cons in Hin as [Hin|Hin]; [done|]). by inv Hin.
Qed.

(** X7.  Whatever [main] sends in configuration mode selects only interfaces
    that the switch reported in "static access" mode. *)
Theorem main_configures_access_ports_only (set_iter : gset string → list string)
    csv_text exclude_arg connect answer trace final cmds i :
  (∀ s, set_iter s ≡ₚ elements s) →
  Deploy.main set_iter csv_text exclude_arg connect answer = (trace, final) →
  Configured cmds ∈ trace →
  "interface " +:+ i ∈ cmds →
  ∃ send_command,
    connect = Some send_command ∧
    mode_of (get_interface_modes (send_command "show interfaces switchport")) i
    = Some "static access".
Proof.
  intros Hperm Hrun Hc Hi.
  destruct (main_configured_inv set_iter csv_text exclude_arg connect
              answer trace final cmds Hperm Hrun Hc)
    as (_ & _ & send & plan & out & -> & Hb & _ & ->).
  exists send. split; [done|].
  apply (build_Ok_inv set_iter Hperm) in Hb
    as (vs & keys & added & _ & _ & _ & -> & Hadded & _).
  rewrite !elem_of_app, elem_of_creation_commands in Hi.
  destruct Hi as [[(w & _ & [Hin|Hin])|Hin]|Hin].
  - symmetry in Hin. by apply create_not_interface in Hin.
  - symmetry in Hin. by apply name_not_interface in Hin.
  - destruct (Hadded _ Hin) as [(e & j & _ & Hf & Hin')|(e & j & _ & _ & Hin')].
    + apply interface_inj in Hin' as ->. by destruct Hf as (_ & _ & _ & _ & ?).
    + by apply interface_not_switchport in Hin'.
  - repeat (apply elem_of_cons in Hin as [Hin|Hin]; [done|]). by inv Hin.
Qed.

(** X8.  What [main] sends outside configuration mode is an initial part of
    the three [show] commands in their order, and whatever else happens on
    the session (configuring, disconnecting) comes after all three of them.
    Once the session is open and [int] accepts every id of the exclusion
    argument, [show vlan brief] is sent. *)
Theorem main_reads_before_it_decides (set_iter : gset string → list string)
    csv_text exclude_arg connect answer trace final :
  (∀ s, set_iter s ≡ₚ elements s) →
  Deploy.main set_iter csv_text exclude_arg connect answer = (trace, final) →
  ∃ k rest,
    trace = take k read_commands ++ rest ∧
    (∀ c, Sent c ∉ rest) ∧
    (rest ≠ [] → k = 3) ∧
    (∀ send_command,
       connect = Some send_command →
       (∀ v, v ∈ parse_exclude_vlans exclude_arg → is_Some (int_of_str v)) →
       (1 ≤ k)%nat).
Proof.
  intros Hperm Hrun.
  assert (∀ c, Sent c ∉ [Disconnected]) as Hclosed.
  { intros c Hc. by apply list_elem_of_singleton in Hc. }
  destruct (main_cases set_iter csv_text exclude_arg connect answer Hperm)
    as [[Hr (v & Hv & Hnone)]|[[Hr ->]|(send & -> & Hcases)]].
  - rewrite Hr in Hrun. injection Hrun as <- <-. exists 0, [].
    split_and!; [done|by inversion 1|done|].
    intros send _ Hnum. apply Hnum in Hv as [k Hk]. congruence.
  - rewrite Hr in Hrun. injection Hrun as <- <-. exists 0, [].
    split_and!; [done|by inversion 1|done|done].
  - simpl in Hcases.
    destruct Hcases
      as [[Hr _]|[[Hr _]|[(out & Hr & _)|(plan & out & _ & _ & Hans)]]].
    + rewrite Hr in Hrun. injection Hrun as <- <-. exists 1, [].
      split_and!; [done|by inversion 1|done|]. intros; lia.
    + rewrite Hr in Hrun. injection Hrun as <- <-. exists 3, [].
      split_and!; [done|by inversion 1|done|]. intros; lia.
    + rewrite Hr in Hrun. injection Hrun as <- <-. exists 3, [Disconnected].
      split_and!; [done|done|done|]. intros; lia.
    + destruct Hans as [[_ Hr]|[_ Hr]]; rewrite Hr in Hrun;
        injection Hrun as <- <-.
      * exists 3, [Configured (plan ++ ["end"; "write memory"]); Disconnected].
        split_and!; [done| |done|intros; lia].
        intros c Hc.
        repeat (apply elem_of_cons in Hc as [Hc|Hc]; [done|]). by inv Hc.
      * exists 3, [Disconnected]. split_and!; [done|done|done|]. intros; lia.
Qed.

(** X9.  The session is closed exactly when [main] ends in the ordinary way
    (by returning or by [sys.exit(0)]): after an escaping exception, as when
    the plan cannot be built, [disconnect] has not been called. *)
Theorem main_disconnects_iff_normal_end (set_iter : gset string → list string)
    csv_text exclude_arg connect answer trace final :
  (∀ s, set_iter s ≡ₚ elements s) →
  Deploy.main set_iter csv_text exclude_arg connect answer = (trace, final) →
  Disconnected ∈ trace ↔ final = Returned ∨ final = Exit0.
Proof.
  intros Hperm Hrun.
  destruct (main_cases set_iter csv_text exclude_arg connect answer Hperm)
    as [[Hr _]|[[Hr _]|(send & _ & Hcases)]].
  1,2: rewrite Hr in Hrun; injection Hrun as <- <-;
       split; [by inversion 1|by intros [?|?]].
  simpl in Hcases.
  destruct Hcases
    as [[Hr _]|[[Hr _]|[(out & Hr & _)|(plan & out & _ & _ & Hans)]]].
  - rewrite Hr in Hrun. injection Hrun as <- <-. split; [|by intros [?|?]].
    intros H. by apply list_elem_of_singleton in H.
  - rewrite Hr in Hrun. injection Hrun as <- <-. split; [|by intros [?|?]].
    unfold read_commands. intros H.
    repeat (apply elem_of_cons in H as [H|H]; [done|]). by inv H.
  - rewrite Hr in Hrun. injection Hrun as <- <-. split; [auto|]. intros _.
    rewrite !elem_of_cons. auto 10.
  - destruct Hans as [[_ Hr]|[_ Hr]]; rewrite Hr in Hrun;
      injection Hrun as <- <-; (split; [auto|]); intros _;
      rewrite !elem_of_cons; auto 10.
Qed.

(** ** More on the block segmenter *)

Lemma scan_blocks_cons blocks current_int line rest :
  scan_blocks blocks current_int (line :: rest)
  = if startswith "interface" line then
      match declared_name line with
      | Some name => scan_blocks (<[name := [line]]> blocks) (Some name) rest
      | None => Raise IndexError
      end
    else
      match current_int with
      | Some name =>
          if is_empty name then scan_blocks blocks current_int rest
          else if startswith "!" line then scan_blocks blocks None rest
          else
            match blocks !! name with
            | Some block =>
                scan_blocks (<[name := block ++ [line]]> blocks) current_int rest
            | None => Raise KeyError
            end
      | None => scan_blocks blocks None rest
      end.
Proof. done. Qed.

(** The scan keeps the shape of the blocks. *)
Lemma scan_blocks_keeps_shape rest seen blocks current_int final :
  open_block_ok blocks current_int → blocks_ok seen blocks current_int →
  scan_blocks blocks current_int rest = Ok final →
  blocks_ok (seen ++ rest) final None.
Proof.
  revert seen blocks current_int.
  induction rest as [|line rest IH]; intros seen blocks cur Hopen Hok.
  { simpl. intros [= <-]. rewrite app_nil_r. intros name block Hb.
    destruct (Hok name block Hb) as (pre & decl & body & post & ? & ? & ? & ? & ? & _).
    exists pre, decl, body, post. by split_and!. }
  (* A line that is neither stored nor a declaration lengthens every [post]. *)
  assert (blocks_ok (seen ++ [line]) blocks None) as Hpassed.
  { intros name block Hb.
    destruct (Hok name block Hb) as (pre & decl & body & post & -> & ? & ? & ? & ? & _).
    exists pre, decl, body, (post ++ [line]). split_and!; try done.
    rewrite <-(assoc_L (++)). simpl. by rewrite <-(assoc_L (++)). }
  rewrite scan_blocks_cons, (cons_middle line seen rest), (assoc_L (++)).
  destruct (startswith "interface" line) eqn:Hd.
  - destruct (declared_name line) as [n|] eqn:Hn; [|done].
    apply (IH (seen ++ [line])).
    + intros m [= <-]. split; [by eapply declared_name_nonempty|].
      rewrite lookup_insert_eq. eauto.
    + intros name block Hb. destruct (decide (n = name)) as [->|Hne].
      * rewrite lookup_insert_eq in Hb. injection Hb as <-.
        exists seen, line, [], []. by split_and!.
      * rewrite lookup_insert_ne in Hb by done.
        destruct (Hpassed name block Hb)
          as (pre & decl & body & post & ? & ? & ? & ? & ? & _).
        exists pre, decl, body, post. split_and!; try done. congruence.
  - destruct cur as [n|]; [|by apply (IH (seen ++ [line]))].
    destruct (Hopen n eq_refl) as [Hne [blk Hblk]].
    destruct n as [|c n]; [done|]. simpl is_empty. cbv iota.
    destruct (startswith "!" line) eqn:He; [by apply (IH (seen ++ [line]))|].
    rewrite Hblk. apply (IH (seen ++ [line])).
    + intros m [= <-]. split; [done|]. rewrite lookup_insert_eq. eauto.
    + intros name block Hb. destruct (decide (String c n = name)) as [<-|Hnn].
      * rewrite lookup_insert_eq in Hb. injection Hb as <-.
        destruct (Hok _ _ Hblk)
          as (pre & decl & body & post & -> & -> & ? & ? & Hbody & Hpost).
        rewrite (Hpost eq_refl), app_nil_r.
        exists pre, decl, (body ++ [line]), []. split_and!; try done.
        -- rewrite app_nil_r, <-(assoc_L (++)). simpl. done.
        -- apply Forall_app. split; [done|]. by constructor.
      * rewrite lookup_insert_ne in Hb by done.
        destruct (Hpassed name block Hb)
          as (pre & decl & body & post & ? & ? & ? & ? & ? & _).
        exists pre, decl, body, post. split_and!; try done. congruence.
Qed.

(** X10.  In the mapping that [get_interface_blocks] returns, every block
    starts with a declaration line that carries its name, and goes on with the
    lines that follow that declaration in the text, stopping in front of the
    next line that begins with [interface] or [!]: a block is never empty and
    never holds a line of another block. *)
Theorem blocks_are_contiguous show_run blocks name block :
  get_interface_blocks show_run = Ok blocks →
  blocks !! name = Some block →
  ∃ pre decl body post,
    splitlines show_run = pre ++ decl :: body ++ post ∧
    block = decl :: body ∧
    startswith "interface" decl = true ∧ declared_name decl = Some name ∧
    Forall (λ l, startswith "interface" l = false ∧ startswith "!" l = false) body.
Proof.
  unfold get_interface_blocks. intros Hscan Hb.
  apply (scan_blocks_keeps_shape _ []) in Hscan; [|done|by intros ???].
  destruct (Hscan name block Hb) as (pre & decl & body & post & ? & ? & ? & ? & ? & _).
  by exists pre, decl, body, post.
Qed.

Lemma scan_blocks_error lines blocks current_int e :
  open_block_ok blocks current_int →
  scan_blocks blocks current_int lines = Raise e →
  e = IndexError ∧
  ∃ l, l ∈ lines ∧ startswith "interface" l = true ∧ declared_name l = None.
Proof.
  revert blocks current_int.
  induction lines as [|line rest IH]; intros blocks cur Hopen; [done|].
  rewrite scan_blocks_cons.
  assert (∀ blocks' cur', open_block_ok blocks' cur' →
            scan_blocks blocks' cur' rest = Raise e →
            e = IndexError ∧
            ∃ l, l ∈ line :: rest ∧ startswith "interface" l = true ∧
                 declared_name l = None) as Hrest.
  { intros blocks' cur' Hopen' Hscan.
    destruct (IH _ _ Hopen' Hscan) as (-> & l & ? & ? & ?).
    split; [done|]. exists l. split; [by right|done]. }
  destruct (startswith "interface" line) eqn:Hd.
  - destruct (declared_name line) as [n|] eqn:Hn.
    + apply Hrest. intros m [= <-]. split; [by eapply declared_name_nonempty|].
      rewrite lookup_insert_eq. eauto.
    + intros [= <-]. split; [done|]. exists line. split; [by left|done].
  - destruct cur as [n|]; [|by apply Hrest].
    destruct (Hopen n eq_refl) as [Hne [blk Hblk]].
    destruct n as [|c n]; [done|]. simpl is_empty. cbv iota.
    destruct (startswith "!" line); [by apply Hrest|].
    rewrite Hblk. apply Hrest.
    intros m [= <-]. split; [done|]. rewrite lookup_insert_eq. eauto.
Qed.

Lemma scan_blocks_nameless lines blocks current_int l :
  open_block_ok blocks current_int →
  l ∈ lines → startswith "interface" l = true → declared_name l = None →
  scan_blocks blocks current_int lines = Raise IndexError.
Proof.
  intros Hopen Hl Hd Hn.
  destruct (scan_blocks blocks current_int lines) as [final|e] eqn:Hscan.
  - exfalso. revert blocks current_int Hopen final Hscan.
    induction lines as [|line rest IH]; intros blocks cur Hopen final;
      [by inv Hl|].
    rewrite scan_blocks_cons.
    apply elem_of_cons in Hl as [<-|Hl]; [by rewrite Hd, Hn|].
    specialize (IH Hl).
    destruct (startswith "interface" line).
    + destruct (declared_name line) as [n|] eqn:Hname; [|done].
      apply IH. intros m [= <-]. split; [by eapply declared_name_nonempty|].
      rewrite lookup_insert_eq. eauto.
    + destruct cur as [n|]; [|by apply IH].
      destruct (Hopen n eq_refl) as [Hne [blk Hblk]].
      destruct n as [|c n]; [done|]. simpl is_empty. cbv iota.
      destruct (startswith "!" line); [by apply IH|].
      rewrite Hblk. apply IH.
      intros m [= <-]. split; [done|]. rewrite lookup_insert_eq. eauto.
  - by apply scan_blocks_error in Hscan as [-> _].
Qed.

Lemma get_interface_blocks_raises show_run e :
  get_interface_blocks show_run = Raise e ↔
  e = IndexError ∧
  ∃ l, l ∈ splitlines show_run ∧ startswith "interface" l = true ∧
       declared_name l = None.
Proof.
  unfold get_interface_blocks. split.
  - by apply scan_blocks_error.
  - intros (-> & l & Hl & Hd & Hn). by apply (scan_blocks_nameless _ _ _ l).
Qed.

(** X11.  [get_interface_blocks] fails exactly when some line begins with
    [interface] and has no second token; the exception is then the
    [IndexError] of [split()[1]].  The lookup [blocks[current_int]] never
    fails. *)
Theorem blocks_fail_on_nameless_declaration show_run e :
  get_interface_blocks show_run = Raise e ↔
  e = IndexError ∧
  ∃ l, l ∈ splitlines show_run ∧ startswith "interface" l = true ∧
       declared_name l = None.
Proof. apply get_interface_blocks_raises. Qed.

(** ** The profile extractor *)

Lemma extract_snoc lines line :
  extract_config_profile (lines ++ [line])
  = profile_step (extract_config_profile lines) line.
Proof. unfold extract_config_profile. by rewrite foldl_app. Qed.

(** X12.  The profile stays inside its vocabulary: [mode] is "access" or
    "trunk" and [poe] is "auto" or "never", whatever the lines of the
    block. *)
Theorem profile_vocabulary int_lines :
  (mode (extract_config_profile int_lines) = "access" ∨
   mode (extract_config_profile int_lines) = "trunk") ∧
  (poe (extract_config_profile int_lines) = "auto" ∨
   poe (extract_config_profile int_lines) = "never").
Proof.
  induction int_lines as [|line lines IH] using rev_ind.
  { split; by left. }
  rewrite extract_snoc. unfold profile_step.
  repeat case_match; simpl; tauto.
Qed.

Lemma shutdown_step config raw :
  shutdown (profile_step config raw)
  = shutdown config || String.eqb (strip raw) "shutdown".
Proof.
  unfold profile_step. destruct (String.eqb_spec (strip raw) "shutdown") as [->|Hne].
  - simpl. by rewrite orb_true_r.
  - rewrite strip_idemp. apply String.eqb_neq in Hne. rewrite Hne.
    repeat case_match; simpl; by rewrite orb_false_r.
Qed.

(** X13.  The [shutdown] flag is set exactly when some line of the block,
    trimmed, is the word [shutdown]: "no shutdown" or a description that ends
    in "shutdown" does not set it. *)
Theorem shutdown_iff_exact_line int_lines :
  shutdown (extract_config_profile int_lines) = true ↔
  ∃ line, line ∈ int_lines ∧ strip line = "shutdown".
Proof.
  induction int_lines as [|line lines IH] using rev_ind.
  { split; [done|]. intros (l & Hl & _). by inv Hl. }
  rewrite extract_snoc, shutdown_step, orb_true_iff, IH, String.eqb_eq.
  setoid_rewrite elem_of_app. setoid_rewrite list_elem_of_singleton.
  naive_solver.
Qed.

(** X14.  A VLAN number of the profile is the integer that ends some line of
    the block holding the matching directive; and a line whose last token is
    no integer leaves both numbers as they were. *)
Theorem vlan_numbers_come_from_directives int_lines :
  (∀ n, access_vlan (extract_config_profile int_lines) = Some n →
        ∃ line, line ∈ int_lines ∧
                contains "switchport access vlan" (strip line) = true ∧
                trailing_int (strip line) = Some n) ∧
  (∀ n, voice_vlan (extract_config_profile int_lines) = Some n →
        ∃ line, line ∈ int_lines ∧
                contains "switchport voice vlan" (strip line) = true ∧
                trailing_int (strip line) = Some n) ∧
  (∀ line, trailing_int (strip line) = None →
     access_vlan (extract_config_profile (int_lines ++ [line]))
       = access_vlan (extract_config_profile int_lines) ∧
     voice_vlan (extract_config_profile (int_lines ++ [line]))
       = voice_vlan (extract_config_profile int_lines)).
Proof.
  split_and!.
  3: { intros line Hnone. rewrite extract_snoc. unfold profile_step.
       rewrite Hnone. by repeat case_match. }
  all: induction int_lines as [|line lines IH] using rev_ind;
    [intros n; by inversion 1|].
  all: rewrite extract_snoc.
  all: assert (∀ l, l ∈ lines → l ∈ lines ++ [line]) as Hold
         by (intros l Hl; apply elem_of_app; by left).
  all: assert (line ∈ lines ++ [line]) as Hnew
         by (apply elem_of_app; right; by left).
  all: unfold profile_step; intros n; repeat case_match; simpl; intros Hn;
    try (destruct (IH n Hn) as (l & ? & ? & ?); exists l; by eauto);
    injection Hn as <-; exists line; by split_and!.
Qed.

(** Two profiles that agree on every key but [description]. *)
Lemma step_description_blind c1 c2 raw :
  mode c1 = mode c2 → access_vlan c1 = access_vlan c2 →
  voice_vlan c1 = voice_vlan c2 → portfast c1 = portfast c2 →
  poe c1 = poe c2 → shutdown c1 = shutdown c2 →
  let d1 := profile_step c1 raw in
  let d2 := profile_step c2 raw in
  description d1 = (if startswith "description" (strip raw)
                    then after_first_space (strip raw) else description c1) ∧
  mode d1 = mode d2 ∧ access_vlan d1 = access_vlan d2 ∧
  voice_vlan d1 = voice_vlan d2 ∧ portfast d1 = portfast d2 ∧
  poe d1 = poe d2 ∧ shutdown d1 = shutdown d2.
Proof.
  intros ? ? ? ? ? ? d1 d2. subst d1 d2. unfold profile_step.
  repeat case_match; simpl; by split_and!.
Qed.

(** X15.  A line that begins with [description] sets the description to what
    follows its first space and nothing else: whatever its text says (a
    "switchport mode trunk", a "shutdown"), every other key of the profile is
    as if the line were not in the block. *)
Theorem description_line_is_inert before line after :
  startswith "description" (strip line) = true →
  let with_line := extract_config_profile (before ++ line :: after) in
  let without := extract_config_profile (before ++ after) in
  mode with_line = mode without ∧
  access_vlan with_line = access_vlan without ∧
  voice_vlan with_line = voice_vlan without ∧
  portfast with_line = portfast without ∧
  poe with_line = poe without ∧
  shutdown with_line = shutdown without ∧
  description (extract_config_profile (before ++ [line]))
    = after_first_space (strip line).
Proof.
  intros Hd. simpl. split_and!.
  7: { rewrite extract_snoc.
       destruct (step_description_blind (extract_config_profile before)
                   (extract_config_profile before) line) as [-> _]; try done.
       by rewrite Hd. }
  all: unfold extract_config_profile; rewrite !foldl_app; simpl.
  all: generalize (foldl profile_step default_profile before); intros c0.
  all: assert (mode (profile_step c0 line) = mode c0 ∧
               access_vlan (profile_step c0 line) = access_vlan c0 ∧
               voice_vlan (profile_step c0 line) = voice_vlan c0 ∧
               portfast (profile_step c0 line) = portfast c0 ∧
               poe (profile_step c0 line) = poe c0 ∧
               shutdown (profile_step c0 line) = shutdown c0)
         as (H1 & H2 & H3 & H4 & H5 & H6)
         by (unfold profile_step; rewrite Hd; by split_and!).
  all: revert H1 H2 H3 H4 H5 H6;
    generalize (profile_step c0 line); intros c1; revert c0 c1.
  all: induction after as [|l after IH]; intros c0 c1 H1 H2 H3 H4 H5 H6;
    [done|]; simpl.
  all: destruct (step_description_blind c1 c0 l H1 H2 H3 H4 H5 H6)
         as (_ & ? & ? & ? & ? & ? & ?); by apply IH.
Qed.

(** ** The profile database *)

Lemma config_lines_of_blocks show_run blocks intf :
  get_interface_blocks show_run = Ok blocks →
  config_lines_of blocks intf = blocks !! intf.
Proof.
  unfold get_interface_blocks, config_lines_of. intros Hscan.
  apply (scan_blocks_keeps_shape _ []) in Hscan; [|done|by intros ???].
  destruct (blocks !! intf) as [block|] eqn:Hb; [|done].
  destruct (Hscan intf block Hb) as (? & decl & body & ? & _ & -> & _). done.
Qed.

Section MasterDb.
Context (host : string) (interface_blocks : gmap string (list string)).

Local Abbreviation store := (db_step host interface_blocks).

Lemma db_fold_other its db m :
  m ∉ its.*1 → foldl store db its !! m = db !! m.
Proof.
  revert db. induction its as [|[k v] its IH]; intros db; [done|]. csimpl.
  rewrite not_elem_of_cons. intros [Hne Hm]. rewrite IH by done.
  unfold db_step. simpl. destruct (config_lines_of _ _); [|done].
  by rewrite lookup_insert_ne.
Qed.

Lemma db_fold_item its db m intf :
  NoDup its.*1 → (m, intf) ∈ its →
  foldl store db its !! m
  = match config_lines_of interface_blocks intf with
    | Some config_lines =>
        Some (DbProfile (extract_config_profile config_lines) host intf)
    | None => db !! m
    end.
Proof.
  revert db. induction its as [|[k v] its IH]; intros db; [by inversion 2|].
  csimpl. rewrite NoDup_cons. intros [Hk Hnd] Hin.
  apply elem_of_cons in Hin as [[= <- <-]|Hin].
  - rewrite db_fold_other by done. unfold db_step. simpl.
    destruct (config_lines_of _ _); [|done]. by rewrite lookup_insert_eq.
  - rewrite IH by done.
    assert (m ≠ k) as Hne.
    { intros ->. apply Hk. apply list_elem_of_fmap. by exists (k, intf). }
    destruct (config_lines_of interface_blocks intf); [done|].
    unfold db_step. simpl. destruct (config_lines_of _ _); [|done].
    by rewrite lookup_insert_ne.
Qed.

End MasterDb.

Lemma build_master_db_snoc items db inventory device :
  build_master_db items db (inventory ++ [device])
  = match build_master_db items db inventory with
    | Ok db0 => add_switch items db0 device
    | Raise e => Raise e
    end.
Proof.
  revert db. induction inventory as [|d inventory IH]; intros db; simpl.
  { by destruct (add_switch items db device). }
  destruct (add_switch items db d); [apply IH|done].
Qed.

(** X16.  What the last switch of the inventory adds to the database: an
    address of its MAC table gets the profile of the block named like the
    port of the table, character for character, with the switch and the
    port; an address whose port has no block of that name, or that the table
    does not list, keeps what the switches before gave it.  So a later switch
    replaces the profile of an address seen earlier, and the order in which
    the addresses of one table are visited does not matter. *)
Theorem master_db_of_last_switch
    (items : gmap string string → list (string * string))
    inventory device db :
  (∀ m, items m ≡ₚ map_to_list m) →
  ProfileDb.main items (inventory ++ [device]) = Ok db →
  ∃ db0 blocks,
    ProfileDb.main items inventory = Ok db0 ∧
    get_interface_blocks (running device) = Ok blocks ∧
    ∀ m, db !! m
         = match get_mac_to_interface (mac_table device) !! m with
           | Some intf =>
               match blocks !! intf with
               | Some config_lines =>
                   Some (DbProfile (extract_config_profile config_lines)
                                   (hostname device) intf)
               | None => db0 !! m
               end
           | None => db0 !! m
           end.
Proof.
  intros Hitems. unfold ProfileDb.main. rewrite build_master_db_snoc.
  destruct (build_master_db items ∅ inventory) as [db0|] eqn:Hdb0; [|done].
  unfold add_switch.
  destruct (get_interface_blocks (running device)) as [blocks|] eqn:Hblocks;
    [|done].
  intros [= <-]. exists db0, blocks. split_and!; [done..|]. intros m.
  set (mac_to_if := get_mac_to_interface (mac_table device)).
  assert (NoDup (items mac_to_if).*1) as Hnd.
  { rewrite Hitems. apply NoDup_fst_map_to_list. }
  destruct (mac_to_if !! m) as [intf|] eqn:Hm.
  - rewrite (db_fold_item _ _ _ _ m intf Hnd).
    + by rewrite (config_lines_of_blocks _ _ _ Hblocks).
    + rewrite Hitems. by apply elem_of_map_to_list.
  - apply db_fold_other. rewrite Hitems. intros Hin.
    apply list_elem_of_fmap in Hin as ([k v] & -> & Hin).
    apply elem_of_map_to_list in Hin. simpl in Hm. congruence.
Qed.



(** ** The collector *)

Lemma append_cons x (a b : string) : String x a +:+ b = String x (a +:+ b).
Proof. done. Qed.

Lemma append_assoc (a b c : string) : (a +:+ b) +:+ c = a +:+ (b +:+ c).
Proof. induction a as [|x a IH]; [done|]. by rewrite !append_cons, IH. Qed.

Lemma blank_free_app a b :
  blank_free (a +:+ b) = blank_free a && blank_free b.
Proof.
  induction a as [|c a IH]; [done|]. rewrite append_cons.
  unfold blank_free in *. simpl. by rewrite IH, andb_assoc.
Qed.

Lemma is_space_lower_char c : is_space (lower_char c) = is_space c.
Proof. by destruct c as [[] [] [] [] [] [] [] []]. Qed.

Lemma blank_free_lower s : blank_free (lower s) = blank_free s.
Proof.
  induction s as [|c s IH]; [done|].
  unfold blank_free in *. simpl. by rewrite is_space_lower_char, IH.
Qed.

(** Every piece of [s.split()] is free of blanks. *)
Lemma split_ws_blank_free s t : t ∈ split_ws s → blank_free t = true.
Proof.
  revert t. induction s as [|c s IH]; intros t; simpl; [by inversion 1|].
  destruct (is_space c) eqn:Hc; [by apply IH|].
  assert (blank_free (String c "") = true) as Hone.
  { apply blank_free_cons. by split. }
  destruct (starts_token s).
  - destruct (split_ws s) as [|t0 ts] eqn:Hs; simpl.
    + intros Ht. by apply list_elem_of_singleton in Ht as ->.
    + intros Ht. apply elem_of_cons in Ht as [->|Ht].
      * apply blank_free_cons. split; [done|]. apply IH. by left.
      * apply IH. by right.
  - intros Ht. apply elem_of_cons in Ht as [->|Ht]; [done|by apply IH].
Qed.

(** *** What is collected *)

Lemma table_fold_rows names lines st :
  Forall (row_ok names) (Collector.mac_entries st) →
  Forall (row_ok names)
         (Collector.mac_entries (foldl (Collector.table_step names) st lines)).
Proof.
  revert st. induction lines as [|raw lines IH]; intros st Hst; [done|].
  simpl. apply IH. unfold Collector.table_step.
  destruct (startswith "Vlan" (strip raw) && contains "Mac Address" (strip raw));
    [done|].
  destruct (Collector.parsing_entries st && negb (is_empty (strip raw))
            && negb (startswith "----" (strip raw))); [|done].
  pose proof (split_ws_blank_free (strip raw)) as Hfree.
  pose proof (split_ws_nonempty (strip raw)) as Hne.
  destruct (split_ws (strip raw)) as [|p0 [|p1 [|p2 [|p3 [|p4 ps]]]]]; try done.
  destruct (Collector.isdigit p0) eqn:Hd; [|done]. simpl.
  apply Forall_app. split; [done|]. constructor; [|done].
  unfold row_ok. simpl. split_and!; try done.
  - apply lower_idemp.
  - apply Hfree. by left.
  - rewrite blank_free_lower. apply Hfree. right. by left.
  - apply Hfree. do 3 right. by left.
  - apply Hne. do 3 right. by left.
  - intros Hl. apply (Hne p1); [right; by left|]. by destruct p1.
Qed.

Lemma dict_set_keys k v d :
  (Collector.dict_set k v d).*1 = if decide (k ∈ d.*1) then d.*1 else d.*1 ++ [k].
Proof.
  induction d as [|[k' v'] d IH]; [done|]. csimpl.
  destruct (String.eqb_spec k k') as [->|Hne]; csimpl.
  - rewrite decide_True; [done|by left].
  - rewrite IH. destruct (decide (k ∈ d.*1)) as [Hin|Hout].
    + rewrite decide_True; [done|by right].
    + rewrite decide_False; [done|]. rewrite not_elem_of_cons. done.
Qed.

Lemma dict_set_NoDup k v d : NoDup d.*1 → NoDup (Collector.dict_set k v d).*1.
Proof.
  intros Hnd. rewrite dict_set_keys. case_decide; [done|].
  apply NoDup_app. split_and!; [done| |apply NoDup_singleton].
  intros x Hx Hk. apply list_elem_of_singleton in Hk as ->. done.
Qed.

Lemma dict_set_Forall (P : string * string → Prop) k v d :
  P (k, v) → Forall P d → Forall P (Collector.dict_set k v d).
Proof.
  intros Hkv. induction 1 as [|[k' v'] d Hx Hd IH]; simpl.
  { by repeat constructor. }
  destruct (String.eqb k k'); by constructor.
Qed.

Lemma names_fold_ok lines names :
  NoDup names.*1 →
  Forall (λ item, Collector.isdigit item.1 = true ∧ blank_free item.1 = true ∧
                  blank_free item.2 = true) names →
  let names' := foldl Collector.vlan_names_step names lines in
  NoDup names'.*1 ∧
  Forall (λ item, Collector.isdigit item.1 = true ∧ blank_free item.1 = true ∧
                  blank_free item.2 = true) names'.
Proof.
  revert names. induction lines as [|line lines IH]; intros names Hnd Hall;
    [done|].
  simpl. apply IH; unfold Collector.vlan_names_step;
    pose proof (split_ws_blank_free line) as Hfree;
    destruct (split_ws line) as [|p0 [|p1 ps]]; try done;
    destruct (Collector.isdigit p0) eqn:Hd; try done.
  - by apply dict_set_NoDup.
  - apply dict_set_Forall; [|done]. simpl. split_and!; [done|..].
    + apply Hfree. by left.
    + apply Hfree. right. by left.
Qed.

(** X18.  Every row that [collect_mac_table] returns is made of tokens of a
    four-column line of the MAC table: the VLAN column passes [isdigit], the
    address is in lower case, no column holds a blank, and the name is the one
    the VLAN listing gives to that id, or empty. *)
Theorem collected_rows_are_table_tokens connect r :
  r ∈ Collector.entries_of (Collector.collect_mac_table connect) →
  Collector.isdigit (Collector.vlan r) = true ∧
  lower (Collector.mac r) = Collector.mac r ∧
  blank_free (Collector.vlan r) = true ∧
  blank_free (Collector.mac r) = true ∧
  blank_free (Collector.interface r) = true ∧
  Collector.interface r ≠ "" ∧ Collector.mac r ≠ "" ∧
  Collector.vlan_name r
  = Collector.dict_get (Collector.vlan r)
      (Collector.names_of (Collector.collect_mac_table connect)).
Proof.
  unfold Collector.collect_mac_table.
  destruct connect as [send|]; [|by inversion 1].
  destruct (is_empty _); [by inversion 1|].
  destruct (split_ws _) as [|t ts]; [by inversion 1|]. simpl.
  intros Hr.
  apply (proj1 (Forall_forall
    (row_ok (foldl Collector.vlan_names_step [] (splitlines (send "show vlan brief"))))
    _) (table_fold_rows _ _ (Collector.TableState [] false) (Forall_nil_2 _)) r Hr).
Qed.

Lemma table_fold_no_header names lines st :
  Collector.parsing_entries st = false →
  Forall (λ l, startswith "Vlan" (strip l) && contains "Mac Address" (strip l)
               = false) lines →
  foldl (Collector.table_step names) st lines = st.
Proof.
  intros Hp. induction 1 as [|l lines Hl _ IH]; [done|]. simpl.
  assert (Collector.table_step names st l = st) as ->; [|done].
  unfold Collector.table_step. by rewrite Hl, Hp.
Qed.

(** X19.  Rows are read only after the header of the MAC table: when no line
    of the answer, trimmed, begins with [Vlan] and holds [Mac Address], no
    row is collected, however many address lines the answer has. *)
Theorem no_header_no_rows (send_command : string → string) :
  Forall (λ l, startswith "Vlan" (strip l) && contains "Mac Address" (strip l)
               = false)
         (splitlines (send_command "show mac address-table")) →
  Collector.entries_of (Collector.collect_mac_table (Some send_command)) = [].
Proof.
  intros Hlines. unfold Collector.collect_mac_table.
  destruct (is_empty _); [done|]. destruct (split_ws _) as [|t ts]; [done|].
  simpl. by rewrite table_fold_no_header.
Qed.

(** X20.  No file is written exactly when the connection fails, the MAC table
    answer is blank, the hostname answer has no token, or the running
    configuration is empty: in the first three cases whatever the switch
    answered to the other commands is dropped. *)
Theorem nothing_saved_iff connect :
  Collector.collected_file connect = None ↔
  connect = None ∨
  ∃ send_command,
    connect = Some send_command ∧
    (strip (send_command "show mac address-table") = "" ∨
     split_ws (send_command "show running-config | include hostname") = [] ∨
     send_command "show running-config" = "").
Proof.
  unfold Collector.collected_file, Collector.collect_mac_table.
  destruct connect as [send|]; [|by split; [left|]].
  destruct (strip (send "show mac address-table")) as [|c s] eqn:Hmac; simpl.
  { split; [|done]. intros _. right. exists send. auto. }
  destruct (split_ws (send "show running-config | include hostname"))
    as [|t ts] eqn:Hhost; simpl.
  { split; [|done]. intros _. right. exists send. auto. }
  destruct (send "show running-config") as [|c' s'] eqn:Hrun; simpl.
  { split; [|done]. intros _. right. exists send. rewrite Hrun. auto. }
  split; [done|]. intros [?|(send' & [= <-] & [?|[?|?]])]; congruence.
Qed.

(** *** What is written is read back *)

Lemma one_line_cons c s :
  one_line (String c s) = true ↔
  Ascii.eqb c LF || Ascii.eqb c CR = false ∧ one_line s = true.
Proof.
  unfold one_line. simpl. rewrite andb_true_iff, negb_true_iff. done.
Qed.

Lemma file_lines_line a rest :
  one_line a = true →
  file_lines (a +:+ Collector.newline +:+ rest) = a :: file_lines rest.
Proof.
  induction a as [|c a IH].
  - intros _. change (file_lines (String LF rest) = "" :: file_lines rest).
    by destruct rest.
  - rewrite one_line_cons. intros [Hc Ha]. rewrite append_cons. simpl.
    rewrite Hc. by rewrite IH.
Qed.

Lemma file_lines_concat texts rest :
  Forall (λ t, one_line t = true) texts →
  file_lines (Collector.concat_strings ((λ t, t +:+ Collector.newline) <$> texts)
              +:+ rest)
  = texts ++ file_lines rest.
Proof.
  induction 1 as [|t texts Ht _ IH]; [done|]. csimpl.
  rewrite !append_assoc. by rewrite file_lines_line, IH.
Qed.

Lemma blank_free_one_line s : blank_free s = true → one_line s = true.
Proof.
  induction s as [|c s IH]; [done|].
  rewrite blank_free_cons, one_line_cons. intros [Hc Hs]. split; [|auto].
  revert Hc. by destruct c as [[] [] [] [] [] [] [] []].
Qed.

Lemma field_spec s : field s = true ↔ blank_free s = true ∧ comma_free s = true.
Proof. unfold field. by rewrite andb_true_iff. Qed.

Lemma split_char_field p rest :
  comma_free p = true →
  split_char "," (p +:+ "," +:+ rest) = p :: split_char "," rest.
Proof. apply split_char_app. Qed.

Lemma isdigit_head s :
  Collector.isdigit s = true →
  ∃ c t, s = String c t ∧ Collector.is_digit_char c = true.
Proof.
  destruct s as [|c t]; [done|]. unfold Collector.isdigit. simpl.
  rewrite andb_true_iff. intros [Hc _]. eauto.
Qed.

Lemma digit_line_is_no_header s rest :
  Collector.isdigit s = true →
  is_empty (s +:+ rest) = false ∧ startswith "===" (s +:+ rest) = false.
Proof.
  intros Hs. apply isdigit_head in Hs as (c & t & -> & Hc).
  rewrite append_cons. split; [done|]. revert Hc.
  by destruct c as [[] [] [] [] [] [] [] []].
Qed.

Lemma row_line_text r :
  Collector.row_line r = row_text r +:+ Collector.newline.
Proof. unfold Collector.row_line, row_text. by rewrite !append_assoc. Qed.

Lemma name_line_text item :
  Collector.name_line item = name_text item +:+ Collector.newline.
Proof. unfold Collector.name_line, name_text. by rewrite !append_assoc. Qed.

Lemma row_text_blank_free r : row_writable r → blank_free (row_text r) = true.
Proof.
  intros (_ & _ & Hv & Hm & Hi & Hn).
  apply field_spec in Hv as [Hv _], Hm as [Hm _], Hi as [Hi _], Hn as [Hn _].
  unfold row_text. rewrite !blank_free_app, Hv, Hm, Hi, Hn. done.
Qed.

Lemma name_text_blank_free item :
  name_writable item → blank_free (name_text item) = true.
Proof.
  intros (_ & Hk & Hv). apply field_spec in Hk as [Hk _], Hv as [Hv _].
  unfold name_text. rewrite !blank_free_app, Hk, Hv. done.
Qed.

(** A row line read in the MAC section. *)
Lemma collector_step_row st r :
  row_writable r → current_section st = Some MacSection →
  collector_step st (row_text r)
  = Collector (mac_table_entries st ++ [to_entry r]) (vlan_names st)
              (Some MacSection).
Proof.
  intros Hr Hsec. pose proof (row_text_blank_free r Hr) as Hfree.
  destruct Hr as (Hd & Hlow & Hv & Hm & Hi & Hn).
  apply field_spec in Hv as [Hv Hv'], Hm as [Hm Hm'], Hi as [Hi Hi'],
    Hn as [Hn Hn'].
  unfold collector_step. rewrite (strip_blank_free _ Hfree).
  destruct (digit_line_is_no_header (Collector.vlan r)
    ("," +:+ Collector.mac r +:+ "," +:+ Collector.interface r +:+ ","
       +:+ Collector.vlan_name r) Hd) as [He Hh].
  fold (row_text r) in He, Hh. rewrite He, Hh, Hsec.
  unfold mac_section_entry, row_text.
  rewrite !split_char_field, split_char_comma_free by done.
  rewrite !strip_blank_free, Hlow by done. done.
Qed.

(** A catalog line read in the VLAN section. *)
Lemma collector_step_name st item :
  name_writable item → current_section st = Some VlanSection →
  collector_step st (name_text item)
  = Collector (mac_table_entries st) (<[item.1 := item.2]> (vlan_names st))
              (Some VlanSection).
Proof.
  intros Hitem Hsec. pose proof (name_text_blank_free item Hitem) as Hfree.
  destruct Hitem as (Hd & Hk & Hv).
  apply field_spec in Hk as [Hk Hk'], Hv as [Hv Hv'].
  unfold collector_step. rewrite (strip_blank_free _ Hfree).
  destruct (digit_line_is_no_header item.1 ("," +:+ item.2) Hd) as [He Hh].
  fold (name_text item) in He, Hh. rewrite He, Hh, Hsec.
  unfold vlan_section_name, name_text.
  rewrite !split_char_field, split_char_comma_free by done.
  rewrite !strip_blank_free by done. done.
Qed.

Lemma collector_fold_rows rows st :
  Forall row_writable rows → current_section st = Some MacSection →
  foldl collector_step st (row_text <$> rows)
  = Collector (mac_table_entries st ++ (to_entry <$> rows)) (vlan_names st)
              (Some MacSection).
Proof.
  intros Hrows. revert st. induction Hrows as [|r rows Hr _ IH]; intros st Hsec.
  { simpl. rewrite app_nil_r. destruct st. simpl in *. by subst. }
  csimpl. rewrite collector_step_row by done. rewrite IH by done. simpl.
  by rewrite <-(assoc_L (++)).
Qed.

Lemma collector_fold_names names st :
  Forall name_writable names → current_section st = Some VlanSection →
  foldl collector_step st (name_text <$> names)
  = Collector (mac_table_entries st)
              (foldl (λ m item, <[item.1 := item.2]> m) (vlan_names st) names)
              (Some VlanSection).
Proof.
  intros Hnames. revert st.
  induction Hnames as [|item names Hitem _ IH]; intros st Hsec.
  { simpl. destruct st. simpl in *. by subst. }
  csimpl. rewrite collector_step_name by done. by rewrite IH.
Qed.

(** Lines of the running configuration that are no section header. *)
Lemma collector_fold_running lines st :
  current_section st = Some RunningSection →
  Forall (λ l, startswith "===" (strip l) = false) lines →
  foldl collector_step st lines = st.
Proof.
  intros Hsec. induction 1 as [|l lines Hl _ IH]; [done|]. simpl.
  assert (collector_step st l = st) as ->; [|done].
  unfold collector_step. rewrite Hl, Hsec. by destruct (is_empty (strip l)).
Qed.

Lemma insert_fold_list_to_map (items : list (string * string)) :
  NoDup items.*1 →
  foldl (λ (m : gmap string string) item, <[item.1 := item.2]> m) ∅ items
  = list_to_map items.
Proof.
  assert (∀ (m : gmap string string),
            NoDup items.*1 → (∀ k, k ∈ items.*1 → m !! k = None) →
            foldl (λ (m : gmap string string) item, <[item.1 := item.2]> m) m items
            = list_to_map items ∪ m) as Hgen.
  { induction items as [|[k v] items IH]; intros m Hnd Hfresh; csimpl.
    { by rewrite (left_id_L ∅ (∪)). }
    apply NoDup_cons in Hnd as [Hk Hnd].
    rewrite IH; [|done|].
    - rewrite <-insert_union_r; [|by apply not_elem_of_list_to_map_1].
      by rewrite insert_union_l.
    - intros k' Hk'. rewrite lookup_insert_ne; [|by intros ->].
      apply Hfresh. by right. }
  intros Hnd. rewrite Hgen; [|done|done]. by rewrite (right_id_L ∅ (∪)).
Qed.

Lemma file_lines_blank rest :
  file_lines (Collector.newline +:+ rest) = "" :: file_lines rest.
Proof. exact (file_lines_line "" rest eq_refl). Qed.

Lemma step_header_mac st :
  collector_step st "=== MAC_ADDRESS_TABLE ==="
  = Collector (mac_table_entries st) (vlan_names st) (Some MacSection).
Proof. done. Qed.

Lemma step_header_vlan st :
  collector_step st "=== VLAN_NAMES ==="
  = Collector (mac_table_entries st) (vlan_names st) (Some VlanSection).
Proof. done. Qed.

Lemma step_header_running st :
  collector_step st "=== RUNNING_CONFIG ==="
  = Collector (mac_table_entries st) (vlan_names st) (Some RunningSection).
Proof. done. Qed.

Lemma step_blank st : collector_step st "" = st.
Proof. done. Qed.

Lemma step_no_addresses entries names :
  collector_step (Collector entries names (Some MacSection))
    "No MAC addresses found on the switch."
  = Collector entries names (Some MacSection).
Proof. done. Qed.

(** The lines of the file that [save_to_single_file] writes. *)
Lemma saved_file_lines rows names running :
  Forall row_writable rows → Forall name_writable names →
  file_lines (Collector.save_to_single_file rows names running)
  = "=== MAC_ADDRESS_TABLE ==="
    :: match rows with
       | [] => ["No MAC addresses found on the switch."]
       | _ :: _ => row_text <$> rows
       end
    ++ "" :: "=== VLAN_NAMES ===" :: (name_text <$> names)
    ++ "" :: "=== RUNNING_CONFIG ===" :: file_lines running.
Proof.
  intros Hrows Hnames. unfold Collector.save_to_single_file.
  rewrite file_lines_line by done. f_equal.
  assert (Collector.concat_strings (Collector.name_line <$> names)
          = Collector.concat_strings
              ((λ t, t +:+ Collector.newline) <$> (name_text <$> names))) as ->.
  { f_equal. rewrite <-list_fmap_compose. apply list_fmap_ext.
    intros _ item _. apply name_line_text. }
  assert (∀ rest,
    file_lines (Collector.newline +:+ "=== VLAN_NAMES ===" +:+ Collector.newline
      +:+ Collector.concat_strings
            ((λ t, t +:+ Collector.newline) <$> (name_text <$> names))
      +:+ rest)
    = "" :: "=== VLAN_NAMES ===" :: (name_text <$> names) ++ file_lines rest)
    as Hnames_part.
  { intros rest. rewrite file_lines_blank, file_lines_line by done.
    rewrite file_lines_concat; [done|].
    apply Forall_fmap. eapply Forall_impl; [exact Hnames|].
    intros item Hitem. simpl. by apply blank_free_one_line, name_text_blank_free. }
  assert (file_lines (Collector.newline +:+ "=== RUNNING_CONFIG ==="
                      +:+ Collector.newline +:+ running)
          = "" :: "=== RUNNING_CONFIG ===" :: file_lines running) as Hrun_part.
  { by rewrite file_lines_blank, file_lines_line. }
  destruct rows as [|r rows].
  - rewrite append_assoc, file_lines_line by done.
    rewrite Hnames_part, Hrun_part. done.
  - assert (Collector.concat_strings (Collector.row_line <$> r :: rows)
            = Collector.concat_strings
                ((λ t, t +:+ Collector.newline) <$> (row_text <$> r :: rows)))
      as ->.
    { f_equal. rewrite <-list_fmap_compose. apply list_fmap_ext.
      intros _ r' _. apply row_line_text. }
    rewrite file_lines_concat.
    + rewrite Hnames_part, Hrun_part. done.
    + apply Forall_fmap. eapply Forall_impl; [exact Hrows|].
      intros r' Hr'. simpl. by apply blank_free_one_line, row_text_blank_free.
Qed.

Lemma saved_file_parse rows names running :
  Forall row_writable rows → Forall name_writable names → NoDup names.*1 →
  Forall (λ l, startswith "===" (strip l) = false) (file_lines running) →
  parse_config_collector_output
    (Collector.save_to_single_file rows names running)
  = (to_entry <$> rows, list_to_map names).
Proof.
  intros Hrows Hnames Hnd Hrun. unfold parse_config_collector_output.
  rewrite saved_file_lines by done. simpl foldl.
  rewrite step_header_mac. simpl mac_table_entries. simpl vlan_names.
  rewrite foldl_app.
  assert (foldl collector_step (Collector [] ∅ (Some MacSection))
            match rows with
            | [] => ["No MAC addresses found on the switch."]
            | _ :: _ => row_text <$> rows
            end
          = Collector (to_entry <$> rows) ∅ (Some MacSection)) as ->.
  { destruct rows as [|r rows]; [done|].
    by rewrite collector_fold_rows. }
  simpl foldl. rewrite step_blank, step_header_vlan.
  simpl mac_table_entries. simpl vlan_names.
  rewrite foldl_app, collector_fold_names by done.
  simpl foldl. rewrite step_blank, step_header_running.
  simpl mac_table_entries. simpl vlan_names.
  rewrite collector_fold_running by done. simpl.
  by rewrite insert_fold_list_to_map.
Qed.

(** X21.  What [save_to_single_file] writes, [parse_config_collector_output]
    reads back: the rows in their order (the name of the VLAN as the role)
    and the catalog, provided that no field holds a comma or a blank, the
    VLAN ids pass [isdigit], the addresses are in lower case, and no line of
    the running configuration, trimmed, begins with [===]. *)
Theorem saved_file_reads_back rows names running :
  Forall row_writable rows → Forall name_writable names → NoDup names.*1 →
  Forall (λ l, startswith "===" (strip l) = false) (file_lines running) →
  parse_config_collector_output
    (Collector.save_to_single_file rows names running)
  = (to_entry <$> rows, list_to_map names).
Proof. apply saved_file_parse. Qed.

Lemma isdigit_comma_free s : Collector.isdigit s = true → comma_free s = true.
Proof.
  unfold Collector.isdigit. rewrite andb_true_iff. intros [_ Hs].
  induction s as [|c s IH]; [done|]. simpl in Hs.
  apply andb_true_iff in Hs as [Hc Hs]. apply comma_free_cons.
  split; [|by apply IH]. revert Hc. by destruct c as [[] [] [] [] [] [] [] []].
Qed.

Lemma dict_get_Forall (P : string → Prop) k names :
  P "" → Forall (λ item : string * string, P item.2) names →
  P (Collector.dict_get k names).
Proof.
  intros Hnil. induction 1 as [|[k' v'] names Hv _ IH]; [done|]. simpl.
  by destruct (String.eqb k k').
Qed.

(** What every result of [collect_mac_table] satisfies. *)
Lemma collected_ok connect :
  Forall (row_ok (Collector.names_of (Collector.collect_mac_table connect)))
         (Collector.entries_of (Collector.collect_mac_table connect)) ∧
  NoDup (Collector.names_of (Collector.collect_mac_table connect)).*1 ∧
  Forall (λ item, Collector.isdigit item.1 = true ∧ blank_free item.1 = true ∧
                  blank_free item.2 = true)
         (Collector.names_of (Collector.collect_mac_table connect)).
Proof.
  unfold Collector.collect_mac_table.
  destruct connect as [send|]; [|by split_and!; constructor].
  destruct (is_empty _); [by split_and!; constructor|].
  destruct (split_ws _) as [|t ts]; [by split_and!; constructor|]. simpl.
  destruct (names_fold_ok (splitlines (send "show vlan brief")) [])
    as [Hnd Hnames]; [constructor|constructor|].
  split_and!; [|done..]. apply table_fold_rows. constructor.
Qed.

(** X22.  The file that the collector script writes for a switch is read back
    by the deployment script as the rows and the catalog that were collected,
    as long as no address, port or VLAN name of the switch holds a comma and
    no line of its running configuration, trimmed, begins with [===].  The
    other conditions of the file format hold for everything that is
    collected. *)
Theorem collected_file_reads_back (send_command : string → string) text :
  Forall (λ r, comma_free (Collector.mac r) = true ∧
               comma_free (Collector.interface r) = true)
         (Collector.entries_of (Collector.collect_mac_table (Some send_command))) →
  Forall (λ item : string * string, comma_free item.2 = true)
         (Collector.names_of (Collector.collect_mac_table (Some send_command))) →
  Forall (λ l, startswith "===" (strip l) = false)
         (file_lines (Collector.running_config_of
                        (Collector.collect_mac_table (Some send_command)))) →
  Collector.collected_file (Some send_command) = Some text →
  parse_config_collector_output text
  = (to_entry <$> Collector.entries_of
                    (Collector.collect_mac_table (Some send_command)),
     list_to_map (Collector.names_of
                    (Collector.collect_mac_table (Some send_command)))).
Proof.
  intros Hrows Hnames Hrun. unfold Collector.collected_file.
  destruct (collected_ok (Some send_command)) as (Hok & Hnd & Hcat).
  destruct (is_empty _); [done|]. intros [= <-].
  apply saved_file_parse; [| |done|done].
  - apply Forall_forall. intros r Hr.
    pose proof (proj1 (Forall_forall _ _) Hok r Hr)
      as (Hd & Hlow & Hv & Hm & Hi & _ & _ & Hname).
    pose proof (proj1 (Forall_forall _ _) Hrows r Hr) as [Hcm Hci].
    unfold row_writable. split_and!; [done|done|..]; apply field_spec.
    + split; [done|]. by apply isdigit_comma_free.
    + done.
    + done.
    + rewrite Hname. split.
      * apply (dict_get_Forall (λ s, blank_free s = true)); [done|].
        eapply Forall_impl; [exact Hcat|]. by intros item (_ & _ & ?).
      * by apply (dict_get_Forall (λ s, comma_free s = true)).
  - apply Forall_forall. intros item Hitem.
    pose proof (proj1 (Forall_forall _ _) Hcat item Hitem) as (Hd & Hk & Hv).
    pose proof (proj1 (Forall_forall _ _) Hnames item Hitem) as Hc.
    unfold name_writable. split_and!; [done|..]; apply field_spec.
    + split; [done|]. by apply isdigit_comma_free.
    + done.
Qed.

(** ** More on the deployment parsers and the builder *)

Lemma mac_table_row_tokens line m i :
  mac_table_row line = Some (m, i) → lower m = m ∧ m ≠ "" ∧ i ≠ "".
Proof.
  unfold mac_table_row. destruct (is_empty (strip line)); [done|].
  destruct (starts_with_digit (strip line)); [|done].
  pose proof (split_ws_nonempty (strip line)) as Hne.
  destruct (split_ws (strip line)) as [|p0 [|p1 [|p2 [|p3 ps]]]]; try done.
  intros [= <- <-]. split_and!.
  - apply lower_idemp.
  - assert (p1 ≠ "") as Hp1 by (apply Hne; right; by left). by destruct p1.
  - apply Hne. do 3 right. by left.
Qed.

Lemma mac_map_fold_tokens lines (mac_map : gmap string string) :
  (∀ m i, mac_map !! m = Some i → lower m = m ∧ m ≠ "" ∧ i ≠ "") →
  ∀ m i, foldl mac_map_step mac_map lines !! m = Some i →
         lower m = m ∧ m ≠ "" ∧ i ≠ "".
Proof.
  revert mac_map. induction lines as [|line lines IH]; intros mac_map Hmap;
    [done|].
  simpl. apply IH. unfold mac_map_step.
  destruct (mac_table_row line) as [[k v]|] eqn:Hrow; [|done].
  intros m i. destruct (decide (k = m)) as [->|Hne].
  - rewrite lookup_insert_eq. intros [= <-]. by eapply mac_table_row_tokens.
  - rewrite lookup_insert_ne by done. apply Hmap.
Qed.

(** X23.  In the index that [parse_new_switch_mac_table] builds every address
    is a non-empty lower-case token and every port name is non-empty: the
    builder's test [if not new_interface] fails on it only for an address that
    the table does not list. *)
Theorem index_entries_are_tokens output m i :
  parse_new_switch_mac_table output !! m = Some i →
  lower m = m ∧ m ≠ "" ∧ i ≠ "" ∧
  lookup_interface (parse_new_switch_mac_table output) m = Some i.
Proof.
  intros Hm.
  destruct (mac_map_fold_tokens (splitlines output) ∅ (λ m i H, ltac:(done))
              m i Hm) as (Hlow & Hne & Hi).
  split_and!; [done..|]. unfold lookup_interface. rewrite Hm. by destruct i.
Qed.

Lemma collector_fold_no_section lines st :
  current_section st = None →
  Forall (λ l, startswith "===" (strip l) = false) lines →
  foldl collector_step st lines = st.
Proof.
  intros Hsec. induction 1 as [|l lines Hl _ IH]; [done|]. simpl.
  assert (collector_step st l = st) as ->; [|done].
  unfold collector_step. rewrite Hl, Hsec. by destruct (is_empty (strip l)).
Qed.

(** X24.  A file without a section marker (no line that, trimmed, begins with
    [===]) is read as no rows and an empty catalog: nothing is raised and no
    line outside a section is taken for a row. *)
Theorem no_section_marker_no_data text :
  Forall (λ l, startswith "===" (strip l) = false) (file_lines text) →
  parse_config_collector_output text = ([], ∅).
Proof.
  intros Hlines. unfold parse_config_collector_output.
  by rewrite collector_fold_no_section.
Qed.

Lemma creation_step_same_vlan existing exclude acc e e' :
  vlan e = vlan e' →
  creation_step existing exclude acc e = creation_step existing exclude acc e'.
Proof. unfold creation_step. by intros ->. Qed.

Lemma assign_step_same_keys index modes exclude st e e' :
  vlan e = vlan e' → mac e = mac e' →
  assign_step index modes exclude st e = assign_step index modes exclude st e'.
Proof. unfold assign_step. by intros -> ->. Qed.

(** X25.  The plan and the messages depend on the VLAN id and the address of
    the legacy records only: the port the address had on the old switch and
    the role are never read. *)
Theorem legacy_port_is_ignored (set_iter : gset string → list string)
    entries entries' names existing index modes exclude :
  Forall2 (λ e e', vlan e = vlan e' ∧ mac e = mac e') entries entries' →
  build_config_commands set_iter entries names existing index modes exclude
  = build_config_commands set_iter entries' names existing index modes exclude.
Proof.
  intros Hsame. unfold build_config_commands.
  assert (vlans_to_create entries existing exclude
          = vlans_to_create entries' existing exclude) as ->.
  { unfold vlans_to_create. generalize (∅ : gset string).
    induction Hsame as [|e e' l l' [Hv _] _ IH]; intros acc; [done|]. simpl.
    by rewrite (creation_step_same_vlan _ _ _ e e'), IH. }
  destruct (sorted_by_int _) as [vs|]; [|done].
  assert (∀ st, assignment_pass index modes exclude st entries
                = assignment_pass index modes exclude st entries') as ->; [|done].
  unfold assignment_pass.
  induction Hsame as [|e e' l l' [Hv Hm] _ IH]; intros st; [done|]. simpl.
  by rewrite (assign_step_same_keys _ _ _ _ e e'), IH.
Qed.

Lemma lstrip_lower s : lstrip (lower s) = lower (lstrip s).
Proof.
  induction s as [|c s IH]; [done|]. simpl. rewrite is_space_lower_char.
  by destruct (is_space c).
Qed.

Lemma is_empty_lower s : is_empty (lower s) = is_empty s.
Proof. by destruct s. Qed.

Lemma rstrip_lower s : rstrip (lower s) = lower (rstrip s).
Proof.
  induction s as [|c s IH]; [done|]. simpl.
  rewrite is_space_lower_char, IH, is_empty_lower.
  by destruct (is_space c && is_empty (rstrip s)).
Qed.

Lemma strip_lower s : strip (lower s) = lower (strip s).
Proof. unfold strip. by rewrite lstrip_lower, rstrip_lower. Qed.

Lemma modes_fold_normalised lines st :
  (∀ i m, interface_modes st !! i = Some (Some m) → lower m = m ∧ strip m = m) →
  ∀ i m, interface_modes (foldl modes_step st lines) !! i = Some (Some m) →
         lower m = m ∧ strip m = m.
Proof.
  revert st. induction lines as [|raw lines IH]; intros st Hst; [done|].
  simpl. apply IH. unfold modes_step.
  destruct (startswith "Name:" (strip raw)).
  - destruct (split_ws (strip raw)) as [|p0 [|p1 ps]]; [done..|]. simpl.
    intros i m. destruct (decide (p1 = i)) as [->|Hne].
    + by rewrite lookup_insert_eq.
    + rewrite lookup_insert_ne by done. apply Hst.
  - destruct (truthy (current_intf st) && contains "Operational Mode:" (strip raw));
      [|done].
    destruct (current_intf st) as [intf|]; [|done].
    destruct (split_str "Operational Mode:" (strip raw)) as [|q0 [|q1 qs]];
      [done..|]. simpl.
    intros i m. destruct (decide (intf = i)) as [->|Hne].
    + rewrite lookup_insert_eq. intros [= <-]. split.
      * apply lower_idemp.
      * by rewrite strip_lower, strip_idemp.
    + rewrite lookup_insert_ne by done. apply Hst.
Qed.

(** X26.  A mode that [get_interface_modes] records is in lower case and has
    no blank at either end, whatever the case and the spacing of the report:
    the builder's comparison with "static access" is a comparison of
    normalised text. *)
Theorem interface_modes_are_normalised output i m :
  get_interface_modes output !! i = Some (Some m) →
  lower m = m ∧ strip m = m.
Proof.
  apply (modes_fold_normalised (splitlines output) (ModesState ∅ None)).
  simpl. intros i' m'. by rewrite lookup_empty.
Qed.

(** *** The order of iteration over a set *)

Lemma mapM_with_int_key l keyed :
  mapM with_int_key l = Some keyed →
  keyed = (λ v, (default 0%Z (int_of_str v), v)) <$> l.
Proof.
  intros Hm. apply mapM_Some_1 in Hm.
  induction Hm as [|v kv l keyed Hv _ IH]; [done|]. csimpl. f_equal; [|done].
  unfold with_int_key in Hv. destruct (int_of_str v); by simplify_eq/=.
Qed.

Lemma sorted_by_int_perm l1 l2 :
  l1 ≡ₚ l2 →
  (∀ v w k, v ∈ l1 → w ∈ l1 → has_int v k → has_int w k → v = w) →
  sorted_by_int l1 = sorted_by_int l2.
Proof.
  intros Hp Hinj. unfold sorted_by_int.
  destruct (mapM with_int_key l1) as [keyed1|] eqn:H1.
  - assert (is_Some (mapM with_int_key l2)) as [keyed2 H2].
    { apply mapM_is_Some. rewrite <-Hp. apply mapM_is_Some. eauto. }
    rewrite H2. f_equal. f_equal.
    pose proof (mapM_Some_1 _ _ _ H1) as Hall.
    apply mapM_with_int_key in H1, H2. 
    apply (StronglySorted_unique_strong key_le);
      [|apply sort_by_key_sorted..|].
    + intros x1 x2 Hx1 Hx2 Hle1 Hle2.
      rewrite sort_by_key_perm in Hx1. rewrite sort_by_key_perm in Hx2.
      rewrite H2, <-Hp in Hx2. rewrite H1 in Hx1.
      apply list_elem_of_fmap in Hx1 as (v & -> & Hv).
      apply list_elem_of_fmap in Hx2 as (w & -> & Hw).
      unfold key_le in *. simpl in *.
      assert (is_Some (int_of_str v)) as [kv Hkv].
      { apply list_elem_of_lookup in Hv as [n Hn].
        destruct (Forall2_lookup_l _ _ _ _ _ Hall Hn) as (y & _ & Hy).
        unfold with_int_key in Hy. destruct (int_of_str v); [eauto|done]. }
      assert (is_Some (int_of_str w)) as [kw Hkw].
      { apply list_elem_of_lookup in Hw as [n Hn].
        destruct (Forall2_lookup_l _ _ _ _ _ Hall Hn) as (y & _ & Hy).
        unfold with_int_key in Hy. destruct (int_of_str w); [eauto|done]. }
      rewrite Hkv, Hkw in *. simpl in *.
      assert (kv = kw) as -> by lia.
      by rewrite (Hinj v w kw Hv Hw Hkv Hkw).
    + rewrite !sort_by_key_perm, H1, H2. by apply fmap_Permutation.
  - destruct (mapM with_int_key l2) as [keyed2|] eqn:H2; [|done].
    exfalso. assert (is_Some (mapM with_int_key l1)) as [? ?]; [|congruence].
    apply mapM_is_Some. rewrite Hp. apply mapM_is_Some. eauto.
Qed.

(** X27.  The order in which the interpreter iterates over the set of pending
    VLANs does not show in the result of [build_config_commands] when no two
    pending ids denote the same number: the sort then fixes the order. *)
Theorem plan_independent_of_set_order
    (set_iter1 set_iter2 : gset string → list string)
    entries names existing index modes exclude :
  (∀ s, set_iter1 s ≡ₚ elements s) →
  (∀ s, set_iter2 s ≡ₚ elements s) →
  (∀ v w k, v ∈ vlans_to_create entries existing exclude →
            w ∈ vlans_to_create entries existing exclude →
            has_int v k → has_int w k → v = w) →
  build_config_commands set_iter1 entries names existing index modes exclude
  = build_config_commands set_iter2 entries names existing index modes exclude.
Proof.
  intros Hp1 Hp2 Hinj. unfold build_config_commands.
  rewrite (sorted_by_int_perm
             (set_iter1 (vlans_to_create entries existing exclude))
             (set_iter2 (vlans_to_create entries existing exclude))); [done| |].
  - by rewrite Hp1, Hp2.
  - intros v w k Hv Hw. rewrite Hp1 in Hv, Hw.
    apply elem_of_elements in Hv, Hw. by apply Hinj.
Qed.

(** ** The further properties on the sample sessions *)

Lemma sample_run :
  Deploy.main elements Sample.legacy_csv "1400" (Some Session.new_switch) " Yes "
  = (Session.trace, Returned).
Proof. by vm_compute. Qed.

Lemma configured_in_sample_trace : Configured Session.sent ∈ Session.trace.
Proof.
  unfold Session.trace, read_commands. rewrite elem_of_app, !elem_of_cons. auto.
Qed.

Lemma existing_vlans_are_numbers_witness :
  "1300" ≠ "" ∧ all_digits "1300" = true ∧
  (is_Some (int_of_str "1300") ↔ (String.length "1300" ≤ int_max_str_digits)%nat).
Proof.
  apply (existing_vlans_are_numbers Session.vlan_brief "1300"). by_compute.
Defined.

Lemma exclude_ids_are_trimmed_witness : "1400" ≠ "" ∧ strip "1400" = "1400".
Proof.
  apply (exclude_ids_are_trimmed " 1400 ,, 7" "1400"). by_compute.
Defined.

Lemma exclude_argument_round_trip_witness :
  parse_exclude_vlans (join "," ["10"; " 20"; ""; "30 "])
  = list_to_set (filter (λ v, v ≠ "") (strip <$> ["10"; " 20"; ""; "30 "])).
Proof.
  apply (exclude_argument_round_trip ["10"; " 20"; ""; "30 "]).
  repeat constructor.
Defined.

Lemma main_configures_only_on_yes_witness :
  lower (strip " Yes ") ∈ ["yes"; "y"] ∧ Returned = Returned ∧
  ∃ send_command plan out,
    Some Session.new_switch = Some send_command ∧
    build_config_commands elements
      (parse_config_collector_output Sample.legacy_csv).1
      (parse_config_collector_output Sample.legacy_csv).2
      (get_existing_vlans (send_command "show vlan brief"))
      (parse_new_switch_mac_table (send_command "show mac address"))
      (get_interface_modes (send_command "show interfaces switchport"))
      (parse_exclude_vlans "1400") = Ok (plan, out) ∧
    plan ≠ [] ∧ Session.sent = plan ++ ["end"; "write memory"].
Proof.
  exact (main_configures_only_on_yes elements Sample.legacy_csv "1400"
           (Some Session.new_switch) " Yes " Session.trace Returned Session.sent
           elements_perm sample_run configured_in_sample_trace).
Defined.

Lemma main_rejects_non_numeric_exclusion_witness :
  Deploy.main elements Sample.legacy_csv "1400,voice" (Some Session.new_switch)
    "yes"
  = ([], Uncaught ValueError).
Proof.
  apply (main_rejects_non_numeric_exclusion elements Sample.legacy_csv
           "1400,voice" (Some Session.new_switch) "yes" "voice" elements_perm).
  - by_compute.
  - by vm_compute.
Defined.

Lemma main_never_configures_excluded_vlan_witness :
  ("vlan 1400" ∉ Session.sent) ∧ (" switchport access vlan 1400" ∉ Session.sent).
Proof.
  apply (main_never_configures_excluded_vlan elements Sample.legacy_csv "1400"
           (Some Session.new_switch) " Yes " Session.trace Returned Session.sent
           "1400" elements_perm sample_run configured_in_sample_trace).
  by_compute.
Defined.

Lemma main_configures_access_ports_only_witness :
  ∃ send_command,
    Some Session.new_switch = Some send_command ∧
    mode_of (get_interface_modes (send_command "show interfaces switchport"))
            "Gi0/2"
    = Some "static access".
Proof.
  apply (main_configures_access_ports_only elements Sample.legacy_csv "1400"
           (Some Session.new_switch) " Yes " Session.trace Returned Session.sent
           "Gi0/2" elements_perm sample_run configured_in_sample_trace).
  by_compute.
Defined.

Lemma overlong_run :
  Deploy.main elements Sample.legacy_csv "1400" (Some Session.overlong_switch)
    "yes"
  = ([Sent "show vlan brief"], Uncaught ValueError).
Proof.
  apply (main_stops_on_unconvertible_existing_id elements Sample.legacy_csv
           "1400" Session.overlong_switch "yes" (Sample.ones 4301)
           elements_perm).
  - assert (parse_exclude_vlans "1400" = {["1400"]}) as -> by (by vm_compute).
    intros w Hw. apply elem_of_singleton in Hw as ->. by_compute.
  - apply elem_of_get_existing_vlans.
    exists (Sample.ones 4301 +:+ " BIG active"). split; [|by vm_compute].
    assert (splitlines (Session.overlong_switch "show vlan brief")
            = [Sample.ones 4301 +:+ " BIG active"]) as -> by (by vm_compute).
    by left.
  - by vm_compute.
Qed.

Lemma main_reads_before_it_decides_witness :
  ∃ k rest,
    [Sent "show vlan brief"] = take k read_commands ++ rest ∧
    (∀ c, Sent c ∉ rest) ∧
    (rest ≠ [] → k = 3) ∧
    (∀ send_command,
       Some Session.overlong_switch = Some send_command →
       (∀ v, v ∈ parse_exclude_vlans "1400" → is_Some (int_of_str v)) →
       (1 ≤ k)%nat).
Proof.
  apply (main_reads_before_it_decides elements Sample.legacy_csv "1400"
           (Some Session.overlong_switch) "yes" [Sent "show vlan brief"]
           (Uncaught ValueError) elements_perm overlong_run).
Defined.

Lemma main_disconnects_iff_normal_end_witness :
  Disconnected ∈ read_commands ↔
  Uncaught ValueError = Returned ∨ Uncaught ValueError = Exit0.
Proof.
  apply (main_disconnects_iff_normal_end elements Sample.unvalidated_csv ""
           (Some Session.new_switch) "yes" read_commands (Uncaught ValueError)
           elements_perm).
  by vm_compute.
Defined.

Lemma sample_blocks : get_interface_blocks Sample.show_run = Ok Session.legacy_blocks.
Proof. by vm_compute. Qed.

Lemma blocks_are_contiguous_witness :
  ∃ pre decl body post,
    splitlines Sample.show_run = pre ++ decl :: body ++ post ∧
    ["interface Gi0/1"; " description uplink"] = decl :: body ∧
    startswith "interface" decl = true ∧ declared_name decl = Some "Gi0/1" ∧
    Forall (λ l, startswith "interface" l = false ∧ startswith "!" l = false) body.
Proof.
  apply (blocks_are_contiguous Sample.show_run Session.legacy_blocks "Gi0/1"
           ["interface Gi0/1"; " description uplink"] sample_blocks).
  by vm_compute.
Defined.

Lemma description_line_is_inert_witness :
  mode (extract_config_profile
          ["interface Gi0/1"; " description switchport mode trunk"; " shutdown"])
  = mode (extract_config_profile ["interface Gi0/1"; " shutdown"]) ∧
  access_vlan (extract_config_profile
          ["interface Gi0/1"; " description switchport mode trunk"; " shutdown"])
  = access_vlan (extract_config_profile ["interface Gi0/1"; " shutdown"]) ∧
  voice_vlan (extract_config_profile
          ["interface Gi0/1"; " description switchport mode trunk"; " shutdown"])
  = voice_vlan (extract_config_profile ["interface Gi0/1"; " shutdown"]) ∧
  portfast (extract_config_profile
          ["interface Gi0/1"; " description switchport mode trunk"; " shutdown"])
  = portfast (extract_config_profile ["interface Gi0/1"; " shutdown"]) ∧
  poe (extract_config_profile
          ["interface Gi0/1"; " description switchport mode trunk"; " shutdown"])
  = poe (extract_config_profile ["interface Gi0/1"; " shutdown"]) ∧
  shutdown (extract_config_profile
          ["interface Gi0/1"; " description switchport mode trunk"; " shutdown"])
  = shutdown (extract_config_profile ["interface Gi0/1"; " shutdown"]) ∧
  description (extract_config_profile
          ["interface Gi0/1"; " description switchport mode trunk"])
  = after_first_space (strip " description switchport mode trunk").
Proof.
  apply (description_line_is_inert ["interface Gi0/1"]
           " description switchport mode trunk" [" shutdown"]).
  by vm_compute.
Defined.

Lemma sample_db :
  ProfileDb.main map_to_list ([] ++ [Session.legacy_device]) = Ok Session.legacy_db.
Proof. by vm_compute. Qed.

Lemma master_db_of_last_switch_witness :
  ∃ db0 blocks,
    ProfileDb.main map_to_list [] = Ok db0 ∧
    get_interface_blocks (running Session.legacy_device) = Ok blocks ∧
    ∀ m, Session.legacy_db !! m
         = match get_mac_to_interface (mac_table Session.legacy_device) !! m with
           | Some intf =>
               match blocks !! intf with
               | Some config_lines =>
                   Some (DbProfile (extract_config_profile config_lines)
                                   (hostname Session.legacy_device) intf)
               | None => db0 !! m
               end
           | None => db0 !! m
           end.
Proof.
  apply (master_db_of_last_switch map_to_list [] Session.legacy_device
           Session.legacy_db); [done|].
  apply sample_db.
Defined.

Lemma collected_rows_are_table_tokens_witness :
  Collector.isdigit "1100" = true ∧
  lower "0050.7966.68ab" = "0050.7966.68ab" ∧
  blank_free "1100" = true ∧
  blank_free "0050.7966.68ab" = true ∧
  blank_free "Gi0/1" = true ∧
  "Gi0/1" ≠ "" ∧ "0050.7966.68ab" ≠ "" ∧
  "DATA"
  = Collector.dict_get "1100"
      (Collector.names_of (Collector.collect_mac_table (Some Session.old_switch))).
Proof.
  apply (collected_rows_are_table_tokens (Some Session.old_switch)
           (Collector.Row "1100" "0050.7966.68ab" "Gi0/1" "DATA")).
  assert (Collector.entries_of (Collector.collect_mac_table (Some Session.old_switch))
          = Session.rows) as -> by (by vm_compute).
  by left.
Defined.

Lemma no_header_no_rows_witness :
  Collector.entries_of
    (Collector.collect_mac_table (Some Session.headerless_switch)) = [].
Proof.
  apply (no_header_no_rows Session.headerless_switch).
  assert (splitlines (Session.headerless_switch "show mac address-table")
          = ["   1    0050.7966.6802    DYNAMIC     Gi0/2";
             "   1    0050.7966.6802    DYNAMIC     Gi0/3"]) as ->
    by (by vm_compute).
  repeat constructor.
Defined.

Lemma saved_file_reads_back_witness :
  parse_config_collector_output
    (Collector.save_to_single_file Session.rows Session.catalog Sample.show_run)
  = (to_entry <$> Session.rows, list_to_map Session.catalog).
Proof.
  apply (saved_file_reads_back Session.rows Session.catalog Sample.show_run).
  - repeat constructor.
  - repeat constructor.
  - by_compute.
  - assert (file_lines Sample.show_run = splitlines Sample.show_run) as ->
      by (by vm_compute).
    by_compute.
Defined.

Lemma collected_file_reads_back_witness :
  parse_config_collector_output Session.saved
  = (to_entry <$> Collector.entries_of
                    (Collector.collect_mac_table (Some Session.old_switch)),
     list_to_map (Collector.names_of
                    (Collector.collect_mac_table (Some Session.old_switch)))).
Proof.
  apply (collected_file_reads_back Session.old_switch Session.saved).
  - assert (Collector.entries_of
              (Collector.collect_mac_table (Some Session.old_switch))
            = Session.rows) as -> by (by vm_compute).
    repeat constructor.
  - assert (Collector.names_of
              (Collector.collect_mac_table (Some Session.old_switch))
            = Session.catalog) as -> by (by vm_compute).
    repeat constructor.
  - assert (file_lines (Collector.running_config_of
              (Collector.collect_mac_table (Some Session.old_switch)))
            = splitlines Sample.show_run) as -> by (by vm_compute).
    by_compute.
  - by vm_compute.
Defined.

Lemma index_entries_are_tokens_witness :
  lower "0050.7966.6802" = "0050.7966.6802" ∧ "0050.7966.6802" ≠ "" ∧
  "Gi0/2" ≠ "" ∧
  lookup_interface (parse_new_switch_mac_table Sample.switch_mac_table)
    "0050.7966.6802" = Some "Gi0/2".
Proof.
  apply (index_entries_are_tokens Sample.switch_mac_table "0050.7966.6802"
           "Gi0/2").
  by vm_compute.
Defined.

Lemma no_section_marker_no_data_witness :
  parse_config_collector_output
    (Sample.text ["1100,0050.7966.6802,Gi0/1,DATA"; "1,default"]) = ([], ∅).
Proof.
  apply (no_section_marker_no_data
           (Sample.text ["1100,0050.7966.6802,Gi0/1,DATA"; "1,default"])).
  assert (file_lines (Sample.text ["1100,0050.7966.6802,Gi0/1,DATA"; "1,default"])
          = ["1100,0050.7966.6802,Gi0/1,DATA"; "1,default"]) as ->
    by (by vm_compute).
  repeat constructor.
Defined.

Lemma legacy_port_is_ignored_witness :
  build_config_commands elements Sample.entries Sample.names Sample.existing
    Sample.index Sample.modes Sample.exclude
  = build_config_commands elements
      ((λ e, Entry (vlan e) (mac e) "" "") <$> Sample.entries)
      Sample.names Sample.existing Sample.index Sample.modes Sample.exclude.
Proof.
  apply (legacy_port_is_ignored elements Sample.entries
           ((λ e, Entry (vlan e) (mac e) "" "") <$> Sample.entries)).
  apply Forall2_fmap_r, Forall_Forall2_diag, Forall_forall. by intros.
Defined.

Lemma interface_modes_are_normalised_witness :
  lower "static access" = "static access" ∧
  strip "static access" = "static access".
Proof.
  apply (interface_modes_are_normalised
           (Sample.text ["Name: Gi0/1"; "Operational Mode:   Static Access  "])
           "Gi0/1" "static access").
  by vm_compute.
Defined.

Lemma plan_independent_of_set_order_witness :
  build_config_commands elements Sample.entries Sample.names Sample.existing
    Sample.index Sample.modes Sample.exclude
  = build_config_commands (λ s, reverse (elements s)) Sample.entries
      Sample.names Sample.existing Sample.index Sample.modes Sample.exclude.
Proof.
  apply (plan_independent_of_set_order elements (λ s, reverse (elements s))
           Sample.entries Sample.names Sample.existing Sample.index Sample.modes
           Sample.exclude elements_perm reverse_elements_perm).
  assert (vlans_to_create Sample.entries Sample.existing Sample.exclude
          = {["1100"; "1200"]}) as -> by (by vm_compute).
  intros v w k Hv Hw Hvk Hwk. unfold has_int in *.
  apply elem_of_union in Hv as [Hv|Hv]; apply elem_of_singleton in Hv as ->;
    apply elem_of_union in Hw as [Hw|Hw]; apply elem_of_singleton in Hw as ->;
    try done; vm_compute in Hvk, Hwk; congruence.
Defined.
